(** * Realtime chat backend: the coordination core, embedded and verified

    Shallow embedding of the backend services of the realtime-chat
    repository:

    - [RedisService]      (services/Redis)
    - [MessageService]    (services/MessageService)
    - [RoomService]       (services/RoomService.ts)
    - [WebSocketService]  (the socket.io gateway)
    - [AuthService.extractTokenFromAuth] (services/AuthService.ts)

    together with the relational schema of
    backend/migrations/001_initial_schema.sql.

    Asynchronous handlers become computations in a small state / error /
    log monad [M] over an explicit [World]: the Postgres tables, the Redis
    key space, the in-process typing map, timers and rate-limit windows.
    Every call to a collaborator (a SQL statement, a Redis command) may
    reject; the [faults] schedule of the world decides which ones do.
    Every observable step is appended to an effect log, so that ordering
    properties can be stated over the log of a handler.

    Conventions.  Time is an integer number of milliseconds since the
    epoch (UTC) and stands still while a handler runs.  Message and
    membership ids are integers.  User, room and socket ids are strings;
    a string is a sequence of characters up to U+00FF.  Console output is
    left out.  Payload fields of type [any] are modelled at the types the
    clients of the repository send: optional strings for ids and contents,
    [JVal] where the service stores or forwards the value untouched.
    Plain JavaScript objects used as maps are finite maps; where the
    property names inherited from [Object.prototype] make a difference,
    the definitions say so. *)

From Stdlib Require Import ZArith String List Ascii Lia Bool Sorted.
From stdpp Require Import base option gmap strings list fin_maps.

Import ListNotations.
Local Open Scope string_scope.
Local Open Scope list_scope.
Local Open Scope Z_scope.

(** ** JavaScript values

    Event payloads, request metadata and the JSON documents kept in Redis
    are dynamically typed on the JavaScript side. *)

#[warnings="-register-all"]
Inductive JVal : Type :=
| JUndef
| JNull
| JBool (b : bool)
| JNum (z : Z)
| JStr (s : string)
| JDate (t : Z)
| JArr (l : list JVal)
| JObj (o : list (string * JVal)).

Abbreviation JFields := (list (string * JVal)).

(** [o[k]] on a plain object: [undefined] when the property is absent. *)
Fixpoint jfield (k : string) (o : JFields) : JVal :=
  match o with
  | [] => JUndef
  | (k', v) :: o' => if String.eqb k k' then v else jfield k o'
  end.

Definition jget (k : string) (v : JVal) : JVal :=
  match v with
  | JObj o => jfield k o
  | _ => JUndef
  end.

(** [{...o, k: v}]: the spread keeps the position of an existing key and
    appends a new one. *)
Fixpoint jset (k : string) (v : JVal) (o : JFields) : JFields :=
  match o with
  | [] => [(k, v)]
  | (k', v') :: o' =>
      if String.eqb k k' then (k', v) :: o' else (k', v') :: jset k v o'
  end.

Definition is_undef (v : JVal) : bool :=
  match v with JUndef => true | _ => false end.

(** [JSON.parse(JSON.stringify(o))] on an object: properties whose value
    is [undefined] are dropped. *)
Definition json_fields (o : JFields) : JFields :=
  List.filter (fun kv => negb (is_undef (snd kv))) o.

Definition jopt (o : option string) : JVal :=
  match o with Some s => JStr s | None => JUndef end.

(** JavaScript truthiness of an optional string ([undefined] and the empty
    string are falsy). *)
Definition truthy (o : option string) : bool :=
  match o with
  | Some s => negb (String.eqb s "")
  | None => false
  end.

(** ** Strings *)

(** A string is a sequence of characters with code points 0 to 255 (one
    [ascii] per character, read as Latin-1), so that [String.length] is the
    number of characters, as JavaScript's [length] and PostgreSQL's
    [LENGTH] count them for such strings; characters above U+00FF are not
    represented.

    The characters removed by [String.prototype.trim] in that range: TAB,
    LF, VT, FF, CR, the space and the no-break space U+00A0. *)
Definition is_blank (c : ascii) : bool :=
  let n := nat_of_ascii c in
  (Nat.eqb n 32 || (Nat.leb 9 n && Nat.leb n 13) || Nat.eqb n 160)%bool.

Fixpoint trim_start (s : string) : string :=
  match s with
  | String c s' => if is_blank c then trim_start s' else s
  | EmptyString => EmptyString
  end.

Fixpoint trim_end (s : string) : string :=
  match s with
  | String c s' =>
      match trim_end s' with
      | EmptyString => if is_blank c then EmptyString else String c EmptyString
      | t => String c t
      end
  | EmptyString => EmptyString
  end.

Definition trim (s : string) : string := trim_end (trim_start s).

Fixpoint starts_with (p s : string) : bool :=
  match p, s with
  | EmptyString, _ => true
  | String a p', String b s' => Ascii.eqb a b && starts_with p' s'
  | String _ _, EmptyString => false
  end.

Definition len (s : string) : Z := Z.of_nat (String.length s).

(** The strings of ASCII characters other than U+0000, which PostgreSQL
    refuses in a text value. *)
Definition plain_ascii (s : string) : bool :=
  forallb (fun c => Nat.leb 1 (nat_of_ascii c) && Nat.ltb (nat_of_ascii c) 128)
          (list_ascii_of_string s).

(** The property names every plain JavaScript object inherits from
    [Object.prototype] (Node.js).  Reading such a name on an object that
    has no own property of that name yields the inherited value, a
    function (the prototype object itself for [__proto__]), and not
    [undefined]. *)
Definition Object_prototype_names : list string :=
  ["constructor"; "__defineGetter__"; "__defineSetter__"; "hasOwnProperty";
   "__lookupGetter__"; "__lookupSetter__"; "isPrototypeOf";
   "propertyIsEnumerable"; "toString"; "valueOf"; "__proto__";
   "toLocaleString"].

Definition inherited (name : string) : bool :=
  existsb (String.eqb name) Object_prototype_names.

(** ** The relational store (migrations/001_initial_schema.sql) *)

Record UserRow := mkUserRow {
  u_id : string;
  u_username : string
}.

Record RoomRow := mkRoomRow {
  r_id : string;
  r_name : string;
  r_description : option string;
  r_type : string;
  r_owner_id : option string;
  r_settings : JVal;
  r_created_at : Z;
  r_updated_at : Z
}.

Record MessageRow := mkMessageRow {
  m_id : Z;
  m_room_id : string;
  m_user_id : string;
  m_content : string;
  m_type : string;
  m_metadata : JVal;
  m_created_at : Z;
  m_edited_at : option Z
}.

Record MembershipRow := mkMembershipRow {
  rm_id : Z;
  rm_user_id : string;
  rm_room_id : string;
  rm_role : string;
  rm_joined_at : Z;
  rm_last_read_at : Z;
  rm_notifications : bool
}.

(** Tables are lists of rows in insertion order; the two BIGSERIAL
    sequences are explicit. *)
Record Database := mkDatabase {
  users : list UserRow;
  chat_rooms : list RoomRow;
  messages : list MessageRow;
  room_memberships : list MembershipRow;
  messages_id_seq : Z;
  room_memberships_id_seq : Z
}.

Definition with_chat_rooms (rs : list RoomRow) (d : Database) : Database :=
  mkDatabase (users d) rs (messages d) (room_memberships d)
             (messages_id_seq d) (room_memberships_id_seq d).

Definition with_messages (ms : list MessageRow) (d : Database) : Database :=
  mkDatabase (users d) (chat_rooms d) ms (room_memberships d)
             (messages_id_seq d) (room_memberships_id_seq d).

Definition with_memberships (ms : list MembershipRow) (d : Database) : Database :=
  mkDatabase (users d) (chat_rooms d) (messages d) ms
             (messages_id_seq d) (room_memberships_id_seq d).

(** ** The Redis key space *)

Inductive RedisVal : Type :=
| RString (v : JVal)          (* a JSON document stored with SETEX *)
| RSet (s : gset string).     (* a set built with SADD *)

Record RedisEntry := mkRedisEntry {
  re_val : RedisVal;
  re_expire : option Z        (* absolute expiry in ms, [None]: no TTL *)
}.

(** ** In-process state of the WebSocket service *)

Record AuthenticatedSocket := mkSocket {
  sock_id : string;
  userId : string;
  username : string;
  email : string
}.

(** An entry of [typingUsers[roomId][userId]]; [timeout] is the handle of
    the pending auto-clear timer. *)
Record TypingEntry := mkTypingEntry {
  te_username : string;
  te_timeout : nat
}.

(** A pending [setTimeout] whose callback is
    [handleStopTyping(socket, { roomId })]. *)
Record Timer := mkTimer {
  tm_id : nat;
  tm_due : Z;
  tm_socket : AuthenticatedSocket;
  tm_room : string
}.

(** An entry of the [limits] object closed over by a rate limiter. *)
Record LimitEntry := mkLimitEntry {
  count : Z;
  resetTime : Z
}.

Record World := mkWorld {
  db : Database;
  redis : gmap string RedisEntry;
  typingUsers : gmap string (gmap string TypingEntry);
  timers : list Timer;
  next_timer : nat;
  (* the [limits] object of the limiter attached to each socket id *)
  limiters : gmap string (gmap string LimitEntry);
  (* socket.io adapter: room -> ids of the sockets that joined it *)
  sio_rooms : gmap string (gset string);
  (* the clock: Date.now(), new Date() and SQL NOW(), in milliseconds *)
  now : Z;
  (* outcome of the next collaborator calls: [Some msg] rejects with
     [Error(msg)]; when the schedule is exhausted every call succeeds *)
  faults : list (option string)
}.

Definition with_db (d : Database) (w : World) : World :=
  mkWorld d (redis w) (typingUsers w) (timers w) (next_timer w)
          (limiters w) (sio_rooms w) (now w) (faults w).

Definition with_redis (r : gmap string RedisEntry) (w : World) : World :=
  mkWorld (db w) r (typingUsers w) (timers w) (next_timer w)
          (limiters w) (sio_rooms w) (now w) (faults w).

Definition with_typingUsers (t : gmap string (gmap string TypingEntry))
    (w : World) : World :=
  mkWorld (db w) (redis w) t (timers w) (next_timer w)
          (limiters w) (sio_rooms w) (now w) (faults w).

Definition with_timers (ts : list Timer) (n : nat) (w : World) : World :=
  mkWorld (db w) (redis w) (typingUsers w) ts n
          (limiters w) (sio_rooms w) (now w) (faults w).

Definition with_limiters (l : gmap string (gmap string LimitEntry))
    (w : World) : World :=
  mkWorld (db w) (redis w) (typingUsers w) (timers w) (next_timer w)
          l (sio_rooms w) (now w) (faults w).

Definition with_sio_rooms (s : gmap string (gset string)) (w : World) : World :=
  mkWorld (db w) (redis w) (typingUsers w) (timers w) (next_timer w)
          (limiters w) s (now w) (faults w).

Definition with_now (t : Z) (w : World) : World :=
  mkWorld (db w) (redis w) (typingUsers w) (timers w) (next_timer w)
          (limiters w) (sio_rooms w) t (faults w).

Definition with_faults (f : list (option string)) (w : World) : World :=
  mkWorld (db w) (redis w) (typingUsers w) (timers w) (next_timer w)
          (limiters w) (sio_rooms w) (now w) f.

(** ** Effects *)

(** The SQL statements issued by the services. *)
Inductive SqlOp : Type :=
| SqlBegin
| SqlCommit
| SqlRollback
| SelectMembership (user room : string)
| SelectRoomType (room : string)
| InsertMembership (user room role : string)
| TouchRoom (room : string)
| SelectNewOwner (room user : string)
| UpdateMembershipRole (user room role : string)
| UpdateRoomOwner (room owner : string)
| DeleteMembership (user room : string)
| SelectUserRooms (user : string)
| SelectLastMessage (room : string)
| SelectRoomById (room : string) (user : option string)
| SelectParticipants (room : string)
| InsertMessage (room user content type : string)
| SelectHistory (room : string) (cursor : option Z) (limit : Z)
| SelectMessageOwner (id : Z)
| UpdateMessage (id : Z)
| SoftDeleteMessage (id : Z)
| SelectMessageById (id : Z).

Inductive RedisOp : Type :=
| SetEx (key : string) (seconds : Z)
| Get (key : string)
| Del (keys : list string)
| SAdd (key member : string)
| SRem (key member : string)
| Keys (prefix : string).

(** Addressees of an emitted event. *)
Inductive Target : Type :=
| ToSocket (socketId : string)                 (* socket.emit *)
| ToRoomExcept (room : string) (socketId : string)  (* socket.to(room).emit *)
| ToRoom (room : string).                      (* io.to(room).emit *)

Inductive Effect : Type :=
| RateLimit (socketId action : string) (allowed : bool)
| Sql (q : SqlOp) (ok : bool)
| Redis (c : RedisOp) (ok : bool)
| Emit (t : Target) (event : string) (payload : JFields)
| SocketJoin (socketId room : string)
| SocketLeave (socketId room : string)
| SetTimeout (id : nat) (due : Z)
| ClearTimeout (id : nat)
| TypingPut (room user : string)
| TypingDelete (room user : string).

(** ** The handler monad *)

Inductive Result (A : Type) : Type :=
| Ok (a : A)
| Throw (message : string).
Arguments Ok {A} a.
Arguments Throw {A} message.

Definition M (A : Type) : Type := World -> Result A * World * list Effect.

Definition ret {A} (a : A) : M A := fun w => (Ok a, w, []).

Definition throw {A} (msg : string) : M A := fun w => (Throw msg, w, []).

Definition bind {A B} (m : M A) (k : A -> M B) : M B := fun w =>
  match m w with
  | (Ok a, w1, l1) =>
      match k a w1 with
      | (r, w2, l2) => (r, w2, l1 ++ l2)
      end
  | (Throw e, w1, l1) => (Throw e, w1, l1)
  end.

Notation "'let*' x ':=' m 'in' k" := (bind m (fun x => k))
  (at level 10, x pattern, m at level 100, k at level 200, only parsing).

(** [try { m } catch (error) { h(error.message) }] *)
Definition try_catch {A} (m : M A) (h : string -> M A) : M A := fun w =>
  match m w with
  | (Ok a, w1, l1) => (Ok a, w1, l1)
  | (Throw e, w1, l1) =>
      match h e w1 with
      | (r, w2, l2) => (r, w2, l1 ++ l2)
      end
  end.

Definition tell (e : Effect) : M unit := fun w => (Ok tt, w, [e]).

Definition gets {A} (f : World -> A) : M A := fun w => (Ok (f w), w, []).

Definition modify (f : World -> World) : M unit := fun w => (Ok tt, f w, []).

Definition when (b : bool) (m : M unit) : M unit := if b then m else ret tt.

Fixpoint for_each {A} (l : list A) (body : A -> M unit) : M unit :=
  match l with
  | [] => ret tt
  | x :: l' => let* _ := body x in for_each l' body
  end.

Fixpoint map_m {A B} (f : A -> M B) (l : list A) : M (list B) :=
  match l with
  | [] => ret []
  | x :: l' =>
      let* y := f x in
      let* ys := map_m f l' in
      ret (y :: ys)
  end.

(** One call to a collaborator (a SQL statement or a Redis command).  The
    next entry of the fault schedule decides whether the call rejects
    before doing anything; otherwise [run] computes its result, which may
    itself be a rejection (a violated constraint, a WRONGTYPE reply).
    [mk] builds the logged effect from the outcome. *)
Definition collaborator {A} (mk : bool -> Effect)
    (run : World -> Result A * World) : M A := fun w =>
  match faults w with
  | Some msg :: fs => (Throw msg, with_faults fs w, [mk false])
  | _ =>
      match run (with_faults (tail (faults w)) w) with
      | (Ok a, w1) => (Ok a, w1, [mk true])
      | (Throw e, w1) => (Throw e, w1, [mk false])
      end
  end.

Definition result_of {A} (o : Result A * World * list Effect) : Result A :=
  fst (fst o).
Definition world_of {A} (o : Result A * World * list Effect) : World :=
  snd (fst o).
Definition log_of {A} (o : Result A * World * list Effect) : list Effect :=
  snd o.

(** ** Redis commands *)

Definition live (t : Z) (e : RedisEntry) : bool :=
  match re_expire e with
  | Some x => t <? x
  | None => true
  end.

(** The value a key holds at the current time, expired keys being gone. *)
Definition rlookup (w : World) (key : string) : option RedisVal :=
  match redis w !! key with
  | Some e => if live (now w) e then Some (re_val e) else None
  | None => None
  end.

Definition wrongtype : string :=
  "WRONGTYPE Operation against a key holding the wrong kind of value".

Definition redis_setEx (key : string) (seconds : Z) (v : JVal) : M unit :=
  collaborator (Redis (SetEx key seconds)) (fun w =>
    (Ok tt,
     with_redis
       (<[key := mkRedisEntry (RString v) (Some (now w + seconds * 1000))]>
          (redis w)) w)).

Definition redis_get (key : string) : M (option JVal) :=
  collaborator (Redis (Get key)) (fun w =>
    match rlookup w key with
    | Some (RString v) => (Ok (Some v), w)
    | Some (RSet _) => (Throw wrongtype, w)
    | None => (Ok None, w)
    end).

Definition redis_del (keys : list string) : M unit :=
  collaborator (Redis (Del keys)) (fun w =>
    (Ok tt, with_redis (foldr delete (redis w) keys) w)).

Definition redis_sAdd (key member : string) : M unit :=
  collaborator (Redis (SAdd key member)) (fun w =>
    match rlookup w key with
    | Some (RString _) => (Throw wrongtype, w)
    | Some (RSet s) =>
        (Ok tt,
         with_redis
           (alter (fun e => mkRedisEntry (RSet ({[member]} ∪ s)) (re_expire e))
                  key (redis w)) w)
    | None =>
        (Ok tt,
         with_redis (<[key := mkRedisEntry (RSet {[member]}) None]> (redis w)) w)
    end).

(** SREM; Redis removes a set that becomes empty. *)
Definition redis_sRem (key member : string) : M unit :=
  collaborator (Redis (SRem key member)) (fun w =>
    match rlookup w key with
    | Some (RString _) => (Throw wrongtype, w)
    | Some (RSet s) =>
        let s' := s ∖ {[member]} in
        (Ok tt,
         with_redis
           (if decide (s' = ∅) then delete key (redis w)
            else alter (fun e => mkRedisEntry (RSet s') (re_expire e))
                       key (redis w)) w)
    | None => (Ok tt, w)
    end).

(** KEYS prefix*: the glob patterns of the services are a literal prefix
    followed by a star (room ids match [^[a-z0-9-]+$] in the schema, so
    they carry no glob metacharacter). *)
Definition redis_keys (prefix : string) : M (list string) :=
  collaborator (Redis (Keys prefix)) (fun w =>
    (Ok (List.filter
           (fun k => starts_with prefix k && bool_decide (is_Some (rlookup w k)))
           (map fst (map_to_list (redis w)))), w)).

(** ** RedisService *)

Record UserPresence := mkUserPresence {
  up_userId : string;
  up_status : JVal;
  up_currentRoom : JVal;
  up_lastActivity : Z;
  up_connectionId : JVal
}.

Definition presence_key (user : string) : string := "presence:user:" +:+ user.
Definition participants_key (room : string) : string :=
  "room:participants:" +:+ room.
Definition session_key (connectionId : string) : string :=
  "session:" +:+ connectionId.
Definition cache_key (room : string) (cursor : option string) : string :=
  "cache:messages:" +:+ room +:+ ":" +:+
  (if truthy cursor then default "" cursor else "latest").

Definition presence_json (p : UserPresence) : JVal :=
  JObj (json_fields
          [("status", up_status p);
           ("currentRoom", up_currentRoom p);
           ("lastActivity", JDate (up_lastActivity p));
           ("connectionId", up_connectionId p)]).

Definition setUserPresence (presence : UserPresence) : M unit :=
  redis_setEx (presence_key (up_userId presence)) 30 (presence_json presence).

Definition getUserPresence (user : string) : M (option UserPresence) :=
  let* value := redis_get (presence_key user) in
  match value with
  | None => ret None
  | Some data =>
      ret (Some (mkUserPresence user
                   (jget "status" data)
                   (jget "currentRoom" data)
                   (match jget "lastActivity" data with
                    | JDate t => t
                    | _ => 0
                    end)
                   (jget "connectionId" data)))
  end.

Definition removeUserPresence (user : string) : M unit :=
  redis_del [presence_key user].

Definition updateUserActivity (user : string) : M unit :=
  let* presence := getUserPresence user in
  match presence with
  | Some p =>
      let* t := gets now in
      setUserPresence
        (mkUserPresence (up_userId p) (JStr "online") (up_currentRoom p) t
                        (up_connectionId p))
  | None => ret tt
  end.

Definition addUserToRoom (user room : string) : M unit :=
  redis_sAdd (participants_key room) user.

Definition removeUserFromRoom (user room : string) : M unit :=
  redis_sRem (participants_key room) user.

Definition setSession (connectionId user : string) : M unit :=
  let* t := gets now in
  redis_setEx (session_key connectionId) 3600
    (JObj [("userId", JStr user); ("joinedAt", JDate t)]).

Definition removeSession (connectionId : string) : M unit :=
  redis_del [session_key connectionId].

Definition cacheMessageHistory (room : string) (messages : list JVal)
    (cursor : option string) : M unit :=
  redis_setEx (cache_key room cursor) 300 (JArr messages).

Definition getCachedMessageHistory (room : string) (cursor : option string)
    : M (option JVal) :=
  redis_get (cache_key room cursor).

(** ** SQL statements *)

Definition sql {A} (q : SqlOp) (run : Database -> Z -> Result A * Database)
    : M A :=
  collaborator (Sql q) (fun w =>
    match run (db w) (now w) with
    | (r, d) => (r, with_db d w)
    end).

(** A read-only statement. *)
Definition sql_select {A} (q : SqlOp) (rows : Database -> A) : M A :=
  sql q (fun d _ => (Ok (rows d), d)).

(** ORDER BY: a stable insertion sort, so that rows with equal keys keep
    their table order (SQL leaves their order unspecified). *)
Fixpoint insert_by {A} (le : A -> A -> bool) (x : A) (l : list A) : list A :=
  match l with
  | [] => [x]
  | y :: l' => if le x y then x :: l else y :: insert_by le x l'
  end.

Definition sort_by {A} (le : A -> A -> bool) (l : list A) : list A :=
  foldr (insert_by le) [] l.

Definition user_exists (user : string) (d : Database) : bool :=
  existsb (fun u => String.eqb (u_id u) user) (users d).

Definition room_exists (room : string) (d : Database) : bool :=
  existsb (fun r => String.eqb (r_id r) room) (chat_rooms d).

(** [... FROM room_memberships WHERE user_id = $1 AND room_id = $2] *)
Definition memberships_of (user room : string) (d : Database)
    : list MembershipRow :=
  List.filter
    (fun m => String.eqb (rm_user_id m) user && String.eqb (rm_room_id m) room)
    (room_memberships d).

Definition room_members (room : string) (d : Database) : list MembershipRow :=
  List.filter (fun m => String.eqb (rm_room_id m) room) (room_memberships d).

(** [... FROM messages m JOIN users u ON m.user_id = u.id] *)
Definition join_users (ms : list MessageRow) (d : Database)
    : list (MessageRow * UserRow) :=
  flat_map
    (fun m =>
       map (fun u => (m, u))
           (List.filter (fun u => String.eqb (u_id u) (m_user_id m)) (users d)))
    ms.

Definition newest_first (a b : MessageRow * UserRow) : bool :=
  m_created_at (fst b) <=? m_created_at (fst a).

(** [UPDATE chat_rooms SET updated_at = NOW() WHERE id = $1] *)
Definition touch_room (room : string) (d : Database) (t : Z)
    : Result unit * Database :=
  (Ok tt,
   with_chat_rooms
     (map (fun r =>
             if String.eqb (r_id r) room
             then mkRoomRow (r_id r) (r_name r) (r_description r) (r_type r)
                            (r_owner_id r) (r_settings r) (r_created_at r) t
             else r)
          (chat_rooms d)) d).

Definition valid_role (role : string) : bool :=
  String.eqb role "owner" || String.eqb role "admin" || String.eqb role "member".

(** [INSERT INTO room_memberships (user_id, room_id, role) ... RETURNING ...]
    with the foreign keys, the role CHECK and UNIQUE(user_id, room_id) of
    the schema.  The BIGSERIAL default is drawn before the constraints are
    checked, so a rejected insert still consumes an id. *)
Definition insert_membership (user room role : string) (d : Database) (t : Z)
    : Result MembershipRow * Database :=
  let id := room_memberships_id_seq d + 1 in
  let d1 := mkDatabase (users d) (chat_rooms d) (messages d)
                       (room_memberships d) (messages_id_seq d) id in
  if negb (user_exists user d) then
    (Throw "insert or update on table room_memberships violates foreign key constraint room_memberships_user_id_fkey", d1)
  else if negb (room_exists room d) then
    (Throw "insert or update on table room_memberships violates foreign key constraint room_memberships_room_id_fkey", d1)
  else if negb (valid_role role) then
    (Throw "new row for relation room_memberships violates check constraint room_memberships_role_check", d1)
  else if negb (Nat.eqb (length (memberships_of user room d)) 0) then
    (Throw "duplicate key value violates unique constraint room_memberships_user_id_room_id_key", d1)
  else
    let row := mkMembershipRow id user room role t t true in
    (Ok row, with_memberships (room_memberships d ++ [row]) d1).

(** ** RoomService (services/RoomService.ts) *)

Record LastMessage := mkLastMessage {
  lm_id : Z;
  lm_content : string;
  lm_createdAt : Z;
  lm_username : string
}.

Record RoomWithMembership := mkRoomWithMembership {
  rw_room : RoomRow;
  rw_memberCount : Z;
  rw_membership : option MembershipRow;
  rw_lastMessage : option LastMessage
}.

Definition js_falsy (v : JVal) : bool :=
  match v with
  | JUndef | JNull | JBool false | JNum 0 | JStr "" => true
  | _ => false
  end.

(** [mapRowToRoom]: [settings: row.settings || {}]. *)
Definition mapRowToRoom (r : RoomRow) : RoomRow :=
  mkRoomRow (r_id r) (r_name r) (r_description r) (r_type r) (r_owner_id r)
            (if js_falsy (r_settings r) then JObj [] else r_settings r)
            (r_created_at r) (r_updated_at r).

(** The "last message" query shared by [getRoomById] and [getUserRooms]. *)
Definition last_message (room : string) : M (option LastMessage) :=
  let* rows :=
    sql_select (SelectLastMessage room) (fun d =>
      firstn 1
        (sort_by newest_first
           (join_users
              (List.filter (fun m => String.eqb (m_room_id m) room) (messages d))
              d))) in
  match rows with
  | (m, u) :: _ =>
      ret (Some (mkLastMessage (m_id m) (m_content m) (m_created_at m)
                               (u_username u)))
  | [] => ret None
  end.

Definition getUserRooms (user : string) : M (list RoomWithMembership) :=
  let* rows :=
    sql_select (SelectUserRooms user) (fun d =>
      sort_by
        (fun a b : RoomRow * MembershipRow * Z =>
           r_updated_at (fst (fst b)) <=? r_updated_at (fst (fst a)))
        (flat_map
           (fun r =>
              map (fun rm =>
                     (r, rm, Z.of_nat (length (room_members (r_id r) d))))
                  (List.filter
                     (fun rm => String.eqb (rm_room_id rm) (r_id r)
                                && String.eqb (rm_user_id rm) user)
                     (room_memberships d)))
           (chat_rooms d))) in
  (* Promise.all over the rows: one "last message" query per room.  The
     queries are started together; they are read here one after the other,
     the first rejection ending the list, which is what the caller sees of
     them: the queries behind a rejected one only read. *)
  map_m
    (fun row : RoomRow * MembershipRow * Z =>
       let* lastMsg := last_message (r_id (fst (fst row))) in
       ret (mkRoomWithMembership (mapRowToRoom (fst (fst row))) (snd row)
                                 (Some (snd (fst row))) lastMsg))
    rows.

Definition getRoomById (room user : string) : M (option RoomWithMembership) :=
  let* rows :=
    sql_select
      (SelectRoomById room
         (if String.eqb user "" then None else Some user))
      (fun d =>
         map (fun r =>
                (r,
                 Z.of_nat (length (room_members room d)),
                 if String.eqb user "" then None
                 else head (memberships_of user room d)))
             (List.filter (fun r => String.eqb (r_id r) room) (chat_rooms d))) in
  match rows with
  | [] => ret None
  | (r, member_count, user_rm) :: _ =>
      let* lastMsg := last_message room in
      ret (Some (mkRoomWithMembership (mapRowToRoom r) member_count user_rm
                                      lastMsg))
  end.

Definition joinRoom (user room role : string) : M MembershipRow :=
  (* Check if user is already a member *)
  let* existing :=
    sql_select (SelectMembership user room) (memberships_of user room) in
  match existing with
  | membership :: _ =>
      (* Return existing membership instead of throwing error *)
      ret membership
  | [] =>
      (* Check room exists and is joinable *)
      let* found :=
        sql_select (SelectRoomType room) (fun d =>
          map r_type
              (List.filter (fun r => String.eqb (r_id r) room) (chat_rooms d))) in
      match found with
      | [] => throw "Room not found"
      | type :: _ =>
          if String.eqb type "private" then
            throw "Cannot join private room without invitation"
          else
            let* membership :=
              sql (InsertMembership user room role)
                  (insert_membership user room role) in
            let* _ := addUserToRoom user room in
            let* _ := sql (TouchRoom room) (touch_room room) in
            ret membership
      end
  end.

(** [database.transaction]: BEGIN, the callback, COMMIT; on any rejection
    ROLLBACK and rethrow.  A rollback restores the tables (sequences are
    not transactional); acquiring the pooled client is folded into BEGIN. *)
Definition transaction {A} (body : M A) : M A :=
  let* before := gets db in
  try_catch
    (let* _ := sql SqlBegin (fun d _ => (Ok tt, d)) in
     let* result := body in
     let* _ := sql SqlCommit (fun d _ => (Ok tt, d)) in
     ret result)
    (fun error =>
       let* _ :=
         modify (fun w =>
           with_db (mkDatabase (users before) (chat_rooms before)
                               (messages before) (room_memberships before)
                               (messages_id_seq (db w))
                               (room_memberships_id_seq (db w))) w) in
       let* _ := sql SqlRollback (fun d _ => (Ok tt, d)) in
       throw error).

(** [ORDER BY role DESC, joined_at ASC LIMIT 1] over rows whose role is
    'admin' or 'member': 'member' sorts before 'admin' in descending
    order. *)
Definition new_owner_first (a b : MembershipRow) : bool :=
  if String.eqb (rm_role a) (rm_role b) then rm_joined_at a <=? rm_joined_at b
  else String.eqb (rm_role a) "member".

Definition leaveRoom (user room : string) : M unit :=
  transaction
    ((* Check if user is the owner *)
     let* membership :=
       sql_select (SelectMembership user room) (memberships_of user room) in
     match membership with
     | [] => throw "User is not a member of this room"
     | row :: _ =>
         let* _ :=
           if String.eqb (rm_role row) "owner" then
             (* Transfer ownership to another admin or member *)
             let* newOwner :=
               sql_select (SelectNewOwner room user) (fun d =>
                 firstn 1
                   (sort_by new_owner_first
                      (List.filter
                         (fun m =>
                            negb (String.eqb (rm_user_id m) user)
                            && (String.eqb (rm_role m) "admin"
                                || String.eqb (rm_role m) "member"))
                         (room_members room d)))) in
             match newOwner with
             | o :: _ =>
                 let* _ :=
                   sql (UpdateMembershipRole (rm_user_id o) room "owner")
                       (fun d _ =>
                          (Ok tt,
                           with_memberships
                             (map (fun m =>
                                     if String.eqb (rm_user_id m) (rm_user_id o)
                                        && String.eqb (rm_room_id m) room
                                     then mkMembershipRow (rm_id m) (rm_user_id m)
                                            (rm_room_id m) "owner" (rm_joined_at m)
                                            (rm_last_read_at m) (rm_notifications m)
                                     else m)
                                  (room_memberships d)) d)) in
                 sql (UpdateRoomOwner room (rm_user_id o))
                     (fun d t =>
                        (Ok tt,
                         with_chat_rooms
                           (map (fun r =>
                                   if String.eqb (r_id r) room
                                   then mkRoomRow (r_id r) (r_name r)
                                          (r_description r) (r_type r)
                                          (Some (rm_user_id o)) (r_settings r)
                                          (r_created_at r) t
                                   else r)
                                (chat_rooms d)) d))
             | [] => ret tt
             end
           else ret tt in
         (* Remove membership *)
         let* _ :=
           sql (DeleteMembership user room) (fun d _ =>
             (Ok tt,
              with_memberships
                (List.filter
                   (fun m => negb (String.eqb (rm_user_id m) user
                                   && String.eqb (rm_room_id m) room))
                   (room_memberships d)) d)) in
         (* Remove from Redis *)
         removeUserFromRoom user room
     end).

Record RoomParticipant := mkRoomParticipant {
  rp_userId : string;
  rp_username : string;
  rp_role : string;
  rp_joinedAt : Z;
  rp_isOnline : bool
}.

(** Rank of a role in descending collation order: owner, member, admin. *)
Definition role_rank (role : string) : Z :=
  if String.eqb role "owner" then 2
  else if String.eqb role "member" then 1
  else 0.

Definition getRoomParticipants (room : string) : M (list RoomParticipant) :=
  let* rows :=
    sql_select (SelectParticipants room) (fun d =>
      sort_by
        (fun a b : MembershipRow * UserRow =>
           if role_rank (rm_role (fst a)) =? role_rank (rm_role (fst b))
           then rm_joined_at (fst a) <=? rm_joined_at (fst b)
           else role_rank (rm_role (fst b)) <? role_rank (rm_role (fst a)))
        (flat_map
           (fun rm =>
              map (fun u => (rm, u))
                  (List.filter (fun u => String.eqb (u_id u) (rm_user_id rm))
                               (users d)))
           (room_members room d))) in
  map_m
    (fun row : MembershipRow * UserRow =>
       let* presence := getUserPresence (u_id (snd row)) in
       ret (mkRoomParticipant (u_id (snd row)) (u_username (snd row))
              (rm_role (fst row)) (rm_joined_at (fst row))
              (match presence with
               | Some p =>
                   match up_status p with
                   | JStr s => String.eqb s "online"
                   | _ => false
                   end
               | None => false
               end)))
    rows.

(** ** MessageService *)

Definition valid_message_type (type : string) : bool :=
  String.eqb type "text" || String.eqb type "system"
  || String.eqb type "join" || String.eqb type "leave".

(** The [content_length] CHECK of the messages table. *)
Definition content_length_ok (type content : string) : bool :=
  if String.eqb type "text" then (1 <=? len content) && (len content <=? 2000)
  else 1 <=? len content.

(** The partitions of the messages table: the schema creates
    [messages_2025_09] and [messages_2025_10], from 2025-09-01 to
    2025-11-01, and nothing calls [create_monthly_partition].  Times are
    milliseconds since the epoch; the database session runs in UTC. *)
Definition in_partition (t : Z) : bool :=
  (1756684800000 <=? t) && (t <? 1761955200000).

(** [INSERT INTO messages (room_id, user_id, content, type, metadata) ...
    RETURNING ...].  The row is routed to the partition of its
    [created_at], the time of the statement, before its constraints are
    checked. *)
Definition insert_message (room user content type : string) (metadata : JVal)
    (d : Database) (t : Z) : Result MessageRow * Database :=
  let id := messages_id_seq d + 1 in
  let d1 := mkDatabase (users d) (chat_rooms d) (messages d)
                       (room_memberships d) id (room_memberships_id_seq d) in
  if negb (in_partition t) then
    (Throw "no partition of relation messages found for row", d1)
  else if negb (room_exists room d) then
    (Throw "insert or update on table messages violates foreign key constraint messages_room_id_fkey", d1)
  else if negb (user_exists user d) then
    (Throw "insert or update on table messages violates foreign key constraint messages_user_id_fkey", d1)
  else if negb (valid_message_type type) then
    (Throw "new row for relation messages violates check constraint messages_type_check", d1)
  else if negb (content_length_ok type content) then
    (Throw "new row for relation messages violates check constraint content_length", d1)
  else
    let row := mkMessageRow id room user content type metadata t None in
    (Ok row, with_messages (messages d ++ [row]) d1).

(** [mapRowToMessage]: [metadata: row.metadata || {}].  Identifiers stay
    integers; their decimal rendering ([toString]) is not modelled. *)
Definition mapRowToMessage (row : MessageRow) : MessageRow :=
  mkMessageRow (m_id row) (m_room_id row) (m_user_id row) (m_content row)
               (m_type row)
               (if js_falsy (m_metadata row) then JObj [] else m_metadata row)
               (m_created_at row) (m_edited_at row).

Definition validateUserInRoom (user room : string) : M unit :=
  let* membership :=
    sql_select (SelectMembership user room) (memberships_of user room) in
  match membership with
  | [] => throw "User is not a member of this room"
  | _ :: _ => ret tt
  end.

Definition clearMessageCache (room : string) : M unit :=
  let* keys := redis_keys ("cache:messages:" +:+ room +:+ ":") in
  match keys with
  | [] => ret tt
  | _ :: _ => redis_del keys
  end.

Definition createMessage (room user content : string) (type : option string)
    (metadata : option JFields) : M MessageRow :=
  let type := default "text" type in
  let metadata := default [] metadata in
  (* Validate user is member of room *)
  let* _ := validateUserInRoom user room in
  (* Create message *)
  let* message :=
    sql (InsertMessage room user content type)
        (insert_message room user content type (JObj (json_fields metadata))) in
  (* Update room's last activity *)
  let* _ := sql (TouchRoom room) (touch_room room) in
  (* Clear message cache for this room *)
  let* _ := clearMessageCache room in
  ret (mapRowToMessage message).

Definition editedAt_json (t : option Z) : JVal :=
  match t with Some x => JDate x | None => JNull end.

Definition message_with_user_json (row : MessageRow * UserRow) : JVal :=
  let m := fst row in
  JObj [("id", JNum (m_id m));
        ("roomId", JStr (m_room_id m));
        ("userId", JStr (m_user_id m));
        ("content", JStr (m_content m));
        ("type", JStr (m_type m));
        ("metadata", if js_falsy (m_metadata m) then JObj [] else m_metadata m);
        ("createdAt", JDate (m_created_at m));
        ("editedAt", editedAt_json (m_edited_at m));
        ("user", JObj [("id", JStr (m_user_id m));
                       ("username", JStr (u_username (snd row)))])].

(** The SELECT of [getMessageHistory] without a cursor:
    [WHERE m.room_id = $1 ORDER BY m.created_at DESC LIMIT $2]. *)
Definition select_history (room : string) (limit : nat) (d : Database)
    : list (MessageRow * UserRow) :=
  firstn limit
    (sort_by newest_first
       (join_users
          (List.filter (fun m => String.eqb (m_room_id m) room) (messages d))
          d)).

(** [getMessageHistory(roomId, userId, limit)]; the WebSocket service never
    passes a cursor.  On a cache hit the cached array itself is returned,
    otherwise a [{messages, hasMore, nextCursor}] object. *)
Definition getMessageHistory (room user : string) (limit : nat) : M JVal :=
  (* Validate user has access to room *)
  let* _ := validateUserInRoom user room in
  (* Check cache first *)
  let* cached := getCachedMessageHistory room None in
  if negb (js_falsy (default JNull cached)) then ret (default JNull cached)
  else
    let* rows :=
      sql_select (SelectHistory room None (Z.of_nat limit))
                 (select_history room (S limit)) in
    let hasMore := Nat.ltb limit (length rows) in
    let msgs := rev (map message_with_user_json (firstn limit rows)) in
    (* Cache the result *)
    let* _ := cacheMessageHistory room msgs None in
    ret (JObj [("messages", JArr msgs);
               ("hasMore", JBool hasMore);
               ("nextCursor",
                match nth_error rows limit with
                | Some r => if hasMore then JDate (m_created_at (fst r))
                            else JUndef
                | None => JUndef
                end)]).

(** The range of BIGINT, the type of [messages.id]: PostgreSQL refuses a
    statement whose id parameter lies outside it. *)
Definition bigint_ok (id : Z) : bool :=
  (- 2 ^ 63 <=? id) && (id <? 2 ^ 63).

(** [... FROM messages WHERE id = $1], for an id in the range of BIGINT. *)
Definition messages_with_id (id : Z) (d : Database) : list MessageRow :=
  List.filter (fun m => m_id m =? id) (messages d).

(** [UPDATE messages SET content = COALESCE($1, content),
    metadata = COALESCE($2, metadata), edited_at = NOW() WHERE id = $3
    RETURNING ...] *)
Definition update_message (id : Z) (content : option string)
    (metadata : option JVal) (d : Database) (t : Z)
    : Result (list MessageRow) * Database :=
  let upd m :=
    mkMessageRow (m_id m) (m_room_id m) (m_user_id m)
                 (default (m_content m) content) (m_type m)
                 (default (m_metadata m) metadata) (m_created_at m) (Some t) in
  if forallb (fun m => content_length_ok (m_type (upd m)) (m_content (upd m)))
             (messages_with_id id d)
  then (Ok (map upd (messages_with_id id d)),
        with_messages (map (fun m => if m_id m =? id then upd m else m)
                           (messages d)) d)
  else (Throw "new row for relation messages violates check constraint content_length", d).

Definition updateMessage (id : Z) (user : string) (content : option string)
    (metadata : option JFields) : M MessageRow :=
  (* Verify user owns the message *)
  let* ownership := sql_select (SelectMessageOwner id) (messages_with_id id) in
  match ownership with
  | [] => throw "Message not found"
  | message :: _ =>
      if negb (String.eqb (m_user_id message) user) then
        throw "Not authorized to edit this message"
      else
        (* Check if message is still editable (within 24 hours) *)
        let* t := gets now in
        if 24 * 60 * 60 * 1000 <? t - m_created_at message then
          throw "Message too old to edit"
        else
          let* rows :=
            sql (UpdateMessage id)
                (update_message id content
                   (option_map (fun o => JObj (json_fields o)) metadata)) in
          let* _ := clearMessageCache (m_room_id message) in
          match rows with
          | row :: _ => ret (mapRowToMessage row)
          | [] => throw "Cannot read properties of undefined (reading 'id')"
          end
  end.

(** The row a soft delete at time [t] leaves in place of [m]. *)
Definition deleted_at (t : Z) (m : MessageRow) : MessageRow :=
  mkMessageRow (m_id m) (m_room_id m) (m_user_id m)
               "[Message deleted]" "system" (m_metadata m)
               (m_created_at m) (Some t).

(** [UPDATE messages SET content = '[Message deleted]', type = 'system',
    edited_at = NOW() WHERE id = $1] *)
Definition soft_delete (id : Z) (d : Database) (t : Z)
    : Result unit * Database :=
  (Ok tt,
   with_messages
     (map (fun m => if m_id m =? id then deleted_at t m else m) (messages d))
     d).

Definition deleteMessage (id : Z) (user : string) (isAdmin : bool) : M unit :=
  (* Verify ownership or admin rights *)
  let* result := sql_select (SelectMessageOwner id) (messages_with_id id) in
  match result with
  | [] => throw "Message not found"
  | message :: _ =>
      if negb (String.eqb (m_user_id message) user) && negb isAdmin then
        throw "Not authorized to delete this message"
      else
        (* Soft delete - update content to indicate deletion *)
        let* _ := sql (SoftDeleteMessage id) (soft_delete id) in
        (* Clear cache *)
        clearMessageCache (m_room_id message)
  end.

Definition getMessageById (id : Z) : M (option (MessageRow * UserRow)) :=
  let* rows :=
    sql_select (SelectMessageById id) (fun d =>
      join_users (messages_with_id id d) d) in
  match rows with
  | [] => ret None
  | row :: _ => ret (Some (mapRowToMessage (fst row), snd row))
  end.

(** ** WebSocketService *)

Definition emit (t : Target) (event : string) (payload : JFields) : M unit :=
  tell (Emit t event payload).

(** [socket.emit], [socket.to(room).emit] and [io.to(room).emit]. *)
Definition socket_emit (socket : AuthenticatedSocket) :=
  emit (ToSocket (sock_id socket)).
Definition socket_to (socket : AuthenticatedSocket) (room : string) :=
  emit (ToRoomExcept room (sock_id socket)).
Definition io_to (room : string) := emit (ToRoom room).

(** The sockets an emission reaches, resolved against the adapter. *)
Definition recipients (w : World) (t : Target) : gset string :=
  match t with
  | ToSocket s => {[s]}
  | ToRoomExcept room s => default ∅ (sio_rooms w !! room) ∖ {[s]}
  | ToRoom room => default ∅ (sio_rooms w !! room)
  end.

Definition socket_join (socket : AuthenticatedSocket) (room : string) : M unit :=
  let* _ :=
    modify (fun w =>
      with_sio_rooms
        (<[room := {[sock_id socket]} ∪ default ∅ (sio_rooms w !! room)]>
           (sio_rooms w)) w) in
  tell (SocketJoin (sock_id socket) room).

Definition socket_leave (socket : AuthenticatedSocket) (room : string) : M unit :=
  let* _ :=
    modify (fun w =>
      with_sio_rooms
        (alter (fun s => s ∖ {[sock_id socket]}) room (sio_rooms w)) w) in
  tell (SocketLeave (sock_id socket) room).

Definition user_json (socket : AuthenticatedSocket) : JVal :=
  JObj [("id", JStr (userId socket)); ("username", JStr (username socket))].

(** *** Rate limiting *)

(** [actionLimits[action] || 100], for an action that is not a name of
    [Object.prototype]. *)
Definition actionLimits (action : string) : Z :=
  if String.eqb action "send_message" then 30
  else if String.eqb action "join_room" then 10
  else if String.eqb action "update_presence" then 60
  else if String.eqb action "start_typing" then 20
  else 100.

(** The closure returned by [createRateLimiter(socketId)], applied to an
    action at time [t] with the closure's [limits] object passed
    explicitly.  The key contains a colon, so it is never a name of
    [Object.prototype].  For an action that is such a name,
    [actionLimits[action]] is the inherited function and not a number:
    [count >= limit] is then false (the function converts to NaN) and the
    call is allowed whatever the count. *)
Definition createRateLimiter (socketId : string) (action : string) (t : Z)
    (limits : gmap string LimitEntry) : bool * gmap string LimitEntry :=
  let key := socketId +:+ ":" +:+ action in
  match limits !! key with
  | None => (true, <[key := mkLimitEntry 1 (t + 60000)]> limits)
  | Some e =>
      if resetTime e <? t then
        (true, <[key := mkLimitEntry 1 (t + 60000)]> limits)
      else if negb (inherited action) && (actionLimits action <=? count e)
      then (false, limits)
      else (true, <[key := mkLimitEntry (count e + 1) (resetTime e)]> limits)
  end.

Definition limits_of (w : World) (socketId : string) : gmap string LimitEntry :=
  default ∅ (limiters w !! socketId).

Definition checkRateLimit (socket : AuthenticatedSocket) (action : string)
    : M bool := fun w =>
  let id := sock_id socket in
  match createRateLimiter id action (now w) (limits_of w id) with
  | (true, limits') =>
      (Ok true, with_limiters (<[id := limits']> (limiters w)) w,
       [RateLimit id action true])
  | (false, limits') =>
      (Ok false, with_limiters (<[id := limits']> (limiters w)) w,
       [RateLimit id action false;
        Emit (ToSocket id) "rate_limit_exceeded"
             [("error", JStr "rate_limit_exceeded");
              ("retryAfter", JNum 60);
              ("endpoint", JStr action);
              ("timestamp", JDate (now w))]])
  end.

(** *** Timers and the typing map *)

Definition setTimeout (socket : AuthenticatedSocket) (room : string)
    (delay : Z) : M nat := fun w =>
  let id := next_timer w in
  (Ok id,
   with_timers (timers w ++ [mkTimer id (now w + delay) socket room]) (S id) w,
   [SetTimeout id (now w + delay)]).

Definition clearTimeout (id : nat) : M unit :=
  let* _ :=
    modify (fun w =>
      with_timers (List.filter (fun t => negb (Nat.eqb (tm_id t) id)) (timers w))
                  (next_timer w) w) in
  tell (ClearTimeout id).

(** [this.typingUsers[roomId]?.[userId]].  [typingUsers] and its room
    objects are plain JavaScript objects, read here as finite maps.  The
    two agree on the names that are not inherited from [Object.prototype]:
    under an inherited name a read finds the inherited value instead of
    [undefined], a write to the room [__proto__] lands on
    [Object.prototype] itself, where every room then sees it, and
    [for ... in] skips the inherited names.  [plain_typing] below is the
    condition under which the maps stand for the objects; statements about
    the contents of the typing map assume it, and a user id that is not an
    inherited name (user ids are the UUIDs of the users table). *)
Definition typing_entry (w : World) (room user : string) : option TypingEntry :=
  typingUsers w !! room ≫= (fun users => users !! user).

(** No room id and no user id of the typing map is a name of
    [Object.prototype]. *)
Definition plain_typing (w : World) : bool :=
  forallb
    (fun entry : string * gmap string TypingEntry =>
       negb (inherited (fst entry))
       && forallb (fun u : string * TypingEntry => negb (inherited (fst u)))
                  (map_to_list (snd entry)))
    (map_to_list (typingUsers w)).

Definition typing_put (room user : string) (e : TypingEntry) : M unit :=
  let* _ :=
    modify (fun w =>
      with_typingUsers
        (<[room := <[user := e]> (default ∅ (typingUsers w !! room))]>
           (typingUsers w)) w) in
  tell (TypingPut room user).

Definition typing_delete (room user : string) : M unit :=
  let* _ :=
    modify (fun w =>
      with_typingUsers (alter (delete user) room (typingUsers w)) w) in
  tell (TypingDelete room user).

Definition handleStopTyping (socket : AuthenticatedSocket)
    (roomId : option string) : M unit :=
  try_catch
    (let room := default "" roomId in
     let* t := gets now in
     let* entry := gets (fun w => typing_entry w room (userId socket)) in
     match entry with
     | Some e =>
         if negb (truthy roomId) then ret tt
         else
           (* Clear timeout *)
           let* _ := clearTimeout (te_timeout e) in
           (* Remove from typing users *)
           let* _ := typing_delete room (userId socket) in
           (* Broadcast stop typing *)
           socket_to socket room "user_stopped_typing"
             [("userId", JStr (userId socket));
              ("roomId", JStr room);
              ("timestamp", JDate t)]
     | None => ret tt
     end)
    (fun _ => ret tt).

Definition handleStartTyping (socket : AuthenticatedSocket)
    (roomId : option string) : M unit :=
  try_catch
    (let* allowed := checkRateLimit socket "start_typing" in
     if negb allowed then ret tt
     else if negb (truthy roomId) then ret tt
     else
       let room := default "" roomId in
       let* t := gets now in
       (* Initialize room typing users if needed *)
       let* _ :=
         modify (fun w =>
           match typingUsers w !! room with
           | Some _ => w
           | None => with_typingUsers (<[room := ∅]> (typingUsers w)) w
           end) in
       (* Clear existing timeout *)
       let* existing := gets (fun w => typing_entry w room (userId socket)) in
       let* _ :=
         match existing with
         | Some e => clearTimeout (te_timeout e)
         | None => ret tt
         end in
       (* Set new typing status with auto-clear timeout *)
       let* timeout := setTimeout socket room 3000 in
       let* _ :=
         typing_put room (userId socket)
                    (mkTypingEntry (username socket) timeout) in
       (* Broadcast typing indicator *)
       socket_to socket room "user_typing"
         [("userId", JStr (userId socket));
          ("username", JStr (username socket));
          ("roomId", JStr room);
          ("timestamp", JDate t)])
    (fun _ => ret tt).

(** The body of the loop of [cleanupTypingForUser]. *)
Definition cleanup_room (user room : string) : M unit :=
  let* entry := gets (fun w => typing_entry w room user) in
  match entry with
  | Some e =>
      let* _ := clearTimeout (te_timeout e) in
      typing_delete room user
  | None => ret tt
  end.

(** [for (const roomId in this.typingUsers)]: the rooms are visited in the
    key order of the map; JavaScript visits them in insertion order, on
    which no effect of the loop depends.  The loop visits the enumerable
    properties only: a room id that is a name of [Object.prototype] is
    never visited, whatever was filed under it. *)
Definition cleanupTypingForUser (user : string) : M unit :=
  let* rooms :=
    gets (fun w =>
      List.filter (fun room => negb (inherited room))
                  (map fst (map_to_list (typingUsers w)))) in
  for_each rooms (cleanup_room user).

(** A due timer fires: it leaves the timer table and runs its callback. *)
Definition fire_timer (tm : Timer) : M unit :=
  let* _ :=
    modify (fun w =>
      with_timers
        (List.filter (fun t => negb (Nat.eqb (tm_id t) (tm_id tm))) (timers w))
        (next_timer w) w) in
  handleStopTyping (tm_socket tm) (Some (tm_room tm)).

(** The clock advances to [t]; every timer that is due by then and still
    pending when its turn comes fires, earliest first. *)
Definition advance_to (t : Z) : M unit :=
  let* _ := modify (with_now t) in
  let* due :=
    gets (fun w =>
      sort_by (fun a b => tm_due a <=? tm_due b)
              (List.filter (fun tm => tm_due tm <=? t) (timers w))) in
  for_each due (fun tm =>
    let* pending :=
      gets (fun w => existsb (fun x => Nat.eqb (tm_id x) (tm_id tm)) (timers w)) in
    if pending then fire_timer tm else ret tt).

(** *** Event payloads received from clients
    The fields a handler destructures from its payload object.  A field is
    either absent ([None], [JUndef]: the property is undefined, so that a
    destructuring default applies) or holds a value of the kind the client
    protocol declares; a field holding [null] or a value of another kind
    is not represented.  A message id stands for a number other than 0, or
    a decimal string, in the range of BIGINT. *)

Record SendMessageData := mkSendMessageData {
  sm_roomId : option string;
  sm_content : option string;
  sm_type : option string;
  sm_replyTo : JVal;
  sm_metadata : option JFields
}.

Record EditMessageData := mkEditMessageData {
  em_messageId : option Z;
  em_content : option string
}.

Record PresenceData := mkPresenceData {
  pd_status : JVal;
  pd_currentRoom : JVal
}.

(** *** Connection teardown *)

Definition handleDisconnection (socket : AuthenticatedSocket) : M unit :=
  try_catch
    (let* t := gets now in
     (* Update presence to offline *)
     let* _ := removeUserPresence (userId socket) in
     (* Remove from all rooms in Redis *)
     let* userRooms := getUserRooms (userId socket) in
     let* _ :=
       for_each userRooms (fun room =>
         let* _ := removeUserFromRoom (userId socket) (r_id (rw_room room)) in
         (* Notify room members that user left *)
         socket_to socket (r_id (rw_room room)) "user_left"
           [("user", user_json socket);
            ("roomId", JStr (r_id (rw_room room)));
            ("timestamp", JDate t)]) in
     (* Clean up typing indicators *)
     let* _ := cleanupTypingForUser (userId socket) in
     (* Remove session *)
     removeSession (sock_id socket))
    (fun _ => ret tt).

(** *** Rooms *)

Definition room_with_membership_json (r : RoomWithMembership) : JFields :=
  [("roomId", JStr (r_id (rw_room r)));
   ("roomName", JStr (r_name (rw_room r)));
   ("memberCount", JNum (rw_memberCount r))].

Definition participant_json (p : RoomParticipant) : JVal :=
  JObj [("userId", JStr (rp_userId p));
        ("username", JStr (rp_username p));
        ("role", JStr (rp_role p));
        ("joinedAt", JDate (rp_joinedAt p));
        ("isOnline", JBool (rp_isOnline p))].

Definition handleJoinRoom (socket : AuthenticatedSocket)
    (roomId : option string) : M unit :=
  try_catch
    (let* allowed := checkRateLimit socket "join_room" in
     if negb allowed then ret tt
     else
       let* t := gets now in
       if negb (truthy roomId) then
         socket_emit socket "join_room_error"
           [("error", JStr "missing_room_id");
            ("message", JStr "Room ID is required")]
       else
         let room := default "" roomId in
         (* Join room *)
         let* membership := joinRoom (userId socket) room "member" in
         let* _ := socket_join socket room in
         (* Get room details with recent messages *)
         let* details := getRoomById room (userId socket) in
         let* messageHistory := getMessageHistory room (userId socket) 50 in
         let* participants := getRoomParticipants room in
         match details with
         | None => throw "Cannot read properties of null (reading 'id')"
         | Some r =>
             (* Send success response *)
             let* _ :=
               socket_emit socket "room_joined"
                 (room_with_membership_json r ++
                  [("recentMessages", jget "messages" messageHistory);
                   ("members", JArr (map participant_json participants));
                   ("timestamp", JDate t)]) in
             (* Notify other room members *)
             socket_to socket room "user_joined"
               [("user", user_json socket);
                ("roomId", JStr room);
                ("timestamp", JDate t)]
         end)
    (fun message =>
       socket_emit socket "join_room_error"
         [("error", JStr "join_failed");
          ("message", JStr message);
          ("roomId", jopt roomId)]).

Definition handleLeaveRoom (socket : AuthenticatedSocket)
    (roomId : option string) : M unit :=
  try_catch
    (let* t := gets now in
     if negb (truthy roomId) then
       socket_emit socket "leave_room_error"
         [("error", JStr "missing_room_id");
          ("message", JStr "Room ID is required")]
     else
       let room := default "" roomId in
       (* Leave room *)
       let* _ := leaveRoom (userId socket) room in
       let* _ := socket_leave socket room in
       (* Send success response *)
       let* _ :=
         socket_emit socket "room_left"
           [("roomId", JStr room); ("timestamp", JDate t)] in
       (* Notify other room members *)
       socket_to socket room "user_left"
         [("user", user_json socket);
          ("roomId", JStr room);
          ("timestamp", JDate t)])
    (fun message =>
       socket_emit socket "leave_room_error"
         [("error", JStr "leave_failed");
          ("message", JStr message);
          ("roomId", jopt roomId)]).

(** *** Messages *)

Definition handleSendMessage (socket : AuthenticatedSocket)
    (data : SendMessageData) : M unit :=
  try_catch
    (let* allowed := checkRateLimit socket "send_message" in
     if negb allowed then ret tt
     else
       let roomId := default "" (sm_roomId data) in
       let content := default "" (sm_content data) in
       let metadata := default [] (sm_metadata data) in
       if negb (truthy (sm_roomId data)) || negb (truthy (sm_content data)) then
         socket_emit socket "send_message_error"
           [("error", JStr "missing_required_fields");
            ("message", JStr "Room ID and content are required")]
       else
         (* Create message *)
         let* message :=
           createMessage roomId (userId socket) (trim content)
             (Some (default "text" (sm_type data)))
             (Some (jset "replyTo" (sm_replyTo data) metadata)) in
         (* Update user activity *)
         let* _ := updateUserActivity (userId socket) in
         (* Send success response to sender *)
         let* _ :=
           socket_emit socket "message_sent"
             [("messageId", JNum (m_id message));
              ("roomId", JStr (m_room_id message));
              ("timestamp", JDate (m_created_at message));
              ("status", JStr "sent")] in
         (* Broadcast to room members (excluding sender) *)
         socket_to socket roomId "message_received"
           [("id", JNum (m_id message));
            ("roomId", JStr (m_room_id message));
            ("content", JStr (m_content message));
            ("type", JStr (m_type message));
            ("author", user_json socket);
            ("replyTo", jfield "replyTo" metadata);
            ("metadata", m_metadata message);
            ("createdAt", JDate (m_created_at message))])
    (fun message =>
       socket_emit socket "send_message_error"
         [("error", JStr "send_failed");
          ("message", JStr message);
          ("roomId", jopt (sm_roomId data))]).

Definition handleEditMessage (socket : AuthenticatedSocket)
    (data : EditMessageData) : M unit :=
  try_catch
    (match em_messageId data with
     | Some messageId =>
         if negb (truthy (em_content data)) then
           socket_emit socket "edit_message_error"
             [("error", JStr "missing_required_fields");
              ("message", JStr "Message ID and content are required")]
         else
           (* Edit message *)
           let* message :=
             updateMessage messageId (userId socket)
               (Some (trim (default "" (em_content data)))) None in
           match m_edited_at message with
           | None =>
               throw "Cannot read properties of null (reading 'toISOString')"
           | Some editedAt =>
               (* Send success response *)
               let* _ :=
                 socket_emit socket "message_edited"
                   [("messageId", JNum (m_id message));
                    ("content", JStr (m_content message));
                    ("editedAt", JDate editedAt)] in
               (* Broadcast update to room members *)
               io_to (m_room_id message) "message_updated"
                 [("id", JNum (m_id message));
                  ("content", JStr (m_content message));
                  ("editedAt", JDate editedAt);
                  ("roomId", JStr (m_room_id message))]
           end
     | None =>
         socket_emit socket "edit_message_error"
           [("error", JStr "missing_required_fields");
            ("message", JStr "Message ID and content are required")]
     end)
    (fun message =>
       socket_emit socket "edit_message_error"
         [("error", JStr "edit_failed");
          ("message", JStr message);
          ("messageId",
           match em_messageId data with Some i => JNum i | None => JUndef end)]).

Definition handleDeleteMessage (socket : AuthenticatedSocket)
    (messageId : option Z) : M unit :=
  try_catch
    (let* t := gets now in
     match messageId with
     | None =>
         socket_emit socket "delete_message_error"
           [("error", JStr "missing_message_id");
            ("message", JStr "Message ID is required")]
     | Some id =>
         (* Get message details before deletion *)
         let* found := getMessageById id in
         match found with
         | None =>
             socket_emit socket "delete_message_error"
               [("error", JStr "message_not_found");
                ("message", JStr "Message not found")]
         | Some (message, _) =>
             (* Delete message *)
             let* _ := deleteMessage id (userId socket) false in
             (* Send success response *)
             let* _ :=
               socket_emit socket "message_deleted"
                 [("messageId", JNum id); ("timestamp", JDate t)] in
             (* Broadcast removal to room members *)
             io_to (m_room_id message) "message_removed"
               [("messageId", JNum id);
                ("roomId", JStr (m_room_id message));
                ("timestamp", JDate t)]
         end
     end)
    (fun message =>
       socket_emit socket "delete_message_error"
         [("error", JStr "delete_failed");
          ("message", JStr message);
          ("messageId",
           match messageId with Some i => JNum i | None => JUndef end)]).

(** *** Presence *)

(** [['online', 'away', 'offline'].includes(status)] *)
Definition valid_status (status : JVal) : bool :=
  match status with
  | JStr s =>
      String.eqb s "online" || String.eqb s "away" || String.eqb s "offline"
  | _ => false
  end.

Definition handleUpdatePresence (socket : AuthenticatedSocket)
    (data : PresenceData) : M unit :=
  try_catch
    (let* allowed := checkRateLimit socket "update_presence" in
     if negb allowed then ret tt
     else
       let* t := gets now in
       if negb (valid_status (pd_status data)) then
         socket_emit socket "update_presence_error"
           [("error", JStr "invalid_status");
            ("message", JStr "Status must be online, away, or offline")]
       else
         (* Update presence *)
         let* _ :=
           setUserPresence
             (mkUserPresence (userId socket) (pd_status data)
                             (pd_currentRoom data) t
                             (JStr (sock_id socket))) in
         (* Send confirmation *)
         let* _ :=
           socket_emit socket "presence_updated"
             [("status", pd_status data); ("timestamp", JDate t)] in
         (* Broadcast to user's rooms *)
         let* userRooms := getUserRooms (userId socket) in
         for_each userRooms (fun room =>
           socket_to socket (r_id (rw_room room)) "presence_changed"
             [("userId", JStr (userId socket));
              ("status", pd_status data);
              ("currentRoom", pd_currentRoom data);
              ("timestamp", JDate t)]))
    (fun _ =>
       socket_emit socket "update_presence_error"
         [("error", JStr "update_failed");
          ("message", JStr "Failed to update presence")]).

Definition handlePing (socket : AuthenticatedSocket) : M unit :=
  let* t := gets now in
  socket_emit socket "pong"
    [("timestamp", JDate t); ("serverTime", JDate t)].

(** *** Events and their payloads
    [socket.on(event, (data) => this.handleX(socket, data))].  The
    handlers above are given the fields of a payload object.  A client
    may also emit an event with no argument at all: [data] is then
    undefined ([None] below; [null] behaves alike), the destructuring
    [const { ... } = data] at the head of the handler throws a TypeError,
    and so does the read [data.roomId] or [data.messageId] in the catch
    block of five of the handlers, which then rejects: nothing catches
    that second error. *)











(** ** Reading effect logs *)

(** Effects that change state outside the rate limiter itself: a
    successful write to Postgres or Redis, a change of the adapter, of the
    timers or of the typing map. *)
Definition is_mutation (e : Effect) : bool :=
  match e with
  | Sql (InsertMembership _ _ _) ok | Sql (TouchRoom _) ok
  | Sql (UpdateMembershipRole _ _ _) ok | Sql (UpdateRoomOwner _ _) ok
  | Sql (DeleteMembership _ _) ok | Sql (InsertMessage _ _ _ _) ok
  | Sql (UpdateMessage _) ok | Sql (SoftDeleteMessage _) ok => ok
  | Redis (SetEx _ _) ok | Redis (Del _) ok
  | Redis (SAdd _ _) ok | Redis (SRem _ _) ok => ok
  | SocketJoin _ _ | SocketLeave _ _ => true
  | SetTimeout _ _ | ClearTimeout _ => true
  | TypingPut _ _ | TypingDelete _ _ => true
  | _ => false
  end.

Definition is_emit (e : Effect) : bool :=
  match e with Emit _ _ _ => true | _ => false end.

Definition is_rate_check (e : Effect) : bool :=
  match e with RateLimit _ _ _ => true | _ => false end.

Definition is_emit_of (event : string) (e : Effect) : bool :=
  match e with
  | Emit _ ev _ => String.eqb ev event
  | _ => false
  end.

Definition emissions (event : string) (l : list Effect) : list Effect :=
  List.filter (is_emit_of event) l.

Definition run {A} (m : M A) (w : World) : World := world_of (m w).

(** The limiter is consulted before any state mutation: every mutation in
    the log has a rate-limit check somewhere before it. *)
Definition limiter_first (l : list Effect) : Prop :=
  forall i e,
    l !! i = Some e -> is_mutation e = true ->
    exists j e', (j < i)%nat /\ l !! j = Some e' /\ is_rate_check e' = true.

(** The log of a handler that is guarded, in the world [w], by the limiter
    of its own connection for [action]: it opens with the answer of that
    limiter to that action, and no mutation follows a refusal. *)
Definition guarded_by (socket : AuthenticatedSocket) (action : string)
    (w : World) (l : list Effect) : Prop :=
  let allowed :=
    fst (createRateLimiter (sock_id socket) action (now w)
           (limits_of w (sock_id socket))) in
  exists rest,
    l = RateLimit (sock_id socket) action allowed :: rest
    /\ (allowed = false -> Forall (fun e => is_mutation e = false) rest).





(** The persistence request [handleSendMessage] makes for a payload. *)
Definition persist (socket : AuthenticatedSocket) (data : SendMessageData)
    : M MessageRow :=
  createMessage (default "" (sm_roomId data)) (userId socket)
    (trim (default "" (sm_content data)))
    (Some (default "text" (sm_type data)))
    (Some (jset "replyTo" (sm_replyTo data) (default [] (sm_metadata data)))).

(** ** A small deployment

    Three users, the default public room, one private room; alice belongs
    to both rooms, carol to the public one, bob to none. *)
Module Sample.
Definition alice : AuthenticatedSocket :=
  mkSocket "sock-a" "alice" "Alice" "alice@example.com".
Definition bob : AuthenticatedSocket :=
  mkSocket "sock-b" "bob" "Bob" "bob@example.com".
Definition carol : AuthenticatedSocket :=
  mkSocket "sock-c" "carol" "Carol" "carol@example.com".

Definition membership1 : MembershipRow :=
  mkMembershipRow 1 "alice" "general" "member" 100 100 true.
Definition membership2 : MembershipRow :=
  mkMembershipRow 2 "alice" "private-1" "owner" 200 200 true.
Definition membership3 : MembershipRow :=
  mkMembershipRow 3 "carol" "general" "member" 300 300 true.

Definition message1 : MessageRow :=
  mkMessageRow 1 "general" "alice" "hello" "text" (JObj []) 500 None.

Definition database : Database :=
  mkDatabase
    [mkUserRow "alice" "Alice"; mkUserRow "bob" "Bob";
     mkUserRow "carol" "Carol"]
    [mkRoomRow "general" "General Chat" None "public" None (JObj []) 0 500;
     mkRoomRow "private-1" "Private" None "private" (Some "alice")
               (JObj []) 200 200]
    [message1]
    [membership1; membership2; membership3]
    1 3.

(** The sockets of alice and carol are subscribed to the public room;
    nothing is cached, nobody is typing, no rate-limit window is open,
    no call will fail. *)
Definition world : World :=
  mkWorld database ∅ ∅ [] 0%nat ∅
          {["general" := {["sock-a"; "sock-c"]}]} 1000 [].

(** The same deployment while alice is typing in the public room. *)
Definition typing_world : World :=
  run (handleStartTyping alice (Some "general")) world.

(** The same deployment while alice is shown as online. *)
Definition online_world : World :=
  run (setUserPresence
         (mkUserPresence "alice" (JStr "online") JUndef 1000 (JStr "sock-a")))
      world.

Definition hello : SendMessageData :=
  mkSendMessageData (Some "general") (Some "hi") None JUndef None.

End Sample.

(** [calls_ok n fs]: the next [n] collaborator calls are not rejected by
    the fault schedule [fs]. *)
Fixpoint calls_ok (n : nat) (fs : list (option string)) : bool :=
  match n, fs with
  | O, _ => true
  | S _, [] => true
  | S _, Some _ :: _ => false
  | S n', None :: fs' => calls_ok n' fs'
  end.

(** A collaborator call that rejected. *)
Definition failing (e : Effect) : bool :=
  match e with
  | Sql _ ok | Redis _ ok => negb ok
  | _ => false
  end.

(** ** Properties of computations, proved compositionally *)

(** Every logged effect satisfies [P]. *)
Definition LogAll {A} (P : Effect -> Prop) (m : M A) : Prop :=
  forall w, Forall P (log_of (m w)).

(** The computation preserves the world invariant [I]. *)
Definition Inv {A} (I : World -> Prop) (m : M A) : Prop :=
  forall w, I w -> I (world_of (m w)).

(** Whenever the computation throws, a rejected collaborator call is in
    its log. *)
Definition Loud {A} (m : M A) : Prop :=
  forall w msg, result_of (m w) = Throw msg ->
    Exists (fun e => failing e = true) (log_of (m w)).


(** ** Further functions of the services *)

(** [RedisService.getSession] *)
Record SessionInfo := mkSessionInfo {
si_userId : JVal;
si_joinedAt : Z
}.

Definition getSession (connectionId : string) : M (option SessionInfo) :=
  let* value := redis_get (session_key connectionId) in
  match value with
  | None => ret None
  | Some data =>
      ret (Some (mkSessionInfo
                   (jget "userId" data)
                   (match jget "joinedAt" data with
                    | JDate t => t
                    | _ => 0
                    end)))
  end.

(** The members Redis holds for a room (what SMEMBERS would answer). *)
Definition participants_of (w : World) (room : string) : gset string :=
  match rlookup w (participants_key room) with
  | Some (RSet s) => s
  | _ => ∅
  end.

(** The key of a room's participant set does not hold a JSON document. *)
Definition set_or_absent (w : World) (key : string) : Prop :=
  forall v, rlookup w key <> Some (RString v).

(** [String.prototype.split] on a one-character separator. *)
Fixpoint split_on (sep : ascii) (s : string) : list string :=
  match s with
  | EmptyString => [EmptyString]
  | String c s' =>
      if Ascii.eqb c sep then EmptyString :: split_on sep s'
      else
        match split_on sep s' with
        | p :: ps => String c p :: ps
        | [] => [String c EmptyString]
        end
  end.

(** [AuthService.extractTokenFromAuth] *)
Definition extractTokenFromAuth (authHeader : option string) : option string :=
  if negb (truthy authHeader) then None
  else
    match split_on " " (default "" authHeader) with
    | [scheme; token] => if String.eqb scheme "Bearer" then Some token else None
    | _ => None
    end.

(** A string without blanks of the separator kind. *)
Fixpoint free_of (sep : ascii) (s : string) : bool :=
  match s with
  | EmptyString => true
  | String c s' => negb (Ascii.eqb c sep) && free_of sep s'
  end.

(** The calls a limiter answers at the times [ts], one after the other. *)
Fixpoint limiter_calls (socketId action : string) (ts : list Z)
    (limits : gmap string LimitEntry) : list bool :=
  match ts with
  | [] => []
  | t :: ts' =>
      let r := createRateLimiter socketId action t limits in
      fst r :: limiter_calls socketId action ts' (snd r)
  end.

(** Every window of a limiter counts at least one call, and at most the
    limit of its action when the action has one (its name is not inherited
    from [Object.prototype]). *)
Definition limits_bounded (socketId : string)
    (limits : gmap string LimitEntry) : Prop :=
  forall action e,
    limits !! (socketId +:+ ":" +:+ action) = Some e ->
    1 <= count e /\ (inherited action = false -> count e <= actionLimits action).

(** The (user_id, room_id) pair of a membership row, and UNIQUE(user_id,
    room_id) on room_memberships. *)
Definition membership_key (m : MembershipRow) : string * string :=
  (rm_user_id m, rm_room_id m).

Definition unique_memberships (d : Database) : Prop :=
  NoDup (map membership_key (room_memberships d)).

(** [WHERE user_id = $1 AND room_id = $2], as a test on one row. *)
Definition is_membership_of (user room : string) (m : MembershipRow) : bool :=
  String.eqb (rm_user_id m) user && String.eqb (rm_room_id m) room.

(** The CHECK constraints of the messages table, on one row and on the
    table. *)
Definition row_ok (m : MessageRow) : bool :=
  valid_message_type (m_type m) && content_length_ok (m_type m) (m_content m).

Definition rows_ok (d : Database) : Prop :=
  Forall (fun m => row_ok m = true) (messages d).

Definition messages_ok (w : World) : Prop := rows_ok (db w).

(** The four tables of a database, without its sequences. *)
Definition tables (d : Database) :=
  (users d, chat_rooms d, messages d, room_memberships d).

(** ** Predicates used in the statements below *)

(** Every "user_left" emission of a log comes after a successful removal
    of the user's presence record. *)
Definition presence_removed_first (user : string) (l : list Effect) : Prop :=
  forall i t payload,
    l !! i = Some (Emit t "user_left" payload) ->
    exists j, (j < i)%nat /\
              l !! j = Some (Redis (Del [presence_key user]) true).

(** A Redis command that gives a key a value. *)
Definition is_redis_store (e : Effect) : bool :=
  match e with
  | Redis (SetEx _ _) _ | Redis (SAdd _ _) _ => true
  | _ => false
  end.

(** The key has no live value in Redis. *)
Definition absent (key : string) (w : World) : Prop := rlookup w key = None.

(** The typing map and the timers are [T] and [ts]. *)
Definition same_typing (T : gmap string (gmap string TypingEntry))
    (ts : list Timer) (w : World) : Prop :=
  typingUsers w = T /\ timers w = ts.


(** The database is [D] and the clock shows [t]. *)
Definition same_db (D : Database) (t : Z) (w : World) : Prop :=
  db w = D /\ now w = t.

Section Combinators.
Context {A B : Type}.
Implicit Types (m : M A) (k : A -> M B).

Lemma bind_ok m k w a w1 l1 :
  m w = (Ok a, w1, l1) ->
  bind m k w =
    (result_of (k a w1), world_of (k a w1), l1 ++ log_of (k a w1)).
Proof.
  intros E. unfold bind. rewrite E.
  destruct (k a w1) as [[r w2] l2]. reflexivity.
Qed.

Lemma bind_throw m k w e w1 l1 :
  m w = (Throw e, w1, l1) -> bind m k w = (Throw e, w1, l1).
Proof. intros E. unfold bind. now rewrite E. Qed.

Lemma LogAll_bind P m k :
  LogAll P m -> (forall a, LogAll P (k a)) -> LogAll P (bind m k).
Proof.
  intros Hm Hk w. specialize (Hm w).
  destruct (m w) as [[[a|e] w1] l1] eqn:E.
  - rewrite (bind_ok _ _ _ _ _ _ E). simpl in *.
    apply Forall_app. split; [assumption | apply Hk].
  - now rewrite (bind_throw _ _ _ _ _ _ E).
Qed.

Lemma Inv_bind I m k :
  Inv I m -> (forall a, Inv I (k a)) -> Inv I (bind m k).
Proof.
  intros Hm Hk w Hw. specialize (Hm w Hw).
  destruct (m w) as [[[a|e] w1] l1] eqn:E.
  - rewrite (bind_ok _ _ _ _ _ _ E). simpl in *. now apply Hk.
  - now rewrite (bind_throw _ _ _ _ _ _ E).
Qed.

Lemma Loud_bind m k :
  Loud m -> (forall a, Loud (k a)) -> Loud (bind m k).
Proof.
  intros Hm Hk w msg. specialize (Hm w).
  destruct (m w) as [[[a|e] w1] l1] eqn:E.
  - rewrite (bind_ok _ _ _ _ _ _ E). simpl. intros H.
    apply Exists_app. right. now apply (Hk a w1 msg).
  - rewrite (bind_throw _ _ _ _ _ _ E). intros H.
    apply (Hm msg). unfold result_of in *. simpl in *. congruence.
Qed.
End Combinators.

Section Leaves.
Context {A : Type}.

Lemma LogAll_ret P (a : A) : LogAll P (ret a).
Proof. intros w. constructor. Qed.

Lemma LogAll_throw P msg : LogAll P (@throw A msg).
Proof. intros w. constructor. Qed.

Lemma LogAll_gets P (f : World -> A) : LogAll P (gets f).
Proof. intros w. constructor. Qed.

Lemma LogAll_collaborator P mk (run : World -> Result A * World) :
  (forall ok, P (mk ok)) -> LogAll P (collaborator mk run).
Proof.
  intros H w. unfold collaborator.
  destruct (faults w) as [|[msg|] fs]; simpl;
    try (destruct (run _) as [[a|e] w1]); simpl; repeat constructor; apply H.
Qed.

Lemma LogAll_try P (m : M A) h :
  LogAll P m -> (forall e, LogAll P (h e)) -> LogAll P (try_catch m h).
Proof.
  intros Hm Hh w. specialize (Hm w). unfold try_catch.
  destruct (m w) as [[[a|e] w1] l1]; simpl in *; [assumption|].
  specialize (Hh e w1). destruct (h e w1) as [[r w2] l2]. simpl in *.
  apply Forall_app. now split.
Qed.

Lemma Inv_ret I (a : A) : Inv I (ret a).
Proof. now intros w Hw. Qed.

Lemma Inv_throw I msg : Inv I (@throw A msg).
Proof. now intros w Hw. Qed.

Lemma Inv_gets I (f : World -> A) : Inv I (gets f).
Proof. now intros w Hw. Qed.

Lemma Inv_collaborator (I : World -> Prop) mk
    (run : World -> Result A * World) :
  (forall w, I w -> I (with_faults (tail (faults w)) w)) ->
  (forall w, I w -> I (snd (run w))) ->
  Inv I (collaborator mk run).
Proof.
  intros Hf Hr w Hw. unfold collaborator.
  pose proof (Hf w Hw) as Hw'.
  destruct (faults w) as [|[msg|] fs]; simpl in *; try assumption;
    specialize (Hr _ Hw'); destruct (run _) as [[a|e] w1]; assumption.
Qed.

Lemma Inv_try I (m : M A) h :
  Inv I m -> (forall e, Inv I (h e)) -> Inv I (try_catch m h).
Proof.
  intros Hm Hh w Hw. specialize (Hm w Hw). unfold try_catch.
  destruct (m w) as [[[a|e] w1] l1]; simpl in *; [assumption|].
  specialize (Hh e w1 Hm). now destruct (h e w1) as [[r w2] l2].
Qed.

Lemma Loud_ret (a : A) : Loud (ret a).
Proof. intros w msg H. discriminate. Qed.

Lemma Loud_gets (f : World -> A) : Loud (gets f).
Proof. intros w msg H. discriminate. Qed.

Lemma Loud_collaborator mk (run : World -> Result A * World) :
  failing (mk false) = true -> Loud (collaborator mk run).
Proof.
  intros H w msg. unfold collaborator.
  destruct (faults w) as [|[m|] fs]; simpl;
    try (destruct (run _) as [[a|e] w1]); simpl; intros E;
    try discriminate; now constructor.
Qed.
End Leaves.

Lemma LogAll_tell (P : Effect -> Prop) e : P e -> LogAll P (tell e).
Proof. intros H w. now repeat constructor. Qed.

Lemma LogAll_modify P f : LogAll P (modify f).
Proof. intros w. constructor. Qed.

Lemma LogAll_for_each {A} P (l : list A) body :
  (forall x, LogAll P (body x)) -> LogAll P (for_each l body).
Proof.
  intros H. induction l as [|x l IH]; simpl.
  - apply LogAll_ret.
  - apply LogAll_bind; [apply H | intros _; exact IH].
Qed.

Lemma LogAll_map_m {A B} P (f : A -> M B) (l : list A) :
  (forall x, LogAll P (f x)) -> LogAll P (map_m f l).
Proof.
  intros H. induction l as [|x l IH]; simpl.
  - apply LogAll_ret.
  - apply LogAll_bind; [apply H | intros y].
    apply LogAll_bind; [exact IH | intros ys; apply LogAll_ret].
Qed.

Lemma Inv_tell I e : Inv I (tell e).
Proof. now intros w Hw. Qed.

Lemma Inv_modify (I : World -> Prop) f :
  (forall w, I w -> I (f w)) -> Inv I (modify f).
Proof. intros H w Hw. now apply H. Qed.

Lemma Inv_for_each {A} I (l : list A) body :
  (forall x, Inv I (body x)) -> Inv I (for_each l body).
Proof.
  intros H. induction l as [|x l IH]; simpl.
  - apply Inv_ret.
  - apply Inv_bind; [apply H | intros _; exact IH].
Qed.

Lemma Inv_map_m {A B} I (f : A -> M B) (l : list A) :
  (forall x, Inv I (f x)) -> Inv I (map_m f l).
Proof.
  intros H. induction l as [|x l IH]; simpl.
  - apply Inv_ret.
  - apply Inv_bind; [apply H | intros y].
    apply Inv_bind; [exact IH | intros ys; apply Inv_ret].
Qed.

Lemma Loud_tell e : Loud (tell e).
Proof. intros w msg H. discriminate. Qed.

Lemma Loud_modify f : Loud (modify f).
Proof. intros w msg H. discriminate. Qed.

Lemma Loud_for_each {A} (l : list A) body :
  (forall x, Loud (body x)) -> Loud (for_each l body).
Proof.
  intros H. induction l as [|x l IH]; simpl.
  - apply Loud_ret.
  - apply Loud_bind; [apply H | intros _; exact IH].
Qed.

Lemma Loud_map_m {A B} (f : A -> M B) (l : list A) :
  (forall x, Loud (f x)) -> Loud (map_m f l).
Proof.
  intros H. induction l as [|x l IH]; simpl.
  - apply Loud_ret.
  - apply Loud_bind; [apply H | intros y].
    apply Loud_bind; [exact IH | intros ys; apply Loud_ret].
Qed.

Lemma LogAll_checkRateLimit (P : Effect -> Prop) socket action :
  (forall ok, P (RateLimit (sock_id socket) action ok)) ->
  (forall payload,
     P (Emit (ToSocket (sock_id socket)) "rate_limit_exceeded" payload)) ->
  LogAll P (checkRateLimit socket action).
Proof.
  intros H1 H2 w. unfold checkRateLimit.
  destruct (createRateLimiter _ _ _ _) as [[|] limits'];
    simpl; repeat constructor; auto.
Qed.

Lemma LogAll_setTimeout (P : Effect -> Prop) socket room delay :
  (forall id due, P (SetTimeout id due)) ->
  LogAll P (setTimeout socket room delay).
Proof. intros H w. unfold setTimeout. simpl. repeat constructor. apply H. Qed.

Lemma Inv_checkRateLimit (I : World -> Prop) socket action :
  (forall w l, I w -> I (with_limiters l w)) ->
  Inv I (checkRateLimit socket action).
Proof.
  intros H w Hw. unfold checkRateLimit.
  destruct (createRateLimiter _ _ _ _) as [[|] limits']; simpl; now apply H.
Qed.

Lemma Inv_setTimeout (I : World -> Prop) socket room delay :
  (forall w ts n, I w -> I (with_timers ts n w)) ->
  Inv I (setTimeout socket room delay).
Proof. intros H w Hw. unfold setTimeout. simpl. now apply H. Qed.

Lemma Loud_checkRateLimit socket action : Loud (checkRateLimit socket action).
Proof.
  intros w msg. unfold checkRateLimit.
  destruct (createRateLimiter _ _ _ _) as [[|] limits']; discriminate.
Qed.

(** Structural proof search for the three properties: the goal is taken
    apart along the computation, down to side conditions on single
    effects or single state updates. *)
Ltac head_of t :=
  lazymatch t with
  | ?f _ => head_of f
  | _ => t
  end.

Ltac logall :=
  repeat
    lazymatch goal with
    | |- LogAll _ (bind _ _) => apply LogAll_bind; [|intros ?]
    | |- LogAll _ (try_catch _ _) => apply LogAll_try; [|intros ?]
    | |- LogAll _ (for_each _ _) => apply LogAll_for_each; intros ?
    | |- LogAll _ (map_m _ _) => apply LogAll_map_m; intros ?
    | |- LogAll _ (ret _) => apply LogAll_ret
    | |- LogAll _ (throw _) => apply LogAll_throw
    | |- LogAll _ (gets _) => apply LogAll_gets
    | |- LogAll _ (modify _) => apply LogAll_modify
    | |- LogAll _ (tell _) => apply LogAll_tell; cbv beta
    | |- LogAll _ (collaborator _ _) =>
        apply LogAll_collaborator; intros ?; cbv beta
    | |- LogAll _ (checkRateLimit _ _) =>
        apply LogAll_checkRateLimit; intros ?; cbv beta
    | |- LogAll _ (setTimeout _ _ _) =>
        apply LogAll_setTimeout; intros ? ?; cbv beta
    | |- LogAll _ (match ?x with _ => _ end) => destruct x
    | |- LogAll _ ?m => let h := head_of m in unfold h
    end.

Ltac inv_leaf :=
  intros; simpl in *; repeat (case_match; simpl in *); subst;
  try assumption; try congruence.

Create HintDb chat_inv.

Ltac preserves_step :=
  lazymatch goal with
  | |- Inv _ (bind _ _) => apply Inv_bind; [|intros ?]
  | |- Inv _ (try_catch _ _) => apply Inv_try; [|intros ?]
  | |- Inv _ (for_each _ _) => apply Inv_for_each; intros ?
  | |- Inv _ (map_m _ _) => apply Inv_map_m; intros ?
  | |- Inv _ (ret _) => apply Inv_ret
  | |- Inv _ (throw _) => apply Inv_throw
  | |- Inv _ (gets _) => apply Inv_gets
  | |- Inv _ (tell _) => apply Inv_tell
  | |- Inv _ (modify _) => apply Inv_modify; inv_leaf
  | |- Inv _ (collaborator _ _) => apply Inv_collaborator; inv_leaf
  | |- Inv _ (checkRateLimit _ _) => apply Inv_checkRateLimit; inv_leaf
  | |- Inv _ (setTimeout _ _ _) => apply Inv_setTimeout; inv_leaf
  | |- Inv _ (match ?x with _ => _ end) => destruct x
  | |- Inv _ ?m => let h := head_of m in unfold h
  end.

(** Lemmas registered in [chat_inv] take precedence over unfolding. *)
Ltac preserves :=
  repeat first [ solve [auto 1 with chat_inv nocore] | preserves_step ].

Ltac loud :=
  repeat
    lazymatch goal with
    | |- Loud (bind _ _) => apply Loud_bind; [|intros ?]
    | |- Loud (for_each _ _) => apply Loud_for_each; intros ?
    | |- Loud (map_m _ _) => apply Loud_map_m; intros ?
    | |- Loud (ret _) => apply Loud_ret
    | |- Loud (gets _) => apply Loud_gets
    | |- Loud (tell _) => apply Loud_tell
    | |- Loud (modify _) => apply Loud_modify
    | |- Loud (collaborator _ _) => apply Loud_collaborator; reflexivity
    | |- Loud (checkRateLimit _ _) => apply Loud_checkRateLimit
    | |- Loud (match ?x with _ => _ end) => destruct x
    | |- Loud ?m => let h := head_of m in unfold h
    end.

(** ** Facts about the services *)

Lemma emissions_app event l1 l2 :
  emissions event (l1 ++ l2) = emissions event l1 ++ emissions event l2.
Proof. apply List.filter_app. Qed.

Lemma emissions_none event l :
  Forall (fun e => is_emit_of event e = false) l -> emissions event l = [].
Proof.
  induction 1 as [|e l He _ IH]; simpl; [reflexivity|].
  now rewrite He.
Qed.

Lemma silent_no_emissions event l :
  Forall (fun e => is_emit e = false) l -> emissions event l = [].
Proof.
  intros H. apply emissions_none. eapply Forall_impl; [exact H|].
  intros [] E; simpl in *; congruence.
Qed.

(** The services below [WebSocketService] never emit. *)
Lemma createMessage_silent room user content type metadata :
  LogAll (fun e => is_emit e = false)
         (createMessage room user content type metadata).
Proof. logall; reflexivity. Qed.

Lemma getUserRooms_silent user :
  LogAll (fun e => is_emit e = false) (getUserRooms user).
Proof. logall; reflexivity. Qed.

(** ** Projections of composed computations *)

Section Projections.
Context {A B : Type}.
Implicit Types (m : M A) (k : A -> M B).

Lemma log_bind m k w :
  log_of (bind m k w) =
    log_of (m w) ++
    match result_of (m w) with
    | Ok a => log_of (k a (world_of (m w)))
    | Throw _ => []
    end.
Proof.
  unfold bind, log_of, result_of, world_of.
  destruct (m w) as [[[a|e] w1] l1]; simpl.
  - now destruct (k a w1) as [[r w2] l2].
  - now rewrite app_nil_r.
Qed.

Lemma world_bind m k w :
  world_of (bind m k w) =
    match result_of (m w) with
    | Ok a => world_of (k a (world_of (m w)))
    | Throw _ => world_of (m w)
    end.
Proof.
  unfold bind, log_of, result_of, world_of.
  destruct (m w) as [[[a|e] w1] l1]; simpl; [|reflexivity].
  now destruct (k a w1) as [[r w2] l2].
Qed.

Lemma result_bind m k w :
  result_of (bind m k w) =
    match result_of (m w) with
    | Ok a => result_of (k a (world_of (m w)))
    | Throw e => Throw e
    end.
Proof.
  unfold bind, log_of, result_of, world_of.
  destruct (m w) as [[[a|e] w1] l1]; simpl; [|reflexivity].
  now destruct (k a w1) as [[r w2] l2].
Qed.

Lemma log_try m (h : string -> M A) w :
  log_of (try_catch m h w) =
    log_of (m w) ++
    match result_of (m w) with
    | Ok _ => []
    | Throw e => log_of (h e (world_of (m w)))
    end.
Proof.
  unfold try_catch, log_of, result_of, world_of.
  destruct (m w) as [[[a|e] w1] l1]; simpl.
  - now rewrite app_nil_r.
  - now destruct (h e w1) as [[r w2] l2].
Qed.

Lemma world_try m (h : string -> M A) w :
  world_of (try_catch m h w) =
    match result_of (m w) with
    | Ok _ => world_of (m w)
    | Throw e => world_of (h e (world_of (m w)))
    end.
Proof.
  unfold try_catch, log_of, result_of, world_of.
  destruct (m w) as [[[a|e] w1] l1]; simpl; [reflexivity|].
  now destruct (h e w1) as [[r w2] l2].
Qed.
End Projections.

(** ** One collaborator call *)

Lemma filter_existsb_false {A} (f : A -> bool) l :
  existsb f l = false -> List.filter f l = [].
Proof.
  induction l as [|x l IH]; simpl; [reflexivity|].
  destruct (f x); simpl; [discriminate | exact IH].
Qed.

Lemma collaborator_ok {A} mk (run : World -> Result A * World) w :
  calls_ok 1 (faults w) = true ->
  collaborator mk run w =
    match run (with_faults (tail (faults w)) w) with
    | (Ok a, w1) => (Ok a, w1, [mk true])
    | (Throw e, w1) => (Throw e, w1, [mk false])
    end.
Proof.
  unfold collaborator. destruct (faults w) as [|[msg|] fs]; simpl;
    [reflexivity | discriminate | reflexivity].
Qed.

Lemma collaborator_fault {A} mk (run : World -> Result A * World) w :
  calls_ok 1 (faults w) = false ->
  exists msg,
    collaborator mk run w =
      (Throw msg, with_faults (tail (faults w)) w, [mk false]).
Proof.
  unfold collaborator. destruct (faults w) as [|[msg|] fs]; simpl;
    try discriminate. intros _. now exists msg.
Qed.

Lemma calls_ok_tail n w :
  calls_ok (S n) (faults w) = true ->
  calls_ok n (faults (with_faults (tail (faults w)) w)) = true.
Proof.
  simpl. destruct (faults w) as [|[msg|] fs]; simpl; try discriminate; auto.
  destruct n; reflexivity.
Qed.

Lemma calls_ok_S n fs : calls_ok (S n) fs = true -> calls_ok n fs = true.
Proof.
  revert fs. induction n as [|n IH]; intros fs H; [reflexivity|].
  destruct fs as [|[msg|] fs]; simpl in *; try discriminate; auto.
Qed.

Lemma sql_select_ok {A} q (rows : Database -> A) w :
  calls_ok 1 (faults w) = true ->
  sql_select q rows w =
    (Ok (rows (db w)), with_faults (tail (faults w)) w, [Sql q true]).
Proof.
  intros H. unfold sql_select, sql. rewrite (collaborator_ok _ _ _ H).
  simpl. destruct w; reflexivity.
Qed.

Lemma sql_select_fault {A} q (rows : Database -> A) w :
  calls_ok 1 (faults w) = false ->
  exists msg,
    sql_select q rows w =
      (Throw msg, with_faults (tail (faults w)) w, [Sql q false]).
Proof. intros H. unfold sql_select, sql. now apply collaborator_fault. Qed.

Lemma bind_gets {A B} (f : World -> A) (k : A -> M B) w :
  bind (gets f) k w = k (f w) w.
Proof. unfold bind, gets. now destruct (k (f w) w) as [[r w2] l2]. Qed.

Lemma bind_modify {B} f (k : unit -> M B) w :
  bind (modify f) k w = k tt (f w).
Proof. unfold bind, modify. now destruct (k tt (f w)) as [[r w2] l2]. Qed.

Lemma bind_ret {A B} (a : A) (k : A -> M B) w : bind (ret a) k w = k a w.
Proof. unfold bind, ret. now destruct (k a w) as [[r w2] l2]. Qed.

Lemma log_try_ret {A} (m : M A) a w :
  log_of (try_catch m (fun _ => ret a) w) = log_of (m w).
Proof.
  rewrite log_try. destruct (result_of (m w)); simpl; apply app_nil_r.
Qed.

Lemma world_try_ret {A} (m : M A) a w :
  world_of (try_catch m (fun _ => ret a) w) = world_of (m w).
Proof. rewrite world_try. now destruct (result_of (m w)). Qed.

(** ** Joining a room (RoomService.joinRoom) *)



(** ** Connection teardown *)

Lemma redis_del_log keys w :
  log_of (redis_del keys w) = [Redis (Del keys) (calls_ok 1 (faults w))].
Proof.
  unfold redis_del, collaborator.
  destruct (faults w) as [|[msg|] fs]; reflexivity.
Qed.

Lemma redis_del_result keys w :
  calls_ok 1 (faults w) = false -> exists msg, result_of (redis_del keys w) = Throw msg.
Proof.
  unfold redis_del, collaborator.
  destruct (faults w) as [|[msg|] fs]; simpl; try discriminate.
  intros _. now exists msg.
Qed.

(** The log of a teardown opens with the removal of the presence record,
    and nothing follows a removal that was rejected. *)
Lemma handleDisconnection_log socket w :
  exists rest,
    log_of (handleDisconnection socket w) =
      Redis (Del [presence_key (userId socket)]) (calls_ok 1 (faults w)) :: rest
    /\ (calls_ok 1 (faults w) = false -> rest = []).
Proof.
  unfold handleDisconnection. rewrite log_try_ret, bind_gets, log_bind.
  unfold removeUserPresence. rewrite redis_del_log. simpl.
  eexists. split; [reflexivity|].
  intros Hf.
  destruct (redis_del_result [presence_key (userId socket)] w Hf) as [msg E].
  rewrite E. reflexivity.
Qed.

(** ** Presence *)

Lemma world_try_keep {A} (m : M A) h w :
  (forall e w', world_of (h e w') = w') ->
  world_of (try_catch m h w) = world_of (m w).
Proof.
  intros H. rewrite world_try. destruct (result_of (m w)); [reflexivity|].
  apply H.
Qed.

Lemma checkRateLimit_allowed socket action w :
  fst (createRateLimiter (sock_id socket) action (now w)
         (limits_of w (sock_id socket))) = true ->
  checkRateLimit socket action w =
    (Ok true,
     with_limiters
       (<[sock_id socket :=
            snd (createRateLimiter (sock_id socket) action (now w)
                   (limits_of w (sock_id socket)))]> (limiters w)) w,
     [RateLimit (sock_id socket) action true]).
Proof.
  unfold checkRateLimit.
  destruct (createRateLimiter _ _ _ _) as [[|] limits']; simpl;
    [reflexivity | discriminate].
Qed.

(** A key without a live value stays so under SREM and DEL, whatever
    their key. *)
Lemma absent_sRem key k member : Inv (absent key) (redis_sRem k member).
Proof.
  apply Inv_collaborator.
  - intros w Hw. exact Hw.
  - intros w Hw. unfold absent, rlookup in *.
    destruct (redis w !! k) as [e|] eqn:Ek; simpl; [|exact Hw].
    destruct (live (now w) e) eqn:El; simpl; [|exact Hw].
    destruct (re_val e) as [v|s] eqn:Ev; simpl; [exact Hw|].
    destruct (decide (key = k)) as [->|Hne].
    { rewrite Ek, El in Hw. discriminate. }
    case_decide; simpl.
    + now rewrite lookup_delete_ne.
    + now rewrite lookup_alter_ne.
Qed.

Lemma absent_del key keys : Inv (absent key) (redis_del keys).
Proof.
  apply Inv_collaborator.
  - intros w Hw. exact Hw.
  - intros w Hw. unfold absent, rlookup in *. simpl.
    induction keys as [|k keys IH]; simpl; [exact Hw|].
    destruct (decide (k = key)) as [->|Hne].
    + now rewrite lookup_delete_eq.
    + now rewrite lookup_delete_ne.
Qed.

Lemma absent_after_del key w :
  calls_ok 1 (faults w) = true ->
  result_of (redis_del [key] w) = Ok tt /\
  absent key (world_of (redis_del [key] w)).
Proof.
  intros H. unfold redis_del. rewrite (collaborator_ok _ _ _ H).
  split; [reflexivity|]. unfold absent, rlookup. simpl.
  now rewrite lookup_delete_eq.
Qed.

#[local] Hint Resolve absent_sRem absent_del : chat_inv.

Lemma teardown_rest_keeps_absent key socket t :
  Inv (absent key)
    (let* userRooms := getUserRooms (userId socket) in
     let* _ :=
       for_each userRooms (fun room =>
         let* _ := removeUserFromRoom (userId socket) (r_id (rw_room room)) in
         socket_to socket (r_id (rw_room room)) "user_left"
           [("user", user_json socket);
            ("roomId", JStr (r_id (rw_room room)));
            ("timestamp", JDate t)]) in
     let* _ := cleanupTypingForUser (userId socket) in
     removeSession (sock_id socket)).
Proof.
  preserves.
Qed.

Lemma teardown_removes_presence socket w :
  calls_ok 1 (faults w) = true ->
  rlookup (run (handleDisconnection socket) w) (presence_key (userId socket))
    = None.
Proof.
  intros H. unfold run, handleDisconnection.
  rewrite world_try_ret, bind_gets, world_bind.
  unfold removeUserPresence.
  destruct (absent_after_del (presence_key (userId socket)) w H) as [E Ha].
  rewrite E. now apply teardown_rest_keeps_absent.
Qed.

(** ** The presence record during a teardown *)

Lemma removeUserPresence_removes user w :
  calls_ok 1 (faults w) = true ->
  rlookup (run (removeUserPresence user) w) (presence_key user) = None.
Proof.
  intros H. unfold run, removeUserPresence.
  apply (absent_after_del (presence_key user) w H).
Qed.

Lemma handleDisconnection_stores_nothing socket :
  LogAll (fun e => is_redis_store e = false) (handleDisconnection socket).
Proof. logall; reflexivity. Qed.

(** C9: the teardown deletes the user's presence record before it emits
    any "user_left".  The log of every teardown starts with the removal
    of the record, and every "user_left" emission in it comes after a
    successful removal: when the removal is rejected nothing is emitted.
    Whenever a "user_left" is emitted, the removal has left the store
    without a presence record of the user, no later command of the
    teardown gives any Redis key a value, and the record is still absent
    when the teardown ends. *)
Theorem teardown_removes_presence_before_user_left socket w :
  head (log_of (handleDisconnection socket w)) =
    Some (Redis (Del [presence_key (userId socket)]) (calls_ok 1 (faults w)))
  /\ presence_removed_first (userId socket)
       (log_of (handleDisconnection socket w))
  /\ (forall i t payload,
        log_of (handleDisconnection socket w) !! i
          = Some (Emit t "user_left" payload) ->
        (0 < i)%nat
        /\ rlookup (run (removeUserPresence (userId socket)) w)
                   (presence_key (userId socket)) = None
        /\ rlookup (run (handleDisconnection socket) w)
                   (presence_key (userId socket)) = None)
  /\ Forall (fun e => is_redis_store e = false)
            (log_of (handleDisconnection socket w)).
Proof.
  pose proof (handleDisconnection_stores_nothing socket w) as Hstore.
  destruct (handleDisconnection_log socket w) as (rest & E & Hrest).
  rewrite E in *. split; [reflexivity|]. split; [|split; [|exact Hstore]].
  - intros i t payload Hi.
    destruct (calls_ok 1 (faults w)) eqn:Hok.
    + destruct i as [|i]; [discriminate|]. exists 0%nat. split; [lia | reflexivity].
    + rewrite (Hrest eq_refl) in Hi. destruct i as [|[|i]]; discriminate.
  - intros i t payload Hi.
    destruct (calls_ok 1 (faults w)) eqn:Hok.
    + destruct i as [|i]; [discriminate|]. split; [lia|]. split.
      * now apply removeUserPresence_removes.
      * now apply teardown_removes_presence.
    + rewrite (Hrest eq_refl) in Hi. destruct i as [|[|i]]; discriminate.
Qed.

Lemma teardown_removes_presence_before_user_left_witness :
  rlookup Sample.online_world (presence_key "alice")
    = Some (RString (JObj [("status", JStr "online");
                           ("lastActivity", JDate 1000);
                           ("connectionId", JStr "sock-a")]))
  /\ log_of (handleDisconnection Sample.alice Sample.online_world) !! 5%nat
     = Some (Emit (ToRoomExcept "general" "sock-a") "user_left"
               [("user", JObj [("id", JStr "alice");
                               ("username", JStr "Alice")]);
                ("roomId", JStr "general"); ("timestamp", JDate 1000)])
  /\ rlookup (run (removeUserPresence "alice") Sample.online_world)
             (presence_key "alice") = None.
Proof.
  assert (Hi : log_of (handleDisconnection Sample.alice Sample.online_world)
                 !! 5%nat
               = Some (Emit (ToRoomExcept "general" "sock-a") "user_left"
                         [("user", JObj [("id", JStr "alice");
                                         ("username", JStr "Alice")]);
                          ("roomId", JStr "general");
                          ("timestamp", JDate 1000)]))
    by (vm_compute; reflexivity).
  destruct (teardown_removes_presence_before_user_left Sample.alice
              Sample.online_world) as (_ & _ & H & _).
  destruct (H _ _ _ Hi) as (_ & Hgone & _).
  split; [reflexivity|]. split; [exact Hi | exact Hgone].
Defined.

(** ** Going offline *)

(** C4, counterexample: after alice's accepted update_presence with
    status "offline" her presence record is still in the store, with its
    status field set to "offline". *)
Lemma update_presence_offline_keeps_record :
  rlookup
    (run (handleUpdatePresence Sample.alice
            (mkPresenceData (JStr "offline") JUndef)) Sample.world)
    (presence_key "alice")
  = Some (RString (JObj [("status", JStr "offline");
                         ("lastActivity", JDate 1000);
                         ("connectionId", JStr "sock-a")])).
Proof. vm_compute. reflexivity. Qed.

Lemma update_rest_keeps_redis socket data t R n :
  Inv (fun w => redis w = R /\ now w = n)
    (let* _ :=
       socket_emit socket "presence_updated"
         [("status", pd_status data); ("timestamp", JDate t)] in
     let* userRooms := getUserRooms (userId socket) in
     for_each userRooms (fun room =>
       socket_to socket (r_id (rw_room room)) "presence_changed"
         [("userId", JStr (userId socket));
          ("status", pd_status data);
          ("currentRoom", pd_currentRoom data);
          ("timestamp", JDate t)])).
Proof. preserves. Qed.


Lemma update_presence_offline socket currentRoom w :
  calls_ok 1 (faults w) = true ->
  fst (createRateLimiter (sock_id socket) "update_presence" (now w)
         (limits_of w (sock_id socket))) = true ->
  redis (run (handleUpdatePresence socket
                (mkPresenceData (JStr "offline") currentRoom)) w)
    !! presence_key (userId socket)
  = Some (mkRedisEntry
            (RString
               (presence_json
                  (mkUserPresence (userId socket) (JStr "offline") currentRoom
                                  (now w) (JStr (sock_id socket)))))
            (Some (now w + 30 * 1000)))
  /\ now (run (handleUpdatePresence socket
                 (mkPresenceData (JStr "offline") currentRoom)) w) = now w.
Proof.
  intros Hc Hr. unfold run, handleUpdatePresence.
  rewrite world_try_keep by reflexivity.
  rewrite world_bind, (checkRateLimit_allowed _ _ _ Hr). simpl.
  rewrite bind_gets, world_bind. simpl.
  unfold setUserPresence, redis_setEx.
  rewrite collaborator_ok by exact Hc. simpl.
  match goal with
  | |- redis (world_of (?k ?w2)) !! _ = _ /\ _ =>
      assert (redis (world_of (k w2)) = redis w2 /\ now (world_of (k w2)) = now w2)
        as [E1 E2]
        by (apply (update_rest_keeps_redis socket
                     (mkPresenceData (JStr "offline") currentRoom) (now w)
                     (redis w2) (now w2) w2); split; reflexivity)
  end.
  rewrite E1, E2. simpl. rewrite lookup_insert_eq. split; reflexivity.
Qed.

(** C4, amended: when its delete call reaches Redis, the disconnect
    cleanup deletes the user's presence record, so that none exists
    afterwards (what happens later in the teardown does not matter).  A
    client-issued update_presence with status "offline" that passes the
    limiter and whose write reaches Redis does not delete anything: it
    stores, under the user's presence key, a record whose status field is
    "offline", with the usual expiry 30 seconds after the request, so
    that the record can be read until then. *)
Theorem offline_transitions socket currentRoom w :
  calls_ok 1 (faults w) = true ->
  rlookup (run (handleDisconnection socket) w) (presence_key (userId socket))
    = None
  /\ (fst (createRateLimiter (sock_id socket) "update_presence" (now w)
              (limits_of w (sock_id socket))) = true ->
      exists doc,
        redis (run (handleUpdatePresence socket
                      (mkPresenceData (JStr "offline") currentRoom)) w)
          !! presence_key (userId socket)
        = Some (mkRedisEntry (RString doc) (Some (now w + 30 * 1000)))
        /\ rlookup
             (run (handleUpdatePresence socket
                     (mkPresenceData (JStr "offline") currentRoom)) w)
             (presence_key (userId socket))
           = Some (RString doc)
        /\ jget "status" doc = JStr "offline").
Proof.
  intros Hc. split; [now apply teardown_removes_presence|].
  intros Hr.
  destruct (update_presence_offline socket currentRoom w Hc Hr) as [E En].
  eexists. split; [exact E|]. split; [|reflexivity].
  unfold rlookup. rewrite E, En. unfold live. cbn [re_expire re_val].
  destruct (Z.ltb_spec (now w) (now w + 30 * 1000)); [reflexivity | lia].
Qed.

Lemma offline_transitions_witness :
  rlookup Sample.online_world (presence_key "alice")
    = Some (RString (JObj [("status", JStr "online");
                           ("lastActivity", JDate 1000);
                           ("connectionId", JStr "sock-a")]))
  /\ rlookup (run (handleDisconnection Sample.alice) Sample.online_world)
             (presence_key "alice") = None
  /\ exists doc,
       redis (run (handleUpdatePresence Sample.alice
                     (mkPresenceData (JStr "offline") JUndef))
                  Sample.online_world)
         !! presence_key "alice"
       = Some (mkRedisEntry (RString doc) (Some 31000))
       /\ jget "status" doc = JStr "offline".
Proof.
  destruct (offline_transitions Sample.alice JUndef Sample.online_world
              eq_refl)
    as [H1 H2].
  destruct (H2 eq_refl) as (doc & E & _ & Hs).
  split; [reflexivity|]. split; [exact H1|].
  exists doc. split; [exact E | exact Hs].
Defined.

(** ** Typing indicators on teardown *)

#[local] Set Warnings "-clear-no-such-hyp".

Lemma typing_entry_alter_delete (T : gmap string (gmap string TypingEntry))
    (room user r : string) :
  (alter (delete user) room T !! r) ≫= (fun users : gmap string TypingEntry => users !! user)
  = if decide (r = room) then None
    else T !! r ≫= (fun users : gmap string TypingEntry => users !! user).
Proof.
  case_decide as E.
  - subst. rewrite lookup_alter_eq.
    destruct (T !! room) as [users|]; simpl; [|reflexivity].
    apply lookup_delete_eq.
  - rewrite lookup_alter_ne by congruence. reflexivity.
Qed.

Lemma cleanup_room_run user room w :
  cleanup_room user room w =
    match typing_entry w room user with
    | Some e =>
        (Ok tt,
         with_typingUsers (alter (delete user) room (typingUsers w))
           (with_timers
              (List.filter (fun t => negb (Nat.eqb (tm_id t) (te_timeout e)))
                           (timers w))
              (next_timer w) w),
         [ClearTimeout (te_timeout e); TypingDelete room user])
    | None => (Ok tt, w, [])
    end.
Proof.
  unfold cleanup_room. rewrite bind_gets.
  now destruct (typing_entry w room user).
Qed.

(** The state reached by the loop of [cleanupTypingForUser] over the room
    list [l]: the user's entries in those rooms are gone, their timers are
    cancelled, nothing is emitted. *)
Lemma cleanup_loop user l : forall w,
  exists w' lg,
    for_each l (cleanup_room user) w = (Ok tt, w', lg) /\
    (forall r, typing_entry w' r user =
               if decide (r ∈ l) then None else typing_entry w r user) /\
    (forall tm, In tm (timers w') ->
       In tm (timers w) /\
       forall r e, r ∈ l -> typing_entry w r user = Some e ->
                   tm_id tm <> te_timeout e) /\
    Forall (fun e => is_emit e = false) lg.
Proof.
  induction l as [|x l IH]; intros w.
  - exists w, []. split; [reflexivity|]. split; [|split].
    + intros r. case_decide as E; [|reflexivity]. now apply elem_of_nil in E.
    + intros tm Hin. split; [exact Hin|]. intros r e E. now apply elem_of_nil in E.
    + constructor.
  - cbn [for_each]. pose proof (cleanup_room_run user x w) as Ec.
    destruct (typing_entry w x user) as [e|] eqn:Ex.
    + rewrite (bind_ok _ _ _ _ _ _ Ec).
      match goal with |- context [for_each l _ ?w1] =>
        destruct (IH w1) as (w' & lg & E & Ht & Hm & Hl) end.
      rewrite E. eexists _, _. split; [reflexivity|]. split; [|split].
      * intros r. rewrite Ht. unfold typing_entry at 1.
        cbn [typingUsers with_typingUsers with_timers].
        rewrite typing_entry_alter_delete.
        destruct (decide (r = x)) as [->|Hne].
        -- rewrite (decide_True (P := x ∈ x :: l)) by set_solver.
           now case_decide.
        -- repeat case_decide; try reflexivity; exfalso; set_solver.
      * intros tm Hin. destruct (Hm tm Hin) as [Hin1 Hrest]. cbn in Hin1.
        apply List.filter_In in Hin1 as [Hin1 Hid]. split; [exact Hin1|].
        intros r e' Hr' He'.
        destruct (decide (r = x)) as [->|Hne].
        -- rewrite Ex in He'. injection He' as <-.
           apply negb_true_iff, Nat.eqb_neq in Hid. exact Hid.
        -- apply (Hrest r e').
           ++ set_solver.
           ++ unfold typing_entry.
              cbn [typingUsers with_typingUsers with_timers].
              rewrite typing_entry_alter_delete.
              rewrite decide_False by exact Hne. exact He'.
      * repeat constructor. exact Hl.
    + rewrite (bind_ok _ _ _ _ _ _ Ec).
      destruct (IH w) as (w' & lg & E & Ht & Hm & Hl).
      rewrite E. eexists _, _. split; [reflexivity|]. split; [|split].
      * intros r. rewrite Ht.
        destruct (decide (r = x)) as [->|Hne].
        -- rewrite (decide_True (P := x ∈ x :: l)) by set_solver.
           case_decide; [reflexivity | exact Ex].
        -- repeat case_decide; try reflexivity; exfalso; set_solver.
      * intros tm Hin. destruct (Hm tm Hin) as [Hin1 Hrest]. split; [exact Hin1|].
        intros r e' Hr' He'.
        destruct (decide (r = x)) as [->|Hne]; [congruence|].
        apply (Hrest r e'); [set_solver | exact He'].
      * exact Hl.
Qed.

Lemma cleanupTypingForUser_run user w :
  exists w' lg,
    cleanupTypingForUser user w = (Ok tt, w', lg) /\
    (forall r, inherited r = false -> typing_entry w' r user = None) /\
    (forall tm, In tm (timers w') ->
       In tm (timers w) /\
       forall r e, inherited r = false ->
                   typing_entry w r user = Some e -> tm_id tm <> te_timeout e) /\
    Forall (fun e => is_emit e = false) lg.
Proof.
  unfold cleanupTypingForUser. rewrite bind_gets.
  set (rooms := List.filter (fun room => negb (inherited room))
                            (map fst (map_to_list (typingUsers w)))).
  destruct (cleanup_loop user rooms w) as (w' & lg & E & Ht & Hm & Hl).
  exists w', lg. split; [exact E|].
  assert (Hkeys : forall r e, inherited r = false ->
                    typing_entry w r user = Some e -> r ∈ rooms).
  { intros r e Hr He. unfold typing_entry in He.
    destruct (typingUsers w !! r) as [us|] eqn:Er; [|discriminate].
    apply list_elem_of_In, List.filter_In. split.
    - apply list_elem_of_In, list_elem_of_fmap. exists (r, us).
      split; [reflexivity|]. now apply elem_of_map_to_list.
    - now rewrite Hr. }
  split; [|split].
  - intros r Hr. rewrite Ht. case_decide as Hin; [reflexivity|].
    destruct (typing_entry w r user) as [e|] eqn:He; [|reflexivity].
    exfalso. apply Hin. eapply Hkeys; [exact Hr | exact He].
  - intros tm Hin. destruct (Hm tm Hin) as [H1 H2]. split; [exact H1|].
    intros r e Hr He. apply (H2 r e); [|exact He]. eapply Hkeys; eassumption.
  - exact Hl.
Qed.

Lemma quiet_ok {A} (m : M A) w :
  Loud m ->
  Forall (fun e => failing e = false) (log_of (m w)) ->
  exists a, result_of (m w) = Ok a.
Proof.
  intros Hl Hq. destruct (result_of (m w)) as [a|msg] eqn:E; [now exists a|].
  exfalso. apply Hl in E. apply Exists_exists in E as (e & Hin & He).
  rewrite Forall_forall in Hq. specialize (Hq e Hin). congruence.
Qed.

Lemma removeUserPresence_loud user : Loud (removeUserPresence user).
Proof. loud. Qed.

Lemma getUserRooms_loud user : Loud (getUserRooms user).
Proof. loud. Qed.

Lemma leave_rooms_loud socket t rooms :
  Loud (for_each rooms (fun room : RoomWithMembership =>
          let* _ := removeUserFromRoom (userId socket) (r_id (rw_room room)) in
          socket_to socket (r_id (rw_room room)) "user_left"
            [("user", user_json socket);
             ("roomId", JStr (r_id (rw_room room)));
             ("timestamp", JDate t)])).
Proof. loud. Qed.

Lemma removeUserPresence_typing T ts user :
  Inv (same_typing T ts) (removeUserPresence user).
Proof. preserves. Qed.

Lemma getUserRooms_typing T ts user : Inv (same_typing T ts) (getUserRooms user).
Proof. preserves. Qed.

Lemma leave_rooms_typing T ts socket t rooms :
  Inv (same_typing T ts)
      (for_each rooms (fun room : RoomWithMembership =>
          let* _ := removeUserFromRoom (userId socket) (r_id (rw_room room)) in
          socket_to socket (r_id (rw_room room)) "user_left"
            [("user", user_json socket);
             ("roomId", JStr (r_id (rw_room room)));
             ("timestamp", JDate t)])).
Proof. preserves. Qed.

Lemma removeSession_typing T ts id : Inv (same_typing T ts) (removeSession id).
Proof. preserves. Qed.

Lemma handleDisconnection_no_stop_typing socket :
  LogAll (fun e => is_emit_of "user_stopped_typing" e = false)
         (handleDisconnection socket).
Proof. logall; reflexivity. Qed.

(** An entry filed under a room id that [for ... in] does not visit
    survives the teardown, together with its timer. *)
Lemma teardown_skips_inherited_room_ids :
  typing_entry
    (run (handleDisconnection Sample.alice)
         (run (handleStartTyping Sample.alice (Some "constructor"))
              Sample.world))
    "constructor" "alice" = Some (mkTypingEntry "Alice" 0)
  /\ map tm_id
        (timers
           (run (handleDisconnection Sample.alice)
                (run (handleStartTyping Sample.alice (Some "constructor"))
                     Sample.world))) = [0%nat].
Proof. vm_compute. auto. Qed.

(** C3, counterexample: alice disconnects while typing in "general"; her
    typing entry is removed, yet the teardown broadcasts no
    "user_stopped_typing" event at all. *)
Lemma teardown_broadcasts_no_stop_typing :
  typing_entry Sample.typing_world "general" "alice"
    = Some (mkTypingEntry "Alice" 0) /\
  typing_entry (run (handleDisconnection Sample.alice) Sample.typing_world)
               "general" "alice" = None /\
  emissions "user_stopped_typing"
            (log_of (handleDisconnection Sample.alice Sample.typing_world))
    = [].
Proof. vm_compute. auto. Qed.

(** C3, amended: a disconnect teardown never broadcasts
    "user_stopped_typing".  When none of its store calls is rejected, and
    neither the user's id nor any room or user id of the typing map is a
    property name inherited from Object.prototype, it removes every typing
    entry owned by the user, in every room whose id is not such a name,
    and cancels the expiry timer of each removed entry. *)
Theorem teardown_drops_typing_silently socket w :
  emissions "user_stopped_typing" (log_of (handleDisconnection socket w)) = []
  /\ (plain_typing w = true ->
      inherited (userId socket) = false ->
      Forall (fun e => failing e = false)
             (log_of (handleDisconnection socket w)) ->
      forall room,
        inherited room = false ->
        typing_entry (run (handleDisconnection socket) w) room (userId socket)
          = None
        /\ forall e tm,
             typing_entry w room (userId socket) = Some e ->
             In tm (timers (run (handleDisconnection socket) w)) ->
             tm_id tm <> te_timeout e).
Proof.
  split.
  { apply emissions_none, handleDisconnection_no_stop_typing. }
  unfold run, handleDisconnection.
  rewrite log_try_ret, world_try_ret, bind_gets.
  rewrite log_bind, world_bind. intros _ _ Hq.
  apply Forall_app in Hq as [Hq1 Hq].
  destruct (quiet_ok _ _ (removeUserPresence_loud (userId socket)) Hq1) as [[] E1].
  rewrite E1 in Hq. rewrite E1.
  pose proof (removeUserPresence_typing _ _ (userId socket) w (conj eq_refl eq_refl)) as I1.
  set (w1 := world_of (removeUserPresence (userId socket) w)) in *.
  rewrite log_bind in Hq. rewrite world_bind.
  apply Forall_app in Hq as [Hq2 Hq].
  destruct (quiet_ok _ _ (getUserRooms_loud (userId socket)) Hq2) as [rooms E2].
  rewrite E2 in Hq. rewrite E2.
  pose proof (getUserRooms_typing _ _ (userId socket) w1 I1) as I2.
  set (w2 := world_of (getUserRooms (userId socket) w1)) in *.
  rewrite log_bind in Hq. rewrite world_bind.
  apply Forall_app in Hq as [Hq3 Hq].
  destruct (quiet_ok _ _ (leave_rooms_loud socket (now w) rooms) Hq3) as [[] E3].
  rewrite E3 in Hq. rewrite E3.
  pose proof (leave_rooms_typing _ _ socket (now w) rooms w2 I2) as I3.
  match type of I3 with same_typing _ _ (world_of ?o) => set (w3 := world_of o) in * end.
  rewrite world_bind.
  destruct (cleanupTypingForUser_run (userId socket) w3) as (w4 & lg & E4 & Ht & Hm & _).
  rewrite E4. cbn [result_of world_of fst snd].
  pose proof (removeSession_typing _ _ (sock_id socket) w4 (conj eq_refl eq_refl))
    as [I5 I6].
  intros room Hroom. unfold typing_entry at 1. rewrite I5.
  split; [now apply Ht|].
  intros e tm He Hin. rewrite I6 in Hin.
  destruct (Hm tm Hin) as [_ Hne]. apply (Hne room e Hroom).
  destruct I3 as [I3 _]. unfold typing_entry. rewrite I3. exact He.
Qed.

Lemma teardown_drops_typing_silently_witness :
  typing_entry (run (handleDisconnection Sample.alice) Sample.typing_world)
               "general" "alice" = None
  /\ timers (run (handleDisconnection Sample.alice) Sample.typing_world) = [].
Proof.
  destruct (teardown_drops_typing_silently Sample.alice Sample.typing_world)
    as [_ H].
  assert (Hq : Forall (fun e => failing e = false)
                 (log_of (handleDisconnection Sample.alice
                            Sample.typing_world)))
    by (vm_compute; repeat constructor).
  split; [exact (proj1 (H eq_refl eq_refl Hq "general" eq_refl)) | reflexivity].
Defined.

(** ** Typing indicators *)

Lemma truthy_some room : room <> "" -> truthy (Some room) = true.
Proof.
  intros H. unfold truthy. apply negb_true_iff. now apply String.eqb_neq.
Qed.

(** The outcome of an accepted start_typing signal, spelled out. *)
Lemma handleStartTyping_run socket room w :
  room <> "" ->
  fst (createRateLimiter (sock_id socket) "start_typing" (now w)
         (limits_of w (sock_id socket))) = true ->
  exists w' before,
    handleStartTyping socket (Some room) w =
      (Ok tt, w',
       RateLimit (sock_id socket) "start_typing" true ::
       before ++
       [SetTimeout (next_timer w) (now w + 3000);
        TypingPut room (userId socket);
        Emit (ToRoomExcept room (sock_id socket)) "user_typing"
          [("userId", JStr (userId socket));
           ("username", JStr (username socket));
           ("roomId", JStr room);
           ("timestamp", JDate (now w))]])
    /\ before =
         match typing_entry w room (userId socket) with
         | Some e => [ClearTimeout (te_timeout e)]
         | None => []
         end
    /\ typing_entry w' room (userId socket)
         = Some (mkTypingEntry (username socket) (next_timer w))
    /\ In (mkTimer (next_timer w) (now w + 3000) socket room) (timers w')
    /\ (forall e tm, typing_entry w room (userId socket) = Some e ->
          te_timeout e <> next_timer w ->
          In tm (timers w') -> tm_id tm <> te_timeout e).
Proof.
  intros Hroom Hrate.
  unfold handleStartTyping, try_catch, bind, checkRateLimit.
  destruct (createRateLimiter _ _ _ _) as [ok limits'] eqn:Er.
  simpl in Hrate. subst ok. cbn [negb]. rewrite (truthy_some _ Hroom).
  unfold gets, modify, clearTimeout, setTimeout, typing_put, socket_to, emit,
         tell, bind, modify, typing_entry.
  simpl.
  destruct (typingUsers w !! room) as [us|] eqn:Eroom; simpl.
  - rewrite Eroom. simpl. destruct (us !! userId socket) as [e|] eqn:Ee; simpl.
    + eexists _, [ClearTimeout (te_timeout e)].
      split; [reflexivity|]. split; [reflexivity|]. simpl.
      rewrite !lookup_insert_eq. simpl. rewrite lookup_insert_eq.
      split; [reflexivity|]. split.
      * apply in_or_app. right. now left.
      * intros e' tm He' Hne Hin. injection He' as <-.
        apply in_app_or in Hin as [Hin|[<-|[]]].
        -- apply List.filter_In in Hin as [_ Hid].
           now apply negb_true_iff, Nat.eqb_neq in Hid.
        -- simpl. congruence.
    + eexists _, []. split; [reflexivity|]. split; [reflexivity|]. simpl.
      rewrite !lookup_insert_eq. simpl. rewrite lookup_insert_eq.
      split; [reflexivity|]. split.
      * apply in_or_app. right. now left.
      * intros e' tm He'. discriminate.
  - rewrite lookup_insert_eq. simpl. rewrite lookup_empty.
    eexists _, []. split; [reflexivity|]. split; [reflexivity|]. simpl.
    rewrite !lookup_insert_eq. simpl. rewrite lookup_insert_eq.
    split; [reflexivity|]. split.
    + apply in_or_app. right. now left.
    + intros e' tm He'. discriminate.
Qed.

(** C1, counterexample: alice signals start_typing, and again one second
    later, while her entry is still there and its timer (due at 4000) is
    pending; both signals broadcast "user_typing". *)
Lemma repeated_start_typing_rebroadcasts :
  typing_entry Sample.typing_world "general" "alice"
    = Some (mkTypingEntry "Alice" 0)
  /\ timers (run (advance_to 2000) Sample.typing_world)
     = [mkTimer 0 4000 Sample.alice "general"]
  /\ length
       (emissions "user_typing"
          (log_of
             ((let* _ := handleStartTyping Sample.alice (Some "general") in
               let* _ := advance_to 2000 in
               handleStartTyping Sample.alice (Some "general"))
                Sample.world)))
     = 2%nat.
Proof. vm_compute. auto. Qed.

(** C1, amended: every start_typing signal that passes the limiter and
    names a room broadcasts one "user_typing" event to the room's other
    subscribers, whether or not a typing entry for that (user, room) pair
    already exists: the handler has no "new entry" test.  The entry is
    (re)written with a fresh 3 second timer, the timer of a replaced entry
    having been cancelled. *)
Theorem start_typing_always_broadcasts socket room w :
  room <> "" ->
  fst (createRateLimiter (sock_id socket) "start_typing" (now w)
         (limits_of w (sock_id socket))) = true ->
  emissions "user_typing" (log_of (handleStartTyping socket (Some room) w))
    = [Emit (ToRoomExcept room (sock_id socket)) "user_typing"
         [("userId", JStr (userId socket));
          ("username", JStr (username socket));
          ("roomId", JStr room);
          ("timestamp", JDate (now w))]]
  /\ typing_entry (run (handleStartTyping socket (Some room)) w) room
                  (userId socket)
     = Some (mkTypingEntry (username socket) (next_timer w))
  /\ In (mkTimer (next_timer w) (now w + 3000) socket room)
        (timers (run (handleStartTyping socket (Some room)) w))
  /\ (forall e tm,
        typing_entry w room (userId socket) = Some e ->
        te_timeout e <> next_timer w ->
        In tm (timers (run (handleStartTyping socket (Some room)) w)) ->
        tm_id tm <> te_timeout e).
Proof.
  intros Hroom Hrate.
  destruct (handleStartTyping_run socket room w Hroom Hrate)
    as (w' & before & E & Hb & He & Ht & Hc).
  unfold run. rewrite E. cbn [log_of world_of fst snd].
  split; [|auto].
  subst before. destruct (typing_entry w room (userId socket)); reflexivity.
Qed.

Lemma start_typing_always_broadcasts_witness :
  length
    (emissions "user_typing"
       (log_of (handleStartTyping Sample.alice (Some "general")
                  Sample.typing_world))) = 1%nat.
Proof.
  assert (Hroom : "general" <> "") by discriminate.
  destruct (start_typing_always_broadcasts Sample.alice "general"
              Sample.typing_world Hroom eq_refl) as [E _].
  rewrite E. reflexivity.
Defined.

(** ** Sending messages *)

Lemma checkRateLimit_rejected socket action w :
  fst (createRateLimiter (sock_id socket) action (now w)
         (limits_of w (sock_id socket))) = false ->
  checkRateLimit socket action w =
    (Ok false, w,
     [RateLimit (sock_id socket) action false;
      Emit (ToSocket (sock_id socket)) "rate_limit_exceeded"
           [("error", JStr "rate_limit_exceeded");
            ("retryAfter", JNum 60);
            ("endpoint", JStr action);
            ("timestamp", JDate (now w))]]).
Proof.
  unfold checkRateLimit, createRateLimiter, limits_of.
  destruct (limiters w !! sock_id socket) as [limits|] eqn:El; simpl.
  - destruct (limits !! _) as [e|] eqn:Ee; simpl; [|discriminate].
    destruct (resetTime e <? now w); simpl; [discriminate|].
    destruct (negb (inherited action) && (actionLimits action <=? count e));
      simpl; [|discriminate].
    intros _. rewrite insert_id by exact El. now destruct w.
  - rewrite lookup_empty. discriminate.
Qed.


Lemma bind_step {A B} (m : M A) (k : A -> M B) w a w1 l1 r w2 l2 :
  m w = (Ok a, w1, l1) -> k a w1 = (r, w2, l2) ->
  bind m k w = (r, w2, l1 ++ l2).
Proof. intros E1 E2. unfold bind. now rewrite E1, E2. Qed.

Lemma try_catch_throw {A} (m : M A) h w e w1 l1 r w2 l2 :
  m w = (Throw e, w1, l1) -> h e w1 = (r, w2, l2) ->
  try_catch m h w = (r, w2, l1 ++ l2).
Proof. intros E1 E2. unfold try_catch. now rewrite E1, E2. Qed.

Lemma try_catch_ok {A} (m : M A) h w a w1 l1 :
  m w = (Ok a, w1, l1) -> try_catch m h w = (Ok a, w1, l1).
Proof. intros E1. unfold try_catch. now rewrite E1. Qed.






(** C2, counterexample: alice, a member of "general", sends "hi"; the
    membership check succeeds and the INSERT is rejected.  Nothing is
    fanned out, and what the sender gets is the ordinary hard failure
    "send_failed". *)
Lemma failed_persistence_suppresses_fanout :
  log_of (handleSendMessage Sample.alice Sample.hello
            (with_faults [None; Some "connection terminated"] Sample.world))
  = [RateLimit "sock-a" "send_message" true;
     Sql (SelectMembership "alice" "general") true;
     Sql (InsertMessage "general" "alice" "hi" "text") false;
     Emit (ToSocket "sock-a") "send_message_error"
       [("error", JStr "send_failed");
        ("message", JStr "connection terminated");
        ("roomId", JStr "general")]]
  /\ emissions "message_received"
       (log_of (handleSendMessage Sample.alice Sample.hello
                  (with_faults [None; Some "connection terminated"]
                               Sample.world)))
     = [].
Proof. vm_compute. auto. Qed.

(** C2, amended: for every send_message accepted past validation and rate
    limiting, if the persistence request fails, the message is not fanned
    out: no "message_received" and no "message_sent" event is emitted, and
    the sender receives the ordinary hard failure, one
    "send_message_error" with error "send_failed" carrying the failure's
    message.  There is no separate persistence warning. *)
Theorem failed_persistence_is_a_send_failure socket data w msg :
  fst (createRateLimiter (sock_id socket) "send_message" (now w)
         (limits_of w (sock_id socket))) = true ->
  truthy (sm_roomId data) = true ->
  truthy (sm_content data) = true ->
  result_of (persist socket data (run (checkRateLimit socket "send_message") w))
    = Throw msg ->
  log_of (handleSendMessage socket data w) =
    RateLimit (sock_id socket) "send_message" true ::
    log_of (persist socket data (run (checkRateLimit socket "send_message") w))
    ++ [Emit (ToSocket (sock_id socket)) "send_message_error"
          [("error", JStr "send_failed");
           ("message", JStr msg);
           ("roomId", jopt (sm_roomId data))]]
  /\ emissions "message_received" (log_of (handleSendMessage socket data w)) = []
  /\ emissions "message_sent" (log_of (handleSendMessage socket data w)) = [].
Proof.
  intros Hrate Hr Hc Hfail.
  pose proof (checkRateLimit_allowed socket "send_message" w Hrate) as Echeck.
  unfold run in *. rewrite Echeck in *. cbn [world_of fst snd] in *.
  set (w1 := with_limiters _ w) in *.
  destruct (persist socket data w1) as [[r w2] l2] eqn:Ep.
  cbn [result_of log_of fst snd] in *. subst r.
  assert (Hsilent : Forall (fun e => is_emit e = false) l2).
  { pose proof (createMessage_silent
                  (default "" (sm_roomId data)) (userId socket)
                  (trim (default "" (sm_content data)))
                  (Some (default "text" (sm_type data)))
                  (Some (jset "replyTo" (sm_replyTo data)
                              (default [] (sm_metadata data)))) w1) as H.
    unfold persist in Ep. now rewrite Ep in H. }
  assert (E : handleSendMessage socket data w =
                (Ok tt, w2,
                 ([RateLimit (sock_id socket) "send_message" true] ++ l2) ++
                 [Emit (ToSocket (sock_id socket)) "send_message_error"
                    [("error", JStr "send_failed");
                     ("message", JStr msg);
                     ("roomId", jopt (sm_roomId data))]])).
  { unfold handleSendMessage.
    eapply try_catch_throw; [|reflexivity].
    eapply bind_step; [exact Echeck|].
    cbn [negb]. rewrite Hr, Hc. cbn [negb orb].
    apply bind_throw. exact Ep. }
  rewrite E. cbn [log_of snd]. split; [reflexivity|].
  rewrite !emissions_app, !(silent_no_emissions _ l2 Hsilent).
  split; reflexivity.
Qed.

Lemma failed_persistence_is_a_send_failure_witness :
  emissions "send_message_error"
    (log_of (handleSendMessage Sample.alice Sample.hello
               (with_faults [None; Some "connection terminated"]
                            Sample.world)))
  = [Emit (ToSocket "sock-a") "send_message_error"
       [("error", JStr "send_failed");
        ("message", JStr "connection terminated");
        ("roomId", JStr "general")]]
  /\ emissions "message_received"
       (log_of (handleSendMessage Sample.alice Sample.hello
                  (with_faults [None; Some "connection terminated"]
                               Sample.world)))
     = [].
Proof.
  destruct (failed_persistence_is_a_send_failure Sample.alice Sample.hello
              (with_faults [None; Some "connection terminated"] Sample.world)
              "connection terminated" eq_refl eq_refl eq_refl eq_refl)
    as (Hlog & Hrecv & _).
  split; [rewrite Hlog; reflexivity | exact Hrecv].
Defined.

(** ** Which actions consult the limiter *)

Lemma guarded_by_log socket action (k : bool -> M unit) h w :
  k false = ret tt ->
  guarded_by socket action w
    (log_of (try_catch (bind (checkRateLimit socket action) k) h w)).
Proof.
  intros Hk. unfold guarded_by.
  destruct (fst (createRateLimiter (sock_id socket) action (now w)
                   (limits_of w (sock_id socket)))) eqn:Hr.
  - rewrite log_try, log_bind, (checkRateLimit_allowed _ _ _ Hr).
    cbn [log_of result_of world_of fst snd app].
    eexists. split; [reflexivity | discriminate].
  - rewrite (try_catch_ok _ _ _ tt w
               (log_of (checkRateLimit socket action w) ++ [])).
    + rewrite (checkRateLimit_rejected _ _ _ Hr).
      cbn [log_of snd app]. eexists. split; [reflexivity|].
      intros _. repeat constructor.
    + eapply bind_step.
      * rewrite (checkRateLimit_rejected _ _ _ Hr). reflexivity.
      * rewrite Hk. reflexivity.
Qed.

Lemma handleLeaveRoom_unlimited socket roomId :
  LogAll (fun e => is_rate_check e = false) (handleLeaveRoom socket roomId).
Proof. logall; reflexivity. Qed.

Lemma handleEditMessage_unlimited socket data :
  LogAll (fun e => is_rate_check e = false) (handleEditMessage socket data).
Proof. logall; reflexivity. Qed.

Lemma handleDeleteMessage_unlimited socket messageId :
  LogAll (fun e => is_rate_check e = false)
         (handleDeleteMessage socket messageId).
Proof. logall; reflexivity. Qed.

Lemma unlimited_mutation l i e :
  Forall (fun e => is_rate_check e = false) l ->
  l !! i = Some e -> is_mutation e = true ->
  ~ limiter_first l.
Proof.
  intros Hall Hi He Hf.
  destruct (Hf i e Hi He) as (j & e' & _ & Hj & Hr).
  rewrite Forall_forall in Hall.
  assert (Hin : e' ∈ l) by (eapply list_elem_of_lookup_2; exact Hj).
  specialize (Hall e' Hin). congruence.
Qed.

(** C5, counterexample: carol leaves "general", alice edits and then
    deletes her message; each handler writes to the database although no
    limiter check occurs anywhere in its log. *)
Lemma unguarded_mutations :
  ~ limiter_first
      (log_of (handleLeaveRoom Sample.carol (Some "general") Sample.world))
  /\ ~ limiter_first
        (log_of (handleEditMessage Sample.alice
                   (mkEditMessageData (Some 1) (Some "hello again"))
                   Sample.world))
  /\ ~ limiter_first
        (log_of (handleDeleteMessage Sample.alice (Some 1) Sample.world)).
Proof.
  split; [|split].
  - apply (unlimited_mutation _ 2
             (Sql (DeleteMembership "carol" "general") true)).
    + apply handleLeaveRoom_unlimited.
    + vm_compute. reflexivity.
    + reflexivity.
  - apply (unlimited_mutation _ 1 (Sql (UpdateMessage 1) true)).
    + apply handleEditMessage_unlimited.
    + vm_compute. reflexivity.
    + reflexivity.
  - apply (unlimited_mutation _ 2 (Sql (SoftDeleteMessage 1) true)).
    + apply handleDeleteMessage_unlimited.
    + vm_compute. reflexivity.
    + reflexivity.
Qed.

(** C5, amended: the handlers of send_message, join_room, update_presence
    and start_typing consult, before anything else happens, the limiter of
    their own connection for their own action: the log of the handler
    opens with the answer of that limiter to that action, so that every
    state mutation of these four actions comes after the check, and no
    mutation at all follows a refusal.  The handlers of leave_room,
    edit_message and delete_message never consult any limiter. *)
Theorem limiter_guards_four_actions socket w :
  (forall data,
     guarded_by socket "send_message" w
       (log_of (handleSendMessage socket data w)))
  /\ (forall roomId,
        guarded_by socket "join_room" w
          (log_of (handleJoinRoom socket roomId w)))
  /\ (forall data,
        guarded_by socket "update_presence" w
          (log_of (handleUpdatePresence socket data w)))
  /\ (forall roomId,
        guarded_by socket "start_typing" w
          (log_of (handleStartTyping socket roomId w)))
  /\ (forall roomId,
        Forall (fun e => is_rate_check e = false)
               (log_of (handleLeaveRoom socket roomId w)))
  /\ (forall data,
        Forall (fun e => is_rate_check e = false)
               (log_of (handleEditMessage socket data w)))
  /\ (forall messageId,
        Forall (fun e => is_rate_check e = false)
               (log_of (handleDeleteMessage socket messageId w))).
Proof.
  repeat split.
  - intros data. now apply guarded_by_log.
  - intros roomId. now apply guarded_by_log.
  - intros data. now apply guarded_by_log.
  - intros roomId. now apply guarded_by_log.
  - intros roomId. apply handleLeaveRoom_unlimited.
  - intros data. apply handleEditMessage_unlimited.
  - intros messageId. apply handleDeleteMessage_unlimited.
Qed.

(** ** The send-rate window *)

Lemma checkRateLimit_run socket action w :
  checkRateLimit socket action w =
    (Ok (fst (createRateLimiter (sock_id socket) action (now w)
                (limits_of w (sock_id socket)))),
     with_limiters
       (<[sock_id socket :=
            snd (createRateLimiter (sock_id socket) action (now w)
                   (limits_of w (sock_id socket)))]> (limiters w)) w,
     log_of (checkRateLimit socket action w)).
Proof.
  unfold checkRateLimit.
  now destruct (createRateLimiter _ _ _ _) as [[|] limits'].
Qed.










(** ** Deleting a message *)

Lemma sql_ok {A} q (run : Database -> Z -> Result A * Database) w :
  calls_ok 1 (faults w) = true ->
  sql q run w =
    match run (db w) (now w) with
    | (Ok a, d) => (Ok a, with_db d (with_faults (tail (faults w)) w), [Sql q true])
    | (Throw e, d) =>
        (Throw e, with_db d (with_faults (tail (faults w)) w), [Sql q false])
    end.
Proof.
  intros H. unfold sql. rewrite (collaborator_ok _ _ _ H). simpl.
  now destruct (run (db w) (now w)) as [[a|e] d].
Qed.

Lemma sql_fault {A} q (run : Database -> Z -> Result A * Database) w :
  calls_ok 1 (faults w) = false ->
  exists msg,
    sql q run w = (Throw msg, with_faults (tail (faults w)) w, [Sql q false]).
Proof. intros H. unfold sql. now apply collaborator_fault. Qed.

Lemma clearMessageCache_db D t room : Inv (same_db D t) (clearMessageCache room).
Proof. preserves. Qed.

(** The world [deleteMessage] leaves when it succeeds. *)
Lemma deleteMessage_db id user isAdmin w :
  result_of (deleteMessage id user isAdmin w) = Ok tt ->
  messages_with_id id (db w) <> [] /\
  db (run (deleteMessage id user isAdmin) w) =
    with_messages
      (map (fun m => if m_id m =? id then deleted_at (now w) m else m)
           (messages (db w)))
      (db w).
Proof.
  unfold run, deleteMessage. intros Hok.
  destruct (calls_ok 1 (faults w)) eqn:Hc.
  2:{ destruct (sql_select_fault (SelectMessageOwner id) (messages_with_id id)
                  w Hc) as [msg E].
      rewrite (bind_throw _ _ _ _ _ _ E) in Hok. discriminate. }
  pose proof (sql_select_ok (SelectMessageOwner id) (messages_with_id id) w Hc)
    as E.
  rewrite (bind_ok _ _ _ _ _ _ E) in *. cbn [result_of world_of fst snd] in *.
  destruct (messages_with_id id (db w)) as [|message others] eqn:Em;
    [discriminate|].
  split; [discriminate|].
  destruct (negb (m_user_id message =? user)%string && negb isAdmin);
    [discriminate|].
  set (w1 := with_faults (tail (faults w)) w) in *.
  destruct (calls_ok 1 (faults w1)) eqn:Hc1.
  2:{ destruct (sql_fault (SoftDeleteMessage id) (soft_delete id) w1 Hc1)
        as [msg E1].
      rewrite (bind_throw _ _ _ _ _ _ E1) in Hok. discriminate. }
  pose proof (sql_ok (SoftDeleteMessage id) (soft_delete id) w1 Hc1) as E1.
  cbn [soft_delete] in E1.
  rewrite (bind_ok _ _ _ _ _ _ E1). cbn [world_of fst snd].
  match goal with
  | |- db (world_of (clearMessageCache ?r ?w2)) = _ =>
      destruct (clearMessageCache_db (db w2) (now w2) r w2
                  (conj eq_refl eq_refl)) as [H _]
  end.
  rewrite H. reflexivity.
Qed.

Section SortMap.
Context {A : Type} (le : A -> A -> bool) (g : A -> A).
Hypothesis le_g : forall x y, le (g x) (g y) = le x y.

Lemma insert_by_map x l :
  insert_by le (g x) (map g l) = map g (insert_by le x l).
Proof.
  induction l as [|y l IH]; simpl; [reflexivity|].
  rewrite le_g. destruct (le x y); simpl; [reflexivity|]. now rewrite IH.
Qed.

Lemma sort_by_map l : sort_by le (map g l) = map g (sort_by le l).
Proof.
  induction l as [|x l IH]; simpl; [reflexivity|].
  unfold sort_by in *. simpl. rewrite IH. apply insert_by_map.
Qed.
End SortMap.

Section HistoryFrame.
Variables (f : MessageRow -> MessageRow) (d d' : Database).
Hypothesis f_room : forall m, m_room_id (f m) = m_room_id m.
Hypothesis f_user : forall m, m_user_id (f m) = m_user_id m.
Hypothesis f_created : forall m, m_created_at (f m) = m_created_at m.
Hypothesis f_id : forall m, m_id (f m) = m_id m.
Hypothesis same_users : users d' = users d.
Hypothesis mapped : messages d' = map f (messages d).

Let g (r : MessageRow * UserRow) : MessageRow * UserRow := (f (fst r), snd r).

Lemma filter_room_map room l :
  List.filter (fun m => String.eqb (m_room_id m) room) (map f l)
  = map f (List.filter (fun m => String.eqb (m_room_id m) room) l).
Proof.
  induction l as [|m l IH]; simpl; [reflexivity|].
  rewrite f_room. destruct (String.eqb (m_room_id m) room); simpl; now rewrite IH.
Qed.

Lemma join_users_map l : join_users (map f l) d' = map g (join_users l d).
Proof.
  unfold join_users. rewrite same_users.
  induction l as [|m l IH]; simpl; [reflexivity|].
  rewrite map_app, IH, f_user. f_equal.
  rewrite map_map. reflexivity.
Qed.

(** A row-wise rewrite of the messages table that keeps the room, the
    author, the creation time and the id of every row does not change
    which messages a history read returns, nor their order. *)
Lemma select_history_frame room limit :
  select_history room limit d' = map g (select_history room limit d).
Proof.
  unfold select_history. rewrite mapped, filter_room_map, join_users_map.
  rewrite (sort_by_map newest_first g).
  - now rewrite firstn_map.
  - intros x y. unfold newest_first, g. simpl. now rewrite !f_created.
Qed.
End HistoryFrame.

(** C10: a successful deleteMessage keeps every row of the messages
    table.  The rows with the given id (there is at least one) get the
    content "[Message deleted]", the type "system" and editedAt set to the
    time of the call, their id, roomId, userId and createdAt being
    unchanged; all other rows are untouched.  A history read of any room
    therefore returns the same messages, in the same order, as before. *)
Theorem deleteMessage_is_soft id user isAdmin w :
  result_of (deleteMessage id user isAdmin w) = Ok tt ->
  messages_with_id id (db w) <> []
  /\ messages (db (run (deleteMessage id user isAdmin) w))
     = map (fun m =>
              if m_id m =? id
              then mkMessageRow (m_id m) (m_room_id m) (m_user_id m)
                                "[Message deleted]" "system" (m_metadata m)
                                (m_created_at m) (Some (now w))
              else m)
           (messages (db w))
  /\ (forall room limit,
        map (fun r => m_id (fst r))
            (select_history room limit
               (db (run (deleteMessage id user isAdmin) w)))
        = map (fun r => m_id (fst r)) (select_history room limit (db w))).
Proof.
  intros Hok. destruct (deleteMessage_db id user isAdmin w Hok) as [Hne Hdb].
  split; [exact Hne|]. rewrite Hdb. split; [reflexivity|].
  intros room limit.
  rewrite (select_history_frame
             (fun m => if m_id m =? id then deleted_at (now w) m else m)
             (db w)).
  - rewrite map_map. apply map_ext. intros [m u]. simpl.
    now destruct (m_id m =? id).
  - intros m. now destruct (m_id m =? id).
  - intros m. now destruct (m_id m =? id).
  - intros m. now destruct (m_id m =? id).
  - reflexivity.
  - reflexivity.
Qed.

Lemma deleteMessage_is_soft_witness :
  messages (db (run (deleteMessage 1 "alice" false) Sample.world))
  = [mkMessageRow 1 "general" "alice" "[Message deleted]" "system" (JObj [])
                  500 (Some 1000)]
  /\ map (fun r => m_id (fst r))
         (select_history "general" 50
            (db (run (deleteMessage 1 "alice" false) Sample.world)))
     = [1].
Proof.
  destruct (deleteMessage_is_soft 1 "alice" false Sample.world eq_refl)
    as (_ & Hrows & Hhist).
  split.
  - rewrite Hrows. reflexivity.
  - rewrite Hhist. reflexivity.
Defined.

(** * Further properties of the services *)

(** ** RedisService *)

Lemma is_undef_true v : is_undef v = true -> v = JUndef.
Proof. now destruct v. Qed.

Lemma presence_decode p :
  let data := presence_json p in
  mkUserPresence (up_userId p) (jget "status" data) (jget "currentRoom" data)
    (match jget "lastActivity" data with JDate t => t | _ => 0 end)
    (jget "connectionId" data) = p.
Proof.
  destruct p as [u s c t i]. unfold presence_json, json_fields. simpl.
  destruct (is_undef s) eqn:Es; destruct (is_undef c) eqn:Ec;
    destruct (is_undef i) eqn:Ei; simpl;
    repeat match goal with
           | H : is_undef _ = true |- _ => apply is_undef_true in H; subst
           end; reflexivity.
Qed.

Lemma redis_setEx_run key seconds v w :
  calls_ok 1 (faults w) = true ->
  redis_setEx key seconds v w =
    (Ok tt,
     with_redis
       (<[key := mkRedisEntry (RString v) (Some (now w + seconds * 1000))]>
          (redis w))
       (with_faults (tail (faults w)) w),
     [Redis (SetEx key seconds) true]).
Proof.
  intros H. unfold redis_setEx. now rewrite (collaborator_ok _ _ _ H).
Qed.

Lemma redis_get_run key w :
  calls_ok 1 (faults w) = true ->
  redis_get key w =
    match rlookup w key with
    | Some (RString v) =>
        (Ok (Some v), with_faults (tail (faults w)) w, [Redis (Get key) true])
    | Some (RSet _) =>
        (Throw wrongtype, with_faults (tail (faults w)) w,
         [Redis (Get key) false])
    | None => (Ok None, with_faults (tail (faults w)) w, [Redis (Get key) true])
    end.
Proof.
  intros H. unfold redis_get. rewrite (collaborator_ok _ _ _ H).
  change (rlookup (with_faults (tail (faults w)) w) key) with (rlookup w key).
  now destruct (rlookup w key) as [[v|s]|].
Qed.

(** X1: a presence record that was stored is read back unchanged until
    its 30 second time-to-live is over, and is gone from then on. *)
Theorem presence_round_trip p w t :
  calls_ok 2 (faults w) = true ->
  result_of (getUserPresence (up_userId p)
               (with_now t (run (setUserPresence p) w)))
  = Ok (if t <? now w + 30 * 1000 then Some p else None).
Proof.
  intros H2. pose proof (calls_ok_S _ _ H2) as H1.
  unfold run, setUserPresence. rewrite (redis_setEx_run _ _ _ _ H1).
  cbn [world_of fst snd]. unfold getUserPresence.
  rewrite result_bind.
  rewrite redis_get_run by (apply (calls_ok_tail 1 w H2)).
  unfold rlookup. cbn [redis with_redis with_now with_faults now].
  rewrite lookup_insert_eq. unfold live. cbn [re_expire re_val].
  destruct (t <? now w + 30 * 1000); cbn [result_of world_of fst snd ret];
    [|reflexivity].
  unfold ret. cbn. f_equal. f_equal. apply presence_decode.
Qed.

Lemma presence_round_trip_witness :
  result_of
    (getUserPresence "alice"
       (with_now 30999
          (run (setUserPresence
                  (mkUserPresence "alice" (JStr "away") JUndef 1000
                                  (JStr "sock-a")))
               Sample.world)))
  = Ok (Some (mkUserPresence "alice" (JStr "away") JUndef 1000 (JStr "sock-a")))
  /\ result_of
       (getUserPresence "alice"
          (with_now 31000
             (run (setUserPresence
                     (mkUserPresence "alice" (JStr "away") JUndef 1000
                                     (JStr "sock-a")))
                  Sample.world)))
     = Ok None.
Proof.
  split.
  - exact (presence_round_trip
             (mkUserPresence "alice" (JStr "away") JUndef 1000 (JStr "sock-a"))
             Sample.world 30999 eq_refl).
  - exact (presence_round_trip
             (mkUserPresence "alice" (JStr "away") JUndef 1000 (JStr "sock-a"))
             Sample.world 31000 eq_refl).
Defined.

(** X2: activity of a user who has no presence record writes nothing: it
    does not bring the record back.  When a record exists, activity sets
    its status to "online" whatever it was, stamps the current time and
    restarts the 30 second time-to-live, keeping the current room and the
    connection id. *)
Theorem updateUserActivity_refreshes user w :
  calls_ok 2 (faults w) = true ->
  match rlookup w (presence_key user) with
  | None =>
      redis (run (updateUserActivity user) w) = redis w
      /\ log_of (updateUserActivity user w)
         = [Redis (Get (presence_key user)) true]
  | Some (RString data) =>
      redis (run (updateUserActivity user) w) !! presence_key user
      = Some (mkRedisEntry
                (RString
                   (presence_json
                      (mkUserPresence user (JStr "online")
                         (jget "currentRoom" data) (now w)
                         (jget "connectionId" data))))
                (Some (now w + 30 * 1000)))
  | Some (RSet _) =>
      result_of (updateUserActivity user w) = Throw wrongtype
      /\ redis (run (updateUserActivity user) w) = redis w
  end.
Proof.
  intros H2. pose proof (calls_ok_S _ _ H2) as H1.
  unfold run, updateUserActivity, getUserPresence.
  pose proof (redis_get_run (presence_key user) w H1) as Eg.
  destruct (rlookup w (presence_key user)) as [[data|s]|] eqn:El.
  - erewrite (bind_step _ _ _ _ _ _ _ _ _
                (bind_step _ _ _ _ _ _ _ _ _ Eg eq_refl)).
    2:{ rewrite bind_gets. unfold setUserPresence.
        apply redis_setEx_run. apply (calls_ok_tail 1 w H2). }
    cbn [world_of fst snd redis with_redis with_faults now up_userId].
    apply lookup_insert_eq.
  - rewrite (bind_throw _ _ _ _ _ _ (bind_throw _ _ _ _ _ _ Eg)).
    split; reflexivity.
  - rewrite (bind_step _ _ _ _ _ _ _ _ _
               (bind_step _ _ _ _ _ _ _ _ _ Eg eq_refl) eq_refl).
    split; reflexivity.
Qed.

Lemma updateUserActivity_refreshes_witness :
  redis (run (updateUserActivity "alice") Sample.world) = redis Sample.world.
Proof.
  exact (proj1 (updateUserActivity_refreshes "alice" Sample.world eq_refl)).
Defined.

(** X3: a stored session is read back, with the user id and the time it
    was stored, for one hour; after that, or once it was removed, there is
    no session. *)
Theorem session_round_trip connectionId user w t :
  calls_ok 3 (faults w) = true ->
  result_of (getSession connectionId
               (with_now t (run (setSession connectionId user) w)))
  = Ok (if t <? now w + 3600 * 1000
        then Some (mkSessionInfo (JStr user) (now w)) else None)
  /\ result_of
       (getSession connectionId
          (with_now t
             (run (removeSession connectionId)
                  (run (setSession connectionId user) w))))
     = Ok None.
Proof.
  intros H3. pose proof (calls_ok_S _ _ H3) as H2.
  pose proof (calls_ok_S _ _ H2) as H1.
  pose proof (calls_ok_tail 1 w H2) as H1'.
  unfold run, setSession. rewrite bind_gets.
  rewrite (redis_setEx_run _ _ _ _ H1). cbn [world_of fst snd].
  split.
  - unfold getSession. rewrite result_bind.
    rewrite redis_get_run by exact H1'.
    unfold rlookup. cbn [redis with_redis with_now with_faults now].
    rewrite lookup_insert_eq. unfold live. cbn [re_expire re_val].
    destruct (t <? now w + 3600 * 1000); reflexivity.
  - unfold removeSession, redis_del.
    rewrite collaborator_ok by exact H1'.
    cbn [world_of fst snd]. unfold getSession. rewrite result_bind.
    rewrite redis_get_run.
    + unfold rlookup. cbn [redis with_redis with_now with_faults now foldr].
      rewrite lookup_delete_eq. reflexivity.
    + apply (calls_ok_tail 1). cbn [faults with_redis with_faults with_now].
      exact (calls_ok_tail 2 w H3).
Qed.

Lemma session_round_trip_witness :
  result_of (getSession "sock-a"
               (with_now 2000 (run (setSession "sock-a" "alice") Sample.world)))
  = Ok (Some (mkSessionInfo (JStr "alice") 1000)).
Proof.
  exact (proj1 (session_round_trip "sock-a" "alice" Sample.world 2000 eq_refl)).
Defined.

#[local] Set Warnings "-clear-no-such-hyp".

Lemma participants_key_inj r r' :
  participants_key r = participants_key r' -> r = r'.
Proof. unfold participants_key. intros H. cbn in H. now simplify_eq. Qed.

Lemma rlookup_alter (w : World) (f : RedisEntry -> RedisEntry) key k :
  (forall e, re_expire (f e) = re_expire e) ->
  rlookup (with_redis (alter f key (redis w)) w) k =
    if decide (k = key)
    then match redis w !! key with
         | Some e => if live (now w) e then Some (re_val (f e)) else None
         | None => None
         end
    else rlookup w k.
Proof.
  intros Hf. unfold rlookup. cbn [redis with_redis now].
  case_decide as E.
  - subst. rewrite lookup_alter_eq.
    destruct (redis w !! key) as [e|]; simpl; [|reflexivity].
    unfold live. now rewrite Hf.
  - rewrite lookup_alter_ne by congruence. reflexivity.
Qed.

(** The outcome of SADD and SREM on a room's participant set. *)
Lemma addUserToRoom_ok user room w :
  calls_ok 1 (faults w) = true ->
  set_or_absent w (participants_key room) ->
  exists w',
    addUserToRoom user room w
      = (Ok tt, w', [Redis (SAdd (participants_key room) user) true])
    /\ db w' = db w /\ now w' = now w /\ faults w' = tail (faults w)
    /\ forall room',
         participants_of w' room' =
           if decide (room' = room) then {[user]} ∪ participants_of w room
           else participants_of w room'.
Proof.
  intros Hc Hset. unfold addUserToRoom, redis_sAdd.
  rewrite (collaborator_ok _ _ _ Hc).
  change (rlookup (with_faults (tail (faults w)) w) (participants_key room))
    with (rlookup w (participants_key room)).
  unfold participants_of.
  destruct (rlookup w (participants_key room)) as [[v|s]|] eqn:El.
  - now destruct (Hset v).
  - eexists. split; [reflexivity|]. repeat split. intros room'.
    rewrite rlookup_alter by reflexivity.
    cbn [redis with_faults now].
    unfold rlookup in El.
    destruct (decide (room' = room)) as [->|Hne].
    + rewrite decide_True by reflexivity.
      destruct (redis w !! participants_key room) as [e|]; [|discriminate].
      destruct (live (now w) e); [|discriminate]. reflexivity.
    + rewrite decide_False by (intros E; apply Hne, participants_key_inj, E).
      reflexivity.
  - eexists. split; [reflexivity|]. repeat split. intros room'.
    unfold rlookup at 1.
    cbn [redis with_redis with_faults now].
    destruct (decide (room' = room)) as [->|Hne].
    + rewrite lookup_insert_eq. cbn. set_solver.
    + rewrite lookup_insert_ne
        by (intros E; apply Hne; symmetry; apply participants_key_inj, E).
      reflexivity.
Qed.

Lemma removeUserFromRoom_ok user room w :
  calls_ok 1 (faults w) = true ->
  set_or_absent w (participants_key room) ->
  exists w',
    removeUserFromRoom user room w
      = (Ok tt, w', [Redis (SRem (participants_key room) user) true])
    /\ db w' = db w /\ now w' = now w /\ faults w' = tail (faults w)
    /\ forall room',
         participants_of w' room' =
           if decide (room' = room) then participants_of w room ∖ {[user]}
           else participants_of w room'.
Proof.
  intros Hc Hset. unfold removeUserFromRoom, redis_sRem.
  rewrite (collaborator_ok _ _ _ Hc).
  change (rlookup (with_faults (tail (faults w)) w) (participants_key room))
    with (rlookup w (participants_key room)).
  unfold participants_of.
  destruct (rlookup w (participants_key room)) as [[v|s]|] eqn:El.
  - now destruct (Hset v).
  - eexists. split; [reflexivity|]. repeat split. intros room'.
    case_decide as Hempty.
    + unfold rlookup at 1. cbn [redis with_redis with_faults now].
      destruct (decide (room' = room)) as [->|Hne].
      * rewrite lookup_delete_eq. now rewrite Hempty.
      * rewrite lookup_delete_ne
          by (intros E; apply Hne; symmetry; apply participants_key_inj, E).
        reflexivity.
    + rewrite rlookup_alter by reflexivity.
      cbn [redis with_faults now]. unfold rlookup in El.
      destruct (decide (room' = room)) as [->|Hne].
      * rewrite decide_True by reflexivity.
        destruct (redis w !! participants_key room) as [e|]; [|discriminate].
        destruct (live (now w) e); [|discriminate].
        injection El as El. reflexivity.
      * rewrite decide_False
          by (intros E; apply Hne, participants_key_inj, E).
        reflexivity.
  - eexists. split; [reflexivity|]. repeat split. intros room'.
    change (rlookup (with_faults (tail (faults w)) w) (participants_key room'))
      with (rlookup w (participants_key room')).
    destruct (decide (room' = room)) as [->|Hne]; [|reflexivity].
    rewrite El. set_solver.
Qed.

(** X4: adding a user to a room's participant set adds exactly that user
    to exactly that room, and removing takes exactly that user out; both
    are no-ops when there is nothing to do (SADD and SREM semantics). *)
Theorem participants_add_remove user room w :
  calls_ok 1 (faults w) = true ->
  set_or_absent w (participants_key room) ->
  (forall room',
     participants_of (run (addUserToRoom user room) w) room' =
       if decide (room' = room) then {[user]} ∪ participants_of w room
       else participants_of w room')
  /\ (forall room',
        participants_of (run (removeUserFromRoom user room) w) room' =
          if decide (room' = room) then participants_of w room ∖ {[user]}
          else participants_of w room').
Proof.
  intros Hc Hset. split; intros room'.
  - destruct (addUserToRoom_ok user room w Hc Hset) as (w' & E & _ & _ & _ & H).
    unfold run. rewrite E. apply H.
  - destruct (removeUserFromRoom_ok user room w Hc Hset)
      as (w' & E & _ & _ & _ & H).
    unfold run. rewrite E. apply H.
Qed.

Lemma participants_add_remove_witness :
  participants_of (run (addUserToRoom "alice" "general") Sample.world) "general"
  = {["alice"]} ∪ participants_of Sample.world "general".
Proof.
  assert (Hset : set_or_absent Sample.world (participants_key "general"))
    by (intros v; vm_compute; discriminate).
  destruct (participants_add_remove "alice" "general" Sample.world
              eq_refl Hset) as [Hadd _].
  rewrite Hadd. apply decide_True. reflexivity.
Defined.

(** ** The rate limiter *)

Lemma append_inj_r (p a b : string) : p +:+ a = p +:+ b -> a = b.
Proof.
  induction p as [|c p IH]; simpl; intros H; [exact H|].
  injection H as H. now apply IH.
Qed.

Lemma limit_key_inj socketId a b :
  socketId +:+ ":" +:+ a = socketId +:+ ":" +:+ b -> a = b.
Proof. intros H. apply append_inj_r in H. now apply append_inj_r in H. Qed.

Lemma actionLimits_pos action : 1 <= actionLimits action.
Proof. unfold actionLimits. repeat case_match; lia. Qed.

(** X5: whatever the action and the time of the call, the limiter keeps
    every window's count at 1 or more, and at or below the limit of the
    window's action; only a window whose action is a property name
    inherited from Object.prototype has no limit, and its count may grow
    freely. *)
Theorem limiter_keeps_bounds socketId action t limits :
  limits_bounded socketId limits ->
  limits_bounded socketId (snd (createRateLimiter socketId action t limits)).
Proof.
  intros Hb. unfold createRateLimiter.
  assert (Hnew : forall c R,
            1 <= c ->
            (inherited action = false -> c <= actionLimits action) ->
            limits_bounded socketId
              (<[socketId +:+ ":" +:+ action := mkLimitEntry c R]> limits)).
  { intros c R Hc1 Hc2 a e He.
    destruct (decide (a = action)) as [->|Hne].
    - rewrite lookup_insert_eq in He. injection He as <-. now split.
    - rewrite lookup_insert_ne in He
        by (intros E; apply Hne; symmetry; eapply limit_key_inj, E).
      exact (Hb a e He). }
  pose proof (actionLimits_pos action) as Hpos.
  destruct (limits !! (socketId +:+ ":" +:+ action)) as [e|] eqn:El; simpl.
  - destruct (resetTime e <? t); simpl; [apply Hnew; lia|].
    destruct (Hb action e El) as [H1 H2].
    destruct (inherited action) eqn:Ei; cbn [negb andb].
    + cbn [snd]. apply Hnew; [lia | discriminate].
    + destruct (Z.leb_spec (actionLimits action) (count e)); cbn [snd];
        [exact Hb|].
      apply Hnew; [lia | intros _; lia].
  - apply Hnew; lia.
Qed.

Lemma limiter_keeps_bounds_witness :
  limits_bounded "sock-a"
    (snd (createRateLimiter "sock-a" "join_room" 1000 ∅)).
Proof.
  apply limiter_keeps_bounds. intros action e H.
  rewrite lookup_empty in H. discriminate.
Defined.

Lemma limiter_other_key socketId action t limits key :
  key <> socketId +:+ ":" +:+ action ->
  snd (createRateLimiter socketId action t limits) !! key = limits !! key.
Proof.
  intros Hne. unfold createRateLimiter.
  destruct (limits !! (socketId +:+ ":" +:+ action)) as [e|]; simpl.
  - destruct (resetTime e <? t); simpl;
      [now rewrite lookup_insert_ne by congruence|].
    destruct (negb (inherited action) && (actionLimits action <=? count e));
      simpl; [reflexivity|].
    now rewrite lookup_insert_ne by congruence.
  - now rewrite lookup_insert_ne by congruence.
Qed.

(** X6: a rate-limit check, accepted or not, leaves the windows of the
    connection's other actions and the limiters of all other connections
    as they were. *)
Theorem limiter_windows_independent socket action w :
  (forall action',
     action' <> action ->
     limits_of (run (checkRateLimit socket action) w) (sock_id socket)
       !! (sock_id socket +:+ ":" +:+ action')
     = limits_of w (sock_id socket) !! (sock_id socket +:+ ":" +:+ action'))
  /\ (forall socketId',
        socketId' <> sock_id socket ->
        limits_of (run (checkRateLimit socket action) w) socketId'
        = limits_of w socketId').
Proof.
  assert (E : limiters (run (checkRateLimit socket action) w) =
              <[sock_id socket :=
                  snd (createRateLimiter (sock_id socket) action (now w)
                         (limits_of w (sock_id socket)))]> (limiters w)).
  { unfold run. now rewrite checkRateLimit_run. }
  split.
  - intros action' Hne. unfold limits_of at 1. rewrite E, lookup_insert_eq.
    cbn [default from_option id].
    apply limiter_other_key. intros E'. apply Hne. eapply limit_key_inj, E'.
  - intros socketId' Hne. unfold limits_of. rewrite E.
    now rewrite lookup_insert_ne by congruence.
Qed.

Lemma calls_in_window socketId action R ts : forall limits c,
  limits !! (socketId +:+ ":" +:+ action) = Some (mkLimitEntry c R) ->
  Forall (fun t => t <= R) ts ->
  limiter_calls socketId action ts limits
  = map (fun i => inherited action || (c + Z.of_nat i <? actionLimits action))
        (seq 0 (length ts)).
Proof.
  induction ts as [|t ts IH]; intros limits c E Ht; [reflexivity|].
  apply Forall_cons in Ht as [Ht1 Ht2].
  cbn [limiter_calls length seq map].
  unfold createRateLimiter at 1 2. rewrite E. cbn [resetTime count].
  destruct (Z.ltb_spec R t); [lia|].
  rewrite Z.add_0_r.
  destruct (inherited action) eqn:Ei; cbn [negb andb orb fst snd].
  { f_equal.
    rewrite (IH _ (c + 1)) by (try apply lookup_insert_eq; exact Ht2).
    rewrite <- seq_shift, map_map. apply map_ext. intros i.
    reflexivity. }
  destruct (Z.leb_spec (actionLimits action) c) as [Hfull|Hroom];
    cbn [fst snd].
  - destruct (Z.ltb_spec c (actionLimits action)); [lia|]. f_equal.
    rewrite (IH limits c E Ht2). rewrite <- seq_shift, map_map.
    apply map_ext. intros i. cbn [orb].
    destruct (Z.ltb_spec (c + Z.of_nat i) (actionLimits action));
      destruct (Z.ltb_spec (c + Z.of_nat (S i)) (actionLimits action));
      try reflexivity; lia.
  - destruct (Z.ltb_spec c (actionLimits action)); [|lia]. f_equal.
    rewrite (IH _ (c + 1)) by (try apply lookup_insert_eq; exact Ht2).
    rewrite <- seq_shift, map_map. apply map_ext. intros i.
    cbn [orb].
    replace (c + 1 + Z.of_nat i) with (c + Z.of_nat (S i)) by lia.
    reflexivity.
Qed.

(** X7: for every action, when a call opens a window (none was open, or
    the last one has elapsed), the calls made inside that window are
    answered in order: the i-th one (counting from 0) is allowed exactly
    when i is below the limit of the action, 30 for send_message, 10 for
    join_room, 60 for update_presence, 20 for start_typing, 100 for any
    other action, except that an action whose name is inherited from
    Object.prototype (constructor, toString, ...) has no limit: every one
    of its calls is allowed. *)
Theorem limiter_allows_up_to_the_limit socketId action t0 ts limits :
  match limits !! (socketId +:+ ":" +:+ action) with
  | None => True
  | Some e => resetTime e < t0
  end ->
  Forall (fun t => t <= t0 + 60000) ts ->
  limiter_calls socketId action (t0 :: ts) limits
  = map (fun i => inherited action || (Z.of_nat i <? actionLimits action))
        (seq 0 (S (length ts))).
Proof.
  intros Hopen Ht. cbn [limiter_calls seq map].
  pose proof (actionLimits_pos action) as Hpos.
  assert (E : createRateLimiter socketId action t0 limits =
                (true,
                 <[socketId +:+ ":" +:+ action := mkLimitEntry 1 (t0 + 60000)]>
                   limits)).
  { unfold createRateLimiter.
    destruct (limits !! (socketId +:+ ":" +:+ action)) as [e|];
      [|reflexivity].
    destruct (Z.ltb_spec (resetTime e) t0); [reflexivity | lia]. }
  rewrite E. cbn [fst snd].
  destruct (Z.ltb_spec (Z.of_nat 0) (actionLimits action)); [|lia].
  rewrite orb_true_r. f_equal.
  rewrite (calls_in_window socketId action (t0 + 60000) ts _ 1)
    by (try apply lookup_insert_eq; exact Ht).
  rewrite <- seq_shift, map_map. apply map_ext. intros i.
  replace (1 + Z.of_nat i) with (Z.of_nat (S i)) by lia. reflexivity.
Qed.

Lemma limiter_allows_up_to_the_limit_witness :
  limiter_calls "sock-a" "join_room" (1000 :: repeat 2000 10) ∅
  = repeat true 10 ++ [false]
  /\ limiter_calls "sock-a" "constructor" (1000 :: repeat 2000 100) ∅
     = repeat true 101.
Proof.
  assert (Hin : forall n, Forall (fun t => t <= 1000 + 60000) (repeat 2000 n)).
  { intros n. apply List.Forall_forall. intros t H. apply repeat_spec in H. lia. }
  split.
  - rewrite (limiter_allows_up_to_the_limit "sock-a" "join_room" 1000
               (repeat 2000 10) ∅);
      [reflexivity | now rewrite lookup_empty | exact (Hin 10%nat)].
  - rewrite (limiter_allows_up_to_the_limit "sock-a" "constructor" 1000
               (repeat 2000 100) ∅);
      [reflexivity | now rewrite lookup_empty | exact (Hin 100%nat)].
Defined.

(** ** Typing indicators over time *)











(** ** RoomService *)

Lemma filter_cons_existsb {A} (f : A -> bool) l x xs :
  List.filter f l = x :: xs -> existsb f l = true.
Proof.
  intros E. destruct (existsb f l) eqn:Ex; [reflexivity|].
  now rewrite (filter_existsb_false _ _ Ex) in E.
Qed.

(** A stranger asking for a private room: the two lookups, nothing else. *)
Lemma joinRoom_private_run user room role w r rs :
  calls_ok 2 (faults w) = true ->
  memberships_of user room (db w) = [] ->
  List.filter (fun r => String.eqb (r_id r) room) (chat_rooms (db w))
    = r :: rs ->
  r_type r = "private" ->
  joinRoom user room role w
  = (Throw "Cannot join private room without invitation",
     with_faults (tail (tail (faults w))) w,
     [Sql (SelectMembership user room) true; Sql (SelectRoomType room) true]).
Proof.
  intros H2 Hm Hr Hp. pose proof (calls_ok_S _ _ H2) as H1.
  pose proof (calls_ok_tail _ _ H2) as H1'.
  unfold joinRoom.
  rewrite (bind_ok _ _ _ _ _ _ (sql_select_ok _ _ _ H1)), Hm.
  rewrite (bind_ok _ _ _ _ _ _ (sql_select_ok _ _ _ H1')).
  cbn [db with_faults]. rewrite Hr. cbn [map]. rewrite Hp.
  reflexivity.
Qed.

(** X10: a user who is not a member cannot join a private room: the call
    fails with "Cannot join private room without invitation" and neither
    the database nor Redis is changed. *)
Theorem joinRoom_private_rejected user room role w r rs :
  calls_ok 2 (faults w) = true ->
  memberships_of user room (db w) = [] ->
  List.filter (fun r => String.eqb (r_id r) room) (chat_rooms (db w))
    = r :: rs ->
  r_type r = "private" ->
  result_of (joinRoom user room role w)
    = Throw "Cannot join private room without invitation"
  /\ db (run (joinRoom user room role) w) = db w
  /\ redis (run (joinRoom user room role) w) = redis w.
Proof.
  intros H2 Hm Hr Hp. unfold run.
  rewrite (joinRoom_private_run _ _ _ _ _ _ H2 Hm Hr Hp). auto.
Qed.

Lemma joinRoom_private_rejected_witness :
  result_of (joinRoom "bob" "private-1" "member" Sample.world)
    = Throw "Cannot join private room without invitation"
  /\ db (run (joinRoom "bob" "private-1" "member") Sample.world)
     = db Sample.world.
Proof.
  destruct (joinRoom_private_rejected "bob" "private-1" "member" Sample.world
              _ _ eq_refl eq_refl eq_refl eq_refl) as (Hr & Hd & _).
  split; [exact Hr | exact Hd].
Defined.

(** X11: a first join of an existing room that is not private, by an
    existing user with a valid role, succeeds: exactly one membership row
    is appended, carrying the user, the room, the requested role and the
    current time, and the user is added to the room's participant set in
    Redis. *)
Theorem joinRoom_fresh user room role w r rs :
  calls_ok 5 (faults w) = true ->
  memberships_of user room (db w) = [] ->
  List.filter (fun r => String.eqb (r_id r) room) (chat_rooms (db w))
    = r :: rs ->
  r_type r <> "private" ->
  user_exists user (db w) = true ->
  valid_role role = true ->
  set_or_absent w (participants_key room) ->
  let row := mkMembershipRow (room_memberships_id_seq (db w) + 1) user room
                             role (now w) (now w) true in
  result_of (joinRoom user room role w) = Ok row
  /\ room_memberships (db (run (joinRoom user room role) w))
     = room_memberships (db w) ++ [row]
  /\ participants_of (run (joinRoom user room role) w) room
     = {[user]} ∪ participants_of w room.
Proof.
  intros H5 Hm Hr Hp Hu Hv Hset row.
  pose proof (calls_ok_S _ _ H5) as H4. pose proof (calls_ok_S _ _ H4) as H3.
  pose proof (calls_ok_S _ _ H3) as H2. pose proof (calls_ok_S _ _ H2) as H1.
  unfold run, joinRoom.
  rewrite (bind_ok _ _ _ _ _ _ (sql_select_ok _ _ _ H1)), Hm.
  set (w1 := with_faults (tail (faults w)) w).
  assert (F1 : calls_ok 4 (faults w1) = true) by apply (calls_ok_tail _ _ H5).
  rewrite (bind_ok _ _ _ _ _ _
             (sql_select_ok _ _ _ (calls_ok_S _ _ (calls_ok_S _ _
                                     (calls_ok_S _ _ F1))))).
  change (db w1) with (db w). rewrite Hr. cbn [map].
  apply String.eqb_neq in Hp. rewrite Hp.
  set (w2 := with_faults (tail (faults w1)) w1).
  assert (F2 : calls_ok 3 (faults w2) = true) by apply (calls_ok_tail _ _ F1).
  assert (E3 : sql (InsertMembership user room role)
                   (insert_membership user room role) w2
               = (Ok row,
                  with_db
                    (with_memberships (room_memberships (db w) ++ [row])
                       (mkDatabase (users (db w)) (chat_rooms (db w))
                          (messages (db w)) (room_memberships (db w))
                          (messages_id_seq (db w))
                          (room_memberships_id_seq (db w) + 1)))
                    (with_faults (tail (faults w2)) w2),
                  [Sql (InsertMembership user room role) true])).
  { rewrite (sql_ok _ _ _ (calls_ok_S _ _ (calls_ok_S _ _ F2))).
    change (db w2) with (db w). change (now w2) with (now w).
    unfold insert_membership. rewrite Hu.
    unfold room_exists. rewrite (filter_cons_existsb _ _ _ _ Hr), Hv, Hm.
    reflexivity. }
  rewrite (bind_ok _ _ _ _ _ _ E3).
  match goal with
  | |- context [bind (addUserToRoom user room) _ ?w0] => set (w3 := w0)
  end.
  assert (F3 : calls_ok 2 (faults w3) = true) by apply (calls_ok_tail _ _ F2).
  assert (Hset3 : set_or_absent w3 (participants_key room)) by exact Hset.
  destruct (addUserToRoom_ok user room w3 (calls_ok_S _ _ F3) Hset3)
    as (w4 & E4 & Hdb4 & Hnow4 & Hf4 & Hp4).
  rewrite (bind_ok _ _ _ _ _ _ E4).
  assert (F4 : calls_ok 1 (faults w4) = true).
  { rewrite Hf4. apply (calls_ok_tail _ _ F3). }
  assert (E5 : sql (TouchRoom room) (touch_room room) w4
               = (Ok tt,
                  with_db (snd (touch_room room (db w4) (now w4)))
                          (with_faults (tail (faults w4)) w4),
                  [Sql (TouchRoom room) true])).
  { rewrite (sql_ok _ _ _ F4). reflexivity. }
  rewrite (bind_ok _ _ _ _ _ _ E5).
  cbn [touch_room result_of world_of log_of fst snd ret].
  split; [reflexivity|]. split.
  - cbn [db with_db room_memberships with_chat_rooms]. rewrite Hdb4.
    reflexivity.
  - unfold participants_of at 1, rlookup.
    cbn [redis with_db with_faults now].
    specialize (Hp4 room). rewrite decide_True in Hp4 by reflexivity.
    unfold participants_of at 1, rlookup in Hp4. rewrite Hp4.
    reflexivity.
Qed.

Lemma joinRoom_fresh_witness :
  result_of (joinRoom "bob" "general" "member" Sample.world)
    = Ok (mkMembershipRow 4 "bob" "general" "member" 1000 1000 true)
  /\ participants_of (run (joinRoom "bob" "general" "member") Sample.world)
       "general" = {["bob"]} ∪ participants_of Sample.world "general".
Proof.
  assert (Hp : "public" <> "private") by discriminate.
  assert (Hset : set_or_absent Sample.world (participants_key "general"))
    by (intros v; vm_compute; discriminate).
  destruct (joinRoom_fresh "bob" "general" "member" Sample.world _ _
              eq_refl eq_refl eq_refl Hp eq_refl eq_refl Hset)
    as (Hr & _ & Hparts).
  split; [exact Hr | exact Hparts].
Defined.

Lemma Inv_db_sql {A} (P : Database -> Prop) q
    (run : Database -> Z -> Result A * Database) :
  (forall d t, P d -> P (snd (run d t))) ->
  Inv (fun w => P (db w)) (sql q run).
Proof.
  intros H. unfold sql. apply Inv_collaborator.
  - intros w Hw. exact Hw.
  - intros w Hw. specialize (H (db w) (now w) Hw).
    destruct (run (db w) (now w)) as [r d]. exact H.
Qed.

Lemma Inv_db_select {A} (P : Database -> Prop) q (rows : Database -> A) :
  Inv (fun w => P (db w)) (sql_select q rows).
Proof. apply Inv_db_sql. intros d t Hd. exact Hd. Qed.

Lemma Inv_db_sAdd (P : Database -> Prop) user room :
  Inv (fun w => P (db w)) (addUserToRoom user room).
Proof. preserves. Qed.

Lemma Inv_db_sRem (P : Database -> Prop) user room :
  Inv (fun w => P (db w)) (removeUserFromRoom user room).
Proof. preserves. Qed.

Lemma NoDup_map_filter {A B} (g : A -> B) (f : A -> bool) (l : list A) :
  NoDup (map g l) -> NoDup (map g (List.filter f l)).
Proof.
  induction l as [|x l IH]; simpl; [auto|].
  intros H. apply NoDup_cons in H as [Hx Hl].
  destruct (f x); simpl; [|auto].
  apply NoDup_cons. split; [|auto].
  intros Hin. apply Hx.
  apply list_elem_of_fmap in Hin as (y & -> & Hy).
  apply list_elem_of_fmap. exists y. split; [reflexivity|].
  apply list_elem_of_In. apply list_elem_of_In, List.filter_In in Hy.
  tauto.
Qed.

Lemma insert_membership_unique user room role d t :
  unique_memberships d ->
  unique_memberships (snd (insert_membership user room role d t)).
Proof.
  unfold unique_memberships, insert_membership. intros Hd.
  destruct (user_exists user d); [|exact Hd].
  destruct (room_exists room d); [|exact Hd].
  destruct (valid_role role); [|exact Hd].
  destruct (memberships_of user room d) as [|m ms] eqn:Em; [|exact Hd].
  cbn [negb length Nat.eqb snd room_memberships with_memberships].
  rewrite map_app. apply NoDup_app. split; [exact Hd|]. split.
  - intros k Hk Hin. cbn in Hin. apply list_elem_of_singleton in Hin.
    subst k. apply list_elem_of_fmap in Hk as (m & Hm & Hin).
    assert (Hf : In m (memberships_of user room d)).
    { apply List.filter_In. split; [now apply list_elem_of_In|].
      injection Hm as Hu Hr. rewrite <- Hu, <- Hr.
      now rewrite !String.eqb_refl. }
    now rewrite Em in Hf.
  - apply NoDup_singleton.
Qed.

Lemma joinRoom_unique user room role :
  Inv (fun w => unique_memberships (db w)) (joinRoom user room role).
Proof.
  unfold joinRoom.
  apply Inv_bind; [apply Inv_db_select|]. intros [|m ms]; [|apply Inv_ret].
  apply Inv_bind; [apply Inv_db_select|]. intros [|type ?]; [apply Inv_throw|].
  destruct (String.eqb type "private"); [apply Inv_throw|].
  apply Inv_bind.
  { apply Inv_db_sql. intros d t. apply insert_membership_unique. }
  intros ?. apply Inv_bind; [apply Inv_db_sAdd|].
  intros ?. apply Inv_bind; [|intros; apply Inv_ret].
  apply (Inv_db_sql unique_memberships). intros d t Hd. exact Hd.
Qed.

Lemma transaction_unique {A} (body : M A) :
  Inv (fun w => unique_memberships (db w)) body ->
  Inv (fun w => unique_memberships (db w)) (transaction body).
Proof.
  intros Hbody w Hw. unfold transaction. rewrite bind_gets.
  apply (Inv_try (fun w => unique_memberships (db w))); [| |exact Hw].
  - apply Inv_bind; [apply (Inv_db_sql unique_memberships); auto|].
    intros ?. apply Inv_bind; [exact Hbody|].
    intros ?. apply Inv_bind; [|intros; apply Inv_ret].
    apply (Inv_db_sql unique_memberships); auto.
  - intros e. apply Inv_bind.
    + apply Inv_modify. intros w0 _. exact Hw.
    + intros ?. apply Inv_bind; [|intros; apply Inv_throw].
      apply (Inv_db_sql unique_memberships); auto.
Qed.

Lemma leaveRoom_unique user room :
  Inv (fun w => unique_memberships (db w)) (leaveRoom user room).
Proof.
  unfold leaveRoom. apply transaction_unique.
  apply Inv_bind; [apply Inv_db_select|]. intros [|row ?]; [apply Inv_throw|].
  apply Inv_bind.
  { destruct (String.eqb (rm_role row) "owner"); [|apply Inv_ret].
    apply Inv_bind; [apply Inv_db_select|]. intros [|o ?]; [apply Inv_ret|].
    apply Inv_bind.
    - apply (Inv_db_sql unique_memberships). intros d t Hd.
      unfold unique_memberships in *.
      cbn [snd room_memberships with_memberships].
      rewrite map_map.
      erewrite map_ext; [exact Hd|].
      intros m. cbv beta. now destruct (_ && _).
    - intros ?. apply (Inv_db_sql unique_memberships). intros d t Hd.
      exact Hd. }
  intros ?. apply Inv_bind; [|intros; apply Inv_db_sRem].
  apply (Inv_db_sql unique_memberships). intros d t Hd.
  unfold unique_memberships in *.
  cbn [snd room_memberships with_memberships].
  now apply NoDup_map_filter.
Qed.

(** X12: no user ever holds two memberships of one room: when the
    membership table has at most one row per (user, room) pair, it still
    has after [joinRoom] and after [leaveRoom], whichever of their calls
    fail. *)
Theorem memberships_stay_unique user room role w :
  unique_memberships (db w) ->
  unique_memberships (db (run (joinRoom user room role) w))
  /\ unique_memberships (db (run (leaveRoom user room) w)).
Proof.
  intros Hw. split.
  - now apply joinRoom_unique.
  - now apply leaveRoom_unique.
Qed.

Lemma memberships_stay_unique_witness :
  unique_memberships
    (db (run (joinRoom "carol" "general" "member") Sample.world))
  /\ unique_memberships (db (run (leaveRoom "carol" "general") Sample.world)).
Proof.
  apply memberships_stay_unique.
  unfold unique_memberships. apply (bool_decide_unpack _). vm_compute. exact I.
Defined.

Lemma transaction_throws {A} (body : M A) w msg :
  result_of (transaction body w) = Throw msg ->
  tables (db (world_of (transaction body w))) = tables (db w).
Proof.
  unfold transaction. rewrite bind_gets. unfold try_catch.
  destruct (bind _ _ w) as [[[a|e] w1] l1]; [discriminate|].
  intros _. rewrite bind_modify. unfold bind, sql, collaborator, throw.
  cbn [faults with_db].
  destruct (faults w1) as [|[m|] fs]; reflexivity.
Qed.

(** X13: leaving a room is all or nothing for the database.  Whenever
    [leaveRoom] fails, for whatever reason and at whatever step (the user
    is no member, a statement is rejected, COMMIT fails), the four tables
    are exactly as before the call: a transfer of ownership that was
    already made is undone too. *)
Theorem leaveRoom_all_or_nothing user room w msg :
  result_of (leaveRoom user room w) = Throw msg ->
  tables (db (run (leaveRoom user room) w)) = tables (db w).
Proof. apply transaction_throws. Qed.

Lemma leaveRoom_all_or_nothing_witness :
  tables (db (run (leaveRoom "alice" "private-1")
                  (with_faults [None; None; None; Some "connection lost"]
                               Sample.world)))
  = tables Sample.database.
Proof.
  apply (leaveRoom_all_or_nothing "alice" "private-1"
           (with_faults [None; None; None; Some "connection lost"]
                        Sample.world) "connection lost").
  reflexivity.
Defined.

Lemma calls_ok_le n m fs :
  (m <= n)%nat -> calls_ok n fs = true -> calls_ok m fs = true.
Proof.
  induction 1 as [|n Hle IH]; [auto|].
  intros H. apply IH. now apply calls_ok_S.
Qed.

Lemma transaction_ok {A} (body : M A) w a w1 l1 :
  calls_ok 1 (faults w) = true ->
  body (with_faults (tail (faults w)) w) = (Ok a, w1, l1) ->
  calls_ok 1 (faults w1) = true ->
  transaction body w
  = (Ok a, with_faults (tail (faults w1)) w1,
     Sql SqlBegin true :: l1 ++ [Sql SqlCommit true]).
Proof.
  intros H0 Hb H1. unfold transaction. rewrite bind_gets. unfold try_catch.
  assert (E0 : sql SqlBegin (fun d _ => (Ok tt, d)) w
               = (Ok tt, with_faults (tail (faults w)) w, [Sql SqlBegin true])).
  { rewrite (sql_ok _ _ _ H0). destruct w; reflexivity. }
  assert (E1 : sql SqlCommit (fun d _ => (Ok tt, d)) w1
               = (Ok tt, with_faults (tail (faults w1)) w1,
                  [Sql SqlCommit true])).
  { rewrite (sql_ok _ _ _ H1). destruct w1; reflexivity. }
  rewrite (bind_ok _ _ _ _ _ _ E0), (bind_ok _ _ _ _ _ _ Hb),
          (bind_ok _ _ _ _ _ _ E1).
  reflexivity.
Qed.

Lemma filter_twice_none {A} (f : A -> bool) (l : list A) :
  List.filter f (List.filter (fun x => negb (f x)) l) = [].
Proof.
  induction l as [|x l IH]; simpl; [reflexivity|].
  destruct (f x) eqn:E; simpl; [exact IH|]. now rewrite E.
Qed.

Lemma filter_by_key {A K} (key : A -> K) (p : K -> bool) (l l' : list A) :
  map key l = map key l' ->
  map key (List.filter (fun x => p (key x)) l)
  = map key (List.filter (fun x => p (key x)) l').
Proof.
  revert l'. induction l as [|x l IH]; intros [|y l'] E; try discriminate;
    [reflexivity|].
  injection E as Ex El. simpl. rewrite Ex.
  destruct (p (key y)); simpl; rewrite ?Ex; now rewrite (IH _ El).
Qed.

Lemma participants_of_ext w w' room :
  redis w' = redis w -> now w' = now w ->
  participants_of w' room = participants_of w room.
Proof. intros Hr Hn. unfold participants_of, rlookup. now rewrite Hr, Hn. Qed.

(** One SQL statement that cannot fail, given that it reaches the
    database. *)
Ltac sql_bind H :=
  match goal with
  | |- context [bind (sql ?q ?f) _ ?wx] =>
      let E := fresh "E" in
      assert (E : sql q f wx
                  = (Ok tt,
                     with_db (snd (f (db wx) (now wx)))
                             (with_faults (tail (faults wx)) wx),
                     [Sql q true]))
        by (rewrite (sql_ok q f wx H); reflexivity);
      rewrite (bind_ok _ _ _ _ _ _ E); clear E
  end.

Ltac sql_last H :=
  match goal with
  | |- context [sql ?q ?f ?wx] =>
      let E := fresh "E" in
      assert (E : sql q f wx
                  = (Ok tt,
                     with_db (snd (f (db wx) (now wx)))
                             (with_faults (tail (faults wx)) wx),
                     [Sql q true]))
        by (rewrite (sql_ok q f wx H); reflexivity);
      rewrite E; clear E
  end.

(** What a successful [leaveRoom] leaves behind.  [successor] is the
    member the ownership goes to, if the leaver owns the room and anyone
    qualifies. *)
Lemma leaveRoom_run user room w row rest :
  calls_ok 8 (faults w) = true ->
  memberships_of user room (db w) = row :: rest ->
  set_or_absent w (participants_key room) ->
  let successor :=
    if String.eqb (rm_role row) "owner"
    then head (sort_by new_owner_first
                 (List.filter
                    (fun m =>
                       negb (String.eqb (rm_user_id m) user)
                       && (String.eqb (rm_role m) "admin"
                           || String.eqb (rm_role m) "member"))
                    (room_members room (db w))))
    else None in
  exists w' l,
    leaveRoom user room w = (Ok tt, w', l)
    /\ room_memberships (db w')
       = List.filter (fun m => negb (is_membership_of user room m))
           match successor with
           | Some o =>
               map (fun m =>
                      if String.eqb (rm_user_id m) (rm_user_id o)
                         && String.eqb (rm_room_id m) room
                      then mkMembershipRow (rm_id m) (rm_user_id m)
                             (rm_room_id m) "owner" (rm_joined_at m)
                             (rm_last_read_at m) (rm_notifications m)
                      else m)
                   (room_memberships (db w))
           | None => room_memberships (db w)
           end
    /\ chat_rooms (db w')
       = match successor with
         | Some o =>
             map (fun r =>
                    if String.eqb (r_id r) room
                    then mkRoomRow (r_id r) (r_name r) (r_description r)
                           (r_type r) (Some (rm_user_id o)) (r_settings r)
                           (r_created_at r) (now w)
                    else r)
                 (chat_rooms (db w))
         | None => chat_rooms (db w)
         end
    /\ (forall room',
          participants_of w' room' =
            if decide (room' = room) then participants_of w room ∖ {[user]}
            else participants_of w room').
Proof.
  intros H8 Hm Hset successor. unfold leaveRoom.
  set (w0 := with_faults (tail (faults w)) w).
  assert (F0 : calls_ok 7 (faults w0) = true) by apply (calls_ok_tail _ _ H8).
  match goal with
  | |- context [transaction ?b] => set (body := b)
  end.
  assert (Hb : exists w1 l1,
    body w0 = (Ok tt, w1, l1)
    /\ calls_ok 1 (faults w1) = true
    /\ room_memberships (db w1)
       = List.filter (fun m => negb (is_membership_of user room m))
           match successor with
           | Some o =>
               map (fun m =>
                      if String.eqb (rm_user_id m) (rm_user_id o)
                         && String.eqb (rm_room_id m) room
                      then mkMembershipRow (rm_id m) (rm_user_id m)
                             (rm_room_id m) "owner" (rm_joined_at m)
                             (rm_last_read_at m) (rm_notifications m)
                      else m)
                   (room_memberships (db w))
           | None => room_memberships (db w)
           end
    /\ chat_rooms (db w1)
       = match successor with
         | Some o =>
             map (fun r =>
                    if String.eqb (r_id r) room
                    then mkRoomRow (r_id r) (r_name r) (r_description r)
                           (r_type r) (Some (rm_user_id o)) (r_settings r)
                           (r_created_at r) (now w)
                    else r)
                 (chat_rooms (db w))
         | None => chat_rooms (db w)
         end
    /\ forall room',
         participants_of w1 room' =
           if decide (room' = room) then participants_of w room ∖ {[user]}
           else participants_of w room').
  { subst body. cbv beta.
    rewrite (bind_ok _ _ _ _ _ _
               (sql_select_ok _ _ _ (calls_ok_le 7 1 _ ltac:(lia) F0))).
    change (db w0) with (db w). rewrite Hm.
    set (w1 := with_faults (tail (faults w0)) w0).
    assert (F1 : calls_ok 6 (faults w1) = true)
      by apply (calls_ok_tail _ _ F0).
    match goal with
    | |- context [bind ?p _ w1] => set (pre := p)
    end.
    assert (Hpre : exists w2 l2,
      pre w1 = (Ok tt, w2, l2)
      /\ calls_ok 3 (faults w2) = true
      /\ redis w2 = redis w /\ now w2 = now w
      /\ room_memberships (db w2)
         = match successor with
           | Some o =>
               map (fun m =>
                      if String.eqb (rm_user_id m) (rm_user_id o)
                         && String.eqb (rm_room_id m) room
                      then mkMembershipRow (rm_id m) (rm_user_id m)
                             (rm_room_id m) "owner" (rm_joined_at m)
                             (rm_last_read_at m) (rm_notifications m)
                      else m)
                   (room_memberships (db w))
           | None => room_memberships (db w)
           end
      /\ chat_rooms (db w2)
         = match successor with
           | Some o =>
               map (fun r =>
                      if String.eqb (r_id r) room
                      then mkRoomRow (r_id r) (r_name r) (r_description r)
                             (r_type r) (Some (rm_user_id o)) (r_settings r)
                             (r_created_at r) (now w)
                      else r)
                   (chat_rooms (db w))
           | None => chat_rooms (db w)
           end).
    { subst pre successor. destruct (String.eqb (rm_role row) "owner").
      - rewrite (bind_ok _ _ _ _ _ _
                   (sql_select_ok _ _ _ (calls_ok_le 6 1 _ ltac:(lia) F1))).
        set (w2 := with_faults (tail (faults w1)) w1).
        assert (F2 : calls_ok 5 (faults w2) = true)
          by apply (calls_ok_tail _ _ F1).
        change (db w1) with (db w).
        destruct (sort_by new_owner_first _) as [|o os];
          cbn [firstn head].
        + eexists _, _. split; [reflexivity|].
          split; [exact (calls_ok_le 5 3 _ ltac:(lia) F2)|]. auto.
        + set (w3 := with_faults (tail (faults w2)) w2).
          assert (F3 : calls_ok 4 (faults w3) = true)
            by apply (calls_ok_tail _ _ F2).
          assert (F4 : calls_ok 3 (faults (with_faults (tail (faults w3)) w3))
                       = true) by apply (calls_ok_tail _ _ F3).
          sql_bind (calls_ok_le 5 1 _ ltac:(lia) F2).
          cbn [result_of world_of log_of fst snd].
          sql_last (calls_ok_le 4 1 _ ltac:(lia) F3).
          eexists _, _. split; [reflexivity|].
          split; [exact F4|]. split; [reflexivity|]. split; [reflexivity|].
          split; reflexivity.
      - eexists _, _. split; [reflexivity|].
        split; [exact (calls_ok_le 6 3 _ ltac:(lia) F1)|]. auto. }
    destruct Hpre as (w2 & l2 & Epre & F2 & Hr2 & Hn2 & Hm2 & Hc2).
    rewrite (bind_ok _ _ _ _ _ _ Epre).
    sql_bind (calls_ok_le 3 1 _ ltac:(lia) F2). cbn [snd].
    match goal with
    | |- context [removeUserFromRoom user room ?wx] => set (w3 := wx)
    end.
    assert (F3 : calls_ok 2 (faults w3) = true)
      by apply (calls_ok_tail _ _ F2).
    assert (Hset3 : set_or_absent w3 (participants_key room)).
    { intros v. unfold rlookup. cbn [redis now w3 with_db with_faults].
      rewrite Hr2, Hn2. apply Hset. }
    destruct (removeUserFromRoom_ok user room w3
                (calls_ok_le 2 1 _ ltac:(lia) F3) Hset3)
      as (w4 & E4 & Hdb4 & Hnow4 & Hf4 & Hp4).
    rewrite E4. cbn [result_of world_of log_of fst snd].
    eexists _, _. split; [reflexivity|]. split.
    { rewrite Hf4. apply (calls_ok_tail _ _ F3). }
    rewrite Hdb4.
    cbn [db w3 with_db with_faults room_memberships with_memberships
            chat_rooms].
    rewrite Hm2, Hc2. split; [reflexivity|]. split; [reflexivity|].
    intros room'. rewrite Hp4.
    rewrite !(participants_of_ext w w3) by assumption. reflexivity. }
  destruct Hb as (w1 & l1 & Eb & F1 & Hrows & Hrooms & Hparts).
  rewrite (transaction_ok _ _ _ _ _ (calls_ok_le 8 1 _ ltac:(lia) H8) Eb F1).
  eexists _, _. split; [reflexivity|].
  split; [exact Hrows|]. split; [exact Hrooms|].
  intros room'. rewrite <- Hparts. now apply participants_of_ext.
Qed.

(** X14: when a member leaves a room and every call goes through, the
    member's row, and no other, is deleted from the membership table (the
    remaining rows keep their order; only the role of a successor may
    have changed), and the user is taken out of the room's participant
    set in Redis. *)
Theorem leaveRoom_removes_membership user room w row rest :
  calls_ok 8 (faults w) = true ->
  memberships_of user room (db w) = row :: rest ->
  set_or_absent w (participants_key room) ->
  result_of (leaveRoom user room w) = Ok tt
  /\ memberships_of user room (db (run (leaveRoom user room) w)) = []
  /\ map membership_key (room_memberships (db (run (leaveRoom user room) w)))
     = map membership_key
         (List.filter (fun m => negb (is_membership_of user room m))
                      (room_memberships (db w)))
  /\ (forall room',
        participants_of (run (leaveRoom user room) w) room' =
          if decide (room' = room) then participants_of w room ∖ {[user]}
          else participants_of w room').
Proof.
  intros H8 Hm Hset.
  destruct (leaveRoom_run user room w row rest H8 Hm Hset)
    as (w' & l & E & Hrows & _ & Hparts).
  unfold run. rewrite E. cbn [result_of world_of fst snd].
  split; [reflexivity|]. split; [|split; [|exact Hparts]].
  - unfold memberships_of. rewrite Hrows. apply filter_twice_none.
  - rewrite Hrows.
    apply (filter_by_key membership_key
             (fun k => negb (String.eqb (fst k) user
                             && String.eqb (snd k) room))).
    destruct (if String.eqb (rm_role row) "owner" then _ else None) as [o|];
      [|reflexivity].
    rewrite map_map. apply map_ext. intros x. now destruct (_ && _).
Qed.

Lemma leaveRoom_removes_membership_witness :
  result_of (leaveRoom "alice" "general" Sample.world) = Ok tt
  /\ memberships_of "alice" "general"
       (db (run (leaveRoom "alice" "general") Sample.world)) = [].
Proof.
  assert (Hset : set_or_absent Sample.world (participants_key "general"))
    by (intros v; vm_compute; discriminate).
  destruct (leaveRoom_removes_membership "alice" "general" Sample.world _ _
              eq_refl eq_refl Hset) as (Hr & Hgone & _).
  split; [exact Hr | exact Hgone].
Defined.

(** ** MessageService *)

Lemma Inv_db_clearMessageCache (P : Database -> Prop) room :
  Inv (fun w => P (db w)) (clearMessageCache room).
Proof. preserves. Qed.

Lemma insert_message_ok room user content type metadata d t :
  rows_ok d ->
  rows_ok (snd (insert_message room user content type metadata d t)).
Proof.
  unfold rows_ok. intros Hd. unfold insert_message.
  destruct (in_partition t); [|exact Hd].
  destruct (room_exists room d); [|exact Hd].
  destruct (user_exists user d); [|exact Hd].
  destruct (valid_message_type type) eqn:Et; [|exact Hd].
  destruct (content_length_ok type content) eqn:Ec; [|exact Hd].
  cbn [negb snd messages with_messages].
  apply Forall_app. split; [exact Hd|]. constructor; [|constructor].
  unfold row_ok. cbn [m_type m_content]. now rewrite Et, Ec.
Qed.

Lemma update_message_ok id content metadata d t :
  rows_ok d -> rows_ok (snd (update_message id content metadata d t)).
Proof.
  unfold rows_ok. intros Hd. unfold update_message.
  destruct (forallb _ _) eqn:Ef; [|exact Hd].
  cbn [snd messages with_messages].
  rewrite forallb_forall in Ef.
  apply List.Forall_forall. intros m' Hin.
  apply in_map_iff in Hin as (m & <- & Hin).
  rewrite List.Forall_forall in Hd. specialize (Hd m Hin).
  destruct (m_id m =? id) eqn:Eid; [|exact Hd].
  assert (Hm : In m (messages_with_id id d)).
  { apply List.filter_In. now split. }
  specialize (Ef m Hm). unfold row_ok in *. cbn [m_type m_content] in *.
  apply andb_true_iff in Hd as [Ht _]. now rewrite Ht, Ef.
Qed.

Lemma soft_delete_ok id d t :
  rows_ok d -> rows_ok (snd (soft_delete id d t)).
Proof.
  unfold rows_ok. intros Hd. unfold soft_delete. cbn [snd messages with_messages].
  apply List.Forall_forall. intros m' Hin.
  apply in_map_iff in Hin as (m & <- & Hin).
  rewrite List.Forall_forall in Hd. specialize (Hd m Hin).
  destruct (m_id m =? id); [reflexivity | exact Hd].
Qed.

Lemma createMessage_ok room user content type metadata :
  Inv messages_ok (createMessage room user content type metadata).
Proof.
  unfold createMessage, validateUserInRoom.
  apply Inv_bind.
  { apply Inv_bind; [apply (Inv_db_select rows_ok)|].
    intros [|? ?]; [apply Inv_throw | apply Inv_ret]. }
  intros _. apply Inv_bind.
  { apply (Inv_db_sql rows_ok).
    intros d t. apply insert_message_ok. }
  intros message. apply Inv_bind.
  { apply (Inv_db_sql rows_ok).
    intros d t Hd. exact Hd. }
  intros _. apply Inv_bind; [|intros; apply Inv_ret].
  apply (Inv_db_clearMessageCache
           rows_ok).
Qed.

Lemma updateMessage_ok id user content metadata :
  Inv messages_ok (updateMessage id user content metadata).
Proof.
  unfold updateMessage.
  apply Inv_bind; [apply (Inv_db_select rows_ok)|].
  intros [|message ?]; [apply Inv_throw|].
  destruct (negb _); [apply Inv_throw|].
  apply Inv_bind; [apply Inv_gets|]. intros t.
  destruct (_ <? _); [apply Inv_throw|].
  apply Inv_bind.
  { apply (Inv_db_sql rows_ok).
    intros d t'. apply update_message_ok. }
  intros rows. apply Inv_bind.
  { apply (Inv_db_clearMessageCache
             rows_ok). }
  intros _. destruct rows; [apply Inv_throw | apply Inv_ret].
Qed.

Lemma deleteMessage_ok id user isAdmin :
  Inv messages_ok (deleteMessage id user isAdmin).
Proof.
  unfold deleteMessage.
  apply Inv_bind; [apply (Inv_db_select rows_ok)|].
  intros [|message ?]; [apply Inv_throw|].
  destruct (_ && _); [apply Inv_throw|].
  apply Inv_bind.
  { apply (Inv_db_sql rows_ok).
    intros d t. apply soft_delete_ok. }
  intros _.
  apply (Inv_db_clearMessageCache
           rows_ok).
Qed.

(** X15: every stored message keeps a valid type and a content of legal
    length (1 to 2000 characters for a text message, at least 1 otherwise).
    When this holds of the messages table, it still holds after
    [createMessage], [updateMessage] and [deleteMessage], called with
    arguments of their declared types (a content of ASCII characters
    other than U+0000, a type that is absent or a string, never null) and
    whichever of their calls fail: an empty or over-long content never
    reaches the table, and the tombstone written by a delete is a legal
    row. *)
Theorem stored_messages_stay_valid w room user content type metadata
    id edit isAdmin :
  plain_ascii content = true ->
  plain_ascii (default "" edit) = true ->
  messages_ok w ->
  messages_ok (run (createMessage room user content type metadata) w)
  /\ messages_ok (run (updateMessage id user edit metadata) w)
  /\ messages_ok (run (deleteMessage id user isAdmin) w).
Proof.
  intros _ _ Hw. split; [|split].
  - now apply createMessage_ok.
  - now apply updateMessage_ok.
  - now apply deleteMessage_ok.
Qed.

Lemma stored_messages_stay_valid_witness :
  messages_ok (run (createMessage "general" "alice" "" None None) Sample.world)
  /\ messages_ok
       (run (updateMessage 1 "alice" (Some "") None) Sample.world)
  /\ messages_ok (run (deleteMessage 1 "alice" false) Sample.world).
Proof.
  apply stored_messages_stay_valid; [reflexivity | reflexivity |].
  unfold messages_ok, rows_ok. repeat constructor.
Defined.

Lemma starts_with_app p s : starts_with p (p +:+ s) = true.
Proof.
  induction p as [|a p IH]; simpl; [reflexivity|].
  now rewrite Ascii.eqb_refl, IH.
Qed.

Lemma append_assoc (a b c : string) : (a +:+ b) +:+ c = a +:+ (b +:+ c).
Proof.
  induction a as [|x a IH]; [reflexivity|].
  exact (f_equal (String x) IH).
Qed.

Lemma cache_key_prefix room cursor :
  starts_with ("cache:messages:" +:+ room +:+ ":") (cache_key room cursor)
  = true.
Proof.
  replace (cache_key room cursor)
    with (("cache:messages:" +:+ room +:+ ":") +:+
          (if truthy cursor then default "" cursor else "latest")).
  - apply starts_with_app.
  - unfold cache_key. now rewrite !append_assoc.
Qed.

Lemma bind_ok_inv {A B} (m : M A) (k : A -> M B) w b :
  result_of (bind m k w) = Ok b ->
  exists a w1 l1,
    m w = (Ok a, w1, l1)
    /\ result_of (k a w1) = Ok b
    /\ world_of (bind m k w) = world_of (k a w1).
Proof.
  destruct (m w) as [[[a|e] w1] l1] eqn:E.
  - rewrite (bind_ok _ _ _ _ _ _ E). intros H. now exists a, w1, l1.
  - rewrite (bind_throw _ _ _ _ _ _ E). discriminate.
Qed.

(** A successful [clearMessageCache] leaves no live page of the room, and
    touches nothing but Redis and the fault schedule. *)
Lemma clearMessageCache_cleared room w :
  result_of (clearMessageCache room w) = Ok tt ->
  (forall cursor,
     rlookup (run (clearMessageCache room) w) (cache_key room cursor) = None)
  /\ db (run (clearMessageCache room) w) = db w
  /\ now (run (clearMessageCache room) w) = now w.
Proof.
  unfold run, clearMessageCache, redis_keys. intros Hok.
  destruct (calls_ok 1 (faults w)) eqn:Hc.
  2:{ destruct (collaborator_fault
                  (Redis (Keys ("cache:messages:" +:+ room +:+ ":")))
                  (fun w =>
                     (Ok (List.filter
                            (fun k =>
                               starts_with ("cache:messages:" +:+ room +:+ ":") k
                               && bool_decide (is_Some (rlookup w k)))
                            (map fst (map_to_list (redis w)))), w)) w Hc)
        as [msg E].
      rewrite (bind_throw _ _ _ _ _ _ E) in Hok. discriminate. }
  set (w0 := with_faults (tail (faults w)) w) in *.
  assert (E : collaborator (Redis (Keys ("cache:messages:" +:+ room +:+ ":")))
                (fun w =>
                   (Ok (List.filter
                          (fun k =>
                             starts_with ("cache:messages:" +:+ room +:+ ":") k
                             && bool_decide (is_Some (rlookup w k)))
                          (map fst (map_to_list (redis w)))), w)) w
              = (Ok (List.filter
                       (fun k =>
                          starts_with ("cache:messages:" +:+ room +:+ ":") k
                          && bool_decide (is_Some (rlookup w k)))
                       (map fst (map_to_list (redis w)))), w0,
                 [Redis (Keys ("cache:messages:" +:+ room +:+ ":")) true])).
  { rewrite (collaborator_ok _ _ _ Hc). reflexivity. }
  rewrite (bind_ok _ _ _ _ _ _ E) in *.
  cbn [result_of world_of log_of fst snd] in *.
  set (keys := List.filter _ _) in *.
  assert (Hlive : forall cursor,
            rlookup w (cache_key room cursor) <> None ->
            In (cache_key room cursor) keys).
  { intros cursor Hl. apply List.filter_In. split.
    - apply list_elem_of_In, list_elem_of_fmap.
      unfold rlookup in Hl.
      destruct (redis w !! cache_key room cursor) as [e|] eqn:El;
        [|congruence].
      exists (cache_key room cursor, e). split; [reflexivity|].
      now apply elem_of_map_to_list.
    - rewrite cache_key_prefix. cbn [andb]. apply bool_decide_eq_true.
      destruct (rlookup w (cache_key room cursor)); [eauto | congruence]. }
  destruct keys as [|k ks] eqn:Ek.
  - split; [|auto]. intros cursor.
    destruct (rlookup w (cache_key room cursor)) eqn:El; [|exact El].
    destruct (Hlive cursor). congruence.
  - unfold redis_del in *.
    destruct (calls_ok 1 (faults w0)) eqn:Hc0.
    2:{ destruct (collaborator_fault (Redis (Del (k :: ks)))
                    (fun w =>
                       (Ok tt, with_redis (foldr delete (redis w) (k :: ks)) w))
                    w0 Hc0) as [msg E0].
        rewrite E0 in Hok. discriminate. }
    rewrite (collaborator_ok _ _ _ Hc0). cbn [world_of fst snd].
    split; [|auto]. intros cursor.
    unfold rlookup. cbn [redis with_redis with_faults now w0].
    destruct (decide (cache_key room cursor ∈ k :: ks)) as [Hin|Hout].
    + now rewrite lookup_foldr_delete.
    + rewrite lookup_foldr_delete_not_elem_of by exact Hout.
      destruct (rlookup w (cache_key room cursor)) eqn:El.
      * destruct Hout. apply list_elem_of_In, Hlive. congruence.
      * exact El.
Qed.

(** X16: a write invalidates the history cache.  After a successful
    [createMessage] no cached history page of the room remains in Redis,
    whatever its cursor; the same holds, for the room of the message, after
    a successful [deleteMessage] or [updateMessage]. *)
Theorem writes_clear_the_history_cache w :
  (forall room user content type metadata row,
     result_of (createMessage room user content type metadata w) = Ok row ->
     forall cursor,
       rlookup (run (createMessage room user content type metadata) w)
               (cache_key room cursor) = None)
  /\ (forall id user isAdmin message rest,
        result_of (deleteMessage id user isAdmin w) = Ok tt ->
        messages_with_id id (db w) = message :: rest ->
        forall cursor,
          rlookup (run (deleteMessage id user isAdmin) w)
                  (cache_key (m_room_id message) cursor) = None)
  /\ (forall id user content metadata message rest row,
        result_of (updateMessage id user content metadata w) = Ok row ->
        messages_with_id id (db w) = message :: rest ->
        forall cursor,
          rlookup (run (updateMessage id user content metadata) w)
                  (cache_key (m_room_id message) cursor) = None).
Proof.
  split; [|split].
  - intros room user content type metadata row Hok cursor.
    unfold run, createMessage in *.
    apply bind_ok_inv in Hok as (? & w1 & ? & _ & Hok & ->).
    apply bind_ok_inv in Hok as (? & w2 & ? & _ & Hok & ->).
    apply bind_ok_inv in Hok as (? & w3 & ? & _ & Hok & ->).
    apply bind_ok_inv in Hok as ([] & w4 & ? & E & _ & ->).
    cbn [ret world_of fst snd].
    replace w4 with (run (clearMessageCache room) w3)
      by (unfold run; now rewrite E).
    apply clearMessageCache_cleared. now rewrite E.
  - intros id user isAdmin message rest Hok Hm cursor.
    unfold run, deleteMessage in *.
    apply bind_ok_inv in Hok as (rows & w1 & ? & E1 & Hok & ->).
    assert (rows = message :: rest) as ->.
    { unfold sql_select, sql, collaborator in E1.
      destruct (faults w) as [|[?|] ?]; cbn in E1; congruence. }
    destruct (_ && _); [discriminate|].
    apply bind_ok_inv in Hok as ([] & w2 & ? & _ & Hok & ->).
    apply clearMessageCache_cleared.
    now destruct (result_of _) as [[]|].
  - intros id user content metadata message rest row Hok Hm cursor.
    unfold run, updateMessage in *.
    apply bind_ok_inv in Hok as (rows & w1 & ? & E1 & Hok & ->).
    assert (rows = message :: rest) as ->.
    { unfold sql_select, sql, collaborator in E1.
      destruct (faults w) as [|[?|] ?]; cbn in E1; congruence. }
    destruct (negb _); [discriminate|].
    rewrite bind_gets in *.
    destruct (_ <? _); [discriminate|].
    apply bind_ok_inv in Hok as (updated & w2 & ? & _ & Hok & ->).
    apply bind_ok_inv in Hok as ([] & w3 & ? & E3 & Hok & ->).
    replace (world_of _) with w3 by now destruct updated.
    replace w3 with (run (clearMessageCache (m_room_id message)) w2)
      by (unfold run; now rewrite E3).
    apply clearMessageCache_cleared. now rewrite E3.
Qed.

Lemma writes_clear_the_history_cache_witness :
  rlookup
    (run (createMessage "general" "alice" "hi" None None)
         (run (cacheMessageHistory "general" [] None)
              (with_now 1759276800000 Sample.world)))
    (cache_key "general" None) = None.
Proof.
  destruct (writes_clear_the_history_cache
              (run (cacheMessageHistory "general" [] None)
                   (with_now 1759276800000 Sample.world)))
    as [H _].
  eapply H. reflexivity.
Defined.

Lemma sql_select_inv {A} q (rows : Database -> A) w a w1 l1 :
  sql_select q rows w = (Ok a, w1, l1) ->
  a = rows (db w) /\ w1 = with_faults (tail (faults w)) w.
Proof.
  unfold sql_select, sql, collaborator.
  destruct (faults w) as [|[?|] ?] eqn:Ef; cbn; intros E;
    try discriminate; injection E as <- <- <-; split; try reflexivity;
    destruct w; cbn in *; now subst.
Qed.

Lemma sql_inv {A} q (run : Database -> Z -> Result A * Database) w a w1 l1 :
  sql q run w = (Ok a, w1, l1) ->
  fst (run (db w) (now w)) = Ok a
  /\ db w1 = snd (run (db w) (now w)) /\ now w1 = now w /\ redis w1 = redis w.
Proof.
  unfold sql, collaborator.
  destruct (faults w) as [|[?|] ?] eqn:Ef; cbn;
    destruct (run (db w) (now w)) as [[a'|e] d]; cbn; intros E;
    try discriminate; injection E as <- <- <-; auto.
Qed.

(** X17: only the author can edit a message, and only during the 24 hours
    after it was created (the limit included).  Whenever [updateMessage]
    succeeds, the first row with the given id belongs to the caller and is
    at most 24 hours old; every row with that id gets the new content (its
    old one when none is given) and the new metadata, and the time of the
    call as editedAt; id, room, author, type and createdAt are kept, all
    other rows are untouched, and the first updated row is returned. *)
Theorem updateMessage_effect id user content metadata w row :
  result_of (updateMessage id user content metadata w) = Ok row ->
  exists message rest,
    messages_with_id id (db w) = message :: rest
    /\ m_user_id message = user
    /\ now w - m_created_at message <= 24 * 60 * 60 * 1000
    /\ messages (db (run (updateMessage id user content metadata) w))
       = map (fun m =>
                if m_id m =? id
                then mkMessageRow (m_id m) (m_room_id m) (m_user_id m)
                       (default (m_content m) content) (m_type m)
                       (default (m_metadata m)
                          (option_map (fun o => JObj (json_fields o)) metadata))
                       (m_created_at m) (Some (now w))
                else m)
             (messages (db w))
    /\ m_id row = m_id message /\ m_room_id row = m_room_id message
    /\ m_user_id row = user /\ m_created_at row = m_created_at message
    /\ m_content row = default (m_content message) content
    /\ m_edited_at row = Some (now w).
Proof.
  unfold run, updateMessage. intros Hok.
  apply bind_ok_inv in Hok as (rows & w1 & ? & E1 & Hok & ->).
  apply sql_select_inv in E1 as [-> ->].
  destruct (messages_with_id id (db w)) as [|message rest] eqn:Em;
    [discriminate|].
  exists message, rest. split; [reflexivity|].
  destruct (String.eqb_spec (m_user_id message) user) as [Hu|];
    [|discriminate]. cbn [negb] in *.
  split; [exact Hu|].
  rewrite bind_gets in *. cbn [now with_faults] in *.
  destruct (Z.ltb_spec (24 * 60 * 60 * 1000) (now w - m_created_at message));
    [discriminate|].
  split; [assumption|].
  apply bind_ok_inv in Hok as (updated & w2 & ? & E2 & Hok & ->).
  apply sql_inv in E2 as (Hres & Hdb & Hnow & _).
  cbn [db now with_faults] in Hres, Hdb.
  apply bind_ok_inv in Hok as ([] & w3 & ? & E3 & Hok & ->).
  assert (Hc : db w3 = db w2).
  { pose proof (clearMessageCache_db (db w2) (now w2) (m_room_id message) w2
                  (conj eq_refl eq_refl)) as [Hsame _].
    now rewrite E3 in Hsame. }
  unfold update_message in Hres, Hdb.
  destruct (forallb _ _); [|discriminate].
  cbn [fst snd] in Hres, Hdb. rewrite Em in Hres. injection Hres as <-.
  cbn [map ret result_of world_of fst snd] in *. injection Hok as <-.
  rewrite Hc, Hdb. cbn [messages with_messages mapRowToMessage m_id m_room_id
                          m_user_id m_created_at m_content m_edited_at].
  auto 10.
Qed.

Lemma updateMessage_effect_witness :
  exists message rest,
    messages_with_id 1 (db Sample.world) = message :: rest
    /\ m_user_id message = "alice"
    /\ now Sample.world - m_created_at message <= 24 * 60 * 60 * 1000.
Proof.
  destruct (updateMessage_effect 1 "alice" (Some "hello again") None
              Sample.world
              (mkMessageRow 1 "general" "alice" "hello again" "text" (JObj [])
                            500 (Some 1000)) eq_refl)
    as (message & rest & H1 & H2 & H3 & _).
  exists message, rest. auto.
Defined.

(** X18: the three refusals of [updateMessage], for an id in the range
    of BIGINT and when the ownership query reaches the database: an
    unknown id gives "Message not found", a message of another user "Not
    authorized to edit this message", a message of the caller that is
    more than 24 hours old "Message too old to edit".  In each case
    neither the database nor Redis is changed. *)
Theorem updateMessage_refusals id user content metadata w :
  bigint_ok id = true ->
  calls_ok 1 (faults w) = true ->
  let refused msg :=
    result_of (updateMessage id user content metadata w) = Throw msg
    /\ db (run (updateMessage id user content metadata) w) = db w
    /\ redis (run (updateMessage id user content metadata) w) = redis w in
  (messages_with_id id (db w) = [] -> refused "Message not found")
  /\ (forall message rest,
        messages_with_id id (db w) = message :: rest ->
        m_user_id message <> user ->
        refused "Not authorized to edit this message")
  /\ (forall message rest,
        messages_with_id id (db w) = message :: rest ->
        m_user_id message = user ->
        24 * 60 * 60 * 1000 < now w - m_created_at message ->
        refused "Message too old to edit").
Proof.
  intros _ Hc refused. subst refused. cbv beta. unfold run, updateMessage.
  rewrite (bind_ok _ _ _ _ _ _ (sql_select_ok _ _ _ Hc)).
  split; [|split].
  - intros ->. cbn. auto.
  - intros message rest -> Hu. apply String.eqb_neq in Hu. rewrite Hu.
    cbn. auto.
  - intros message rest -> Hu Hold. apply String.eqb_eq in Hu. rewrite Hu.
    cbn [negb]. rewrite bind_gets. cbn [now with_faults].
    apply Z.ltb_lt in Hold. rewrite Hold. cbn. auto.
Qed.

Lemma updateMessage_refusals_witness :
  result_of (updateMessage 1 "carol" (Some "mine now") None Sample.world)
  = Throw "Not authorized to edit this message"
  /\ result_of (updateMessage 1 "alice" (Some "late")
                  None (with_now 86400501 Sample.world))
     = Throw "Message too old to edit"
  /\ result_of (updateMessage 7 "alice" (Some "x") None Sample.world)
     = Throw "Message not found".
Proof.
  assert (Hother : "alice" <> "carol") by discriminate.
  assert (Hold : 24 * 60 * 60 * 1000 < 86400501 - 500) by lia.
  split; [|split].
  - apply (updateMessage_refusals 1 "carol" (Some "mine now") None
             Sample.world eq_refl eq_refl) with (message := Sample.message1) (rest := []);
      [reflexivity | exact Hother].
  - apply (updateMessage_refusals 1 "alice" (Some "late") None
             (with_now 86400501 Sample.world) eq_refl eq_refl)
      with (message := Sample.message1) (rest := []);
      [reflexivity | reflexivity | exact Hold].
  - apply (updateMessage_refusals 7 "alice" (Some "x") None
             Sample.world eq_refl eq_refl). reflexivity.
Defined.
(** ** WebSocketService: which failures stay inside the handlers *)




(** X20: a private room stays private on the socket layer too.  When a
    user who is not a member asks to join a private room, the socket is
    not subscribed to the room, no one else is told, nothing is stored;
    the requester alone receives "join_room_error" with the reason. *)
Theorem private_room_stays_private socket room w r rs :
  room <> "" ->
  fst (createRateLimiter (sock_id socket) "join_room" (now w)
         (limits_of w (sock_id socket))) = true ->
  calls_ok 2 (faults w) = true ->
  memberships_of (userId socket) room (db w) = [] ->
  List.filter (fun r => String.eqb (r_id r) room) (chat_rooms (db w))
    = r :: rs ->
  r_type r = "private" ->
  log_of (handleJoinRoom socket (Some room) w)
  = [RateLimit (sock_id socket) "join_room" true;
     Sql (SelectMembership (userId socket) room) true;
     Sql (SelectRoomType room) true;
     Emit (ToSocket (sock_id socket)) "join_room_error"
       [("error", JStr "join_failed");
        ("message", JStr "Cannot join private room without invitation");
        ("roomId", JStr room)]]
  /\ sio_rooms (run (handleJoinRoom socket (Some room)) w) = sio_rooms w
  /\ db (run (handleJoinRoom socket (Some room)) w) = db w
  /\ redis (run (handleJoinRoom socket (Some room)) w) = redis w.
Proof.
  intros Hroom Hrate H2 Hm Hr Hp.
  set (w1 := with_limiters
               (<[sock_id socket :=
                    snd (createRateLimiter (sock_id socket) "join_room"
                           (now w) (limits_of w (sock_id socket)))]>
                  (limiters w)) w).
  pose proof (joinRoom_private_run (userId socket) room "member" w1 r rs
                H2 Hm Hr Hp) as Ej.
  assert (E : handleJoinRoom socket (Some room) w
              = (Ok tt, with_faults (tail (tail (faults w1))) w1,
                 [RateLimit (sock_id socket) "join_room" true;
                  Sql (SelectMembership (userId socket) room) true;
                  Sql (SelectRoomType room) true]
                 ++ [Emit (ToSocket (sock_id socket)) "join_room_error"
                       [("error", JStr "join_failed");
                        ("message",
                         JStr "Cannot join private room without invitation");
                        ("roomId", JStr room)]])).
  { unfold handleJoinRoom.
    eapply try_catch_throw; [|reflexivity].
    eapply (bind_step _ _ _ true w1 [_] _ _ [_; _]).
    - now apply checkRateLimit_allowed.
    - cbn [negb]. rewrite bind_gets, (truthy_some _ Hroom). cbn [negb].
      apply bind_throw. exact Ej. }
  unfold run. rewrite E. auto.
Qed.

Lemma private_room_stays_private_witness :
  sio_rooms (run (handleJoinRoom Sample.bob (Some "private-1")) Sample.world)
  = sio_rooms Sample.world
  /\ length (log_of (handleJoinRoom Sample.bob (Some "private-1")
                       Sample.world)) = 4%nat.
Proof.
  assert (Hroom : "private-1" <> "") by discriminate.
  destruct (private_room_stays_private Sample.bob "private-1" Sample.world
              _ _ Hroom eq_refl eq_refl eq_refl eq_refl eq_refl)
    as (Hl & Hs & _).
  split; [exact Hs | now rewrite Hl].
Defined.

Lemma sql_select_any {A} q (rows : Database -> A) w :
  exists r,
    sql_select q rows w
    = (r, with_faults (tail (faults w)) w, [Sql q (calls_ok 1 (faults w))])
    /\ (forall a, r = Ok a -> a = rows (db w)).
Proof.
  destruct (calls_ok 1 (faults w)) eqn:Hc.
  - rewrite (sql_select_ok _ _ _ Hc). eexists. split; [reflexivity|].
    now intros a [= <-].
  - destruct (sql_select_fault q rows w Hc) as [msg ->].
    eexists. split; [reflexivity|]. discriminate.
Qed.

Lemma deleteMessage_stranger id user w message rest :
  messages_with_id id (db w) = message :: rest ->
  m_user_id message <> user ->
  exists msg,
    deleteMessage id user false w
    = (Throw msg, with_faults (tail (faults w)) w,
       [Sql (SelectMessageOwner id) (calls_ok 1 (faults w))]).
Proof.
  intros Hm Hu. unfold deleteMessage.
  destruct (sql_select_any (SelectMessageOwner id) (messages_with_id id) w)
    as ([rows|msg] & E & Hrows).
  - rewrite (bind_ok _ _ _ _ _ _ E), (Hrows _ eq_refl), Hm.
    apply String.eqb_neq in Hu. rewrite Hu. cbn. eauto.
  - rewrite (bind_throw _ _ _ _ _ _ E). eauto.
Qed.

Lemma updateMessage_stranger id user content metadata w message rest :
  messages_with_id id (db w) = message :: rest ->
  m_user_id message <> user ->
  exists msg,
    updateMessage id user content metadata w
    = (Throw msg, with_faults (tail (faults w)) w,
       [Sql (SelectMessageOwner id) (calls_ok 1 (faults w))]).
Proof.
  intros Hm Hu. unfold updateMessage.
  destruct (sql_select_any (SelectMessageOwner id) (messages_with_id id) w)
    as ([rows|msg] & E & Hrows).
  - rewrite (bind_ok _ _ _ _ _ _ E), (Hrows _ eq_refl), Hm.
    apply String.eqb_neq in Hu. rewrite Hu. cbn. eauto.
  - rewrite (bind_throw _ _ _ _ _ _ E). eauto.
Qed.

Lemma getMessageById_any id w :
  exists r,
    getMessageById id w
    = (r, with_faults (tail (faults w)) w,
       [Sql (SelectMessageById id) (calls_ok 1 (faults w))]).
Proof.
  unfold getMessageById.
  destruct (sql_select_any (SelectMessageById id)
              (fun d => join_users (messages_with_id id d) d) w)
    as ([rows|msg] & E & _).
  - rewrite (bind_ok _ _ _ _ _ _ E). destruct rows; cbn; eauto.
  - rewrite (bind_throw _ _ _ _ _ _ E). eauto.
Qed.

(** X21: through the WebSocket service only the author of a message can
    edit or delete it.  When the first row with the given id belongs to
    another user, [handleEditMessage] and [handleDeleteMessage] leave the
    database as it is and announce nothing: no "message_updated",
    "message_removed", "message_edited" or "message_deleted" event is
    emitted, whichever calls fail. *)
Theorem only_the_author_edits_or_deletes socket id w message rest :
  messages_with_id id (db w) = message :: rest ->
  m_user_id message <> userId socket ->
  (db (run (handleDeleteMessage socket (Some id)) w) = db w
   /\ Forall (fun e => is_emit_of "message_removed" e = false
                       /\ is_emit_of "message_deleted" e = false)
             (log_of (handleDeleteMessage socket (Some id) w)))
  /\ (forall content,
        db (run (handleEditMessage socket
                   (mkEditMessageData (Some id) content)) w) = db w
        /\ Forall (fun e => is_emit_of "message_updated" e = false
                            /\ is_emit_of "message_edited" e = false)
                  (log_of (handleEditMessage socket
                             (mkEditMessageData (Some id) content) w))).
Proof.
  intros Hm Hu. split.
  - unfold run, handleDeleteMessage, try_catch. rewrite bind_gets.
    destruct (getMessageById_any id w) as ([found|msg] & E).
    + rewrite (bind_ok _ _ _ _ _ _ E).
      destruct found as [[m u]|]; cbn [ret result_of world_of log_of fst snd].
      * destruct (deleteMessage_stranger id (userId socket)
                    (with_faults (tail (faults w)) w) message rest Hm Hu)
          as [msg Ed].
        rewrite (bind_throw _ _ _ _ _ _ Ed). cbn. repeat constructor.
      * cbn. repeat constructor.
    + rewrite (bind_throw _ _ _ _ _ _ E). cbn. repeat constructor.
  - intros content.
    unfold run, handleEditMessage, try_catch. cbn [em_messageId em_content].
    destruct (negb (truthy content)); [cbn; repeat constructor|].
    destruct (updateMessage_stranger id (userId socket)
                (Some (trim (default "" content))) None w message rest Hm Hu)
      as [msg Eu].
    rewrite (bind_throw _ _ _ _ _ _ Eu). cbn. repeat constructor.
Qed.

Lemma only_the_author_edits_or_deletes_witness :
  db (run (handleDeleteMessage Sample.carol (Some 1)) Sample.world)
  = db Sample.world
  /\ db (run (handleEditMessage Sample.carol
                (mkEditMessageData (Some 1) (Some "changed"))) Sample.world)
     = db Sample.world.
Proof.
  assert (Hother : "alice" <> "carol") by discriminate.
  destruct (only_the_author_edits_or_deletes Sample.carol 1 Sample.world
              Sample.message1 [] eq_refl Hother) as [[Hd _] He].
  split; [exact Hd | apply He].
Defined.



Lemma validateUserInRoom_member user room w m ms :
  calls_ok 1 (faults w) = true ->
  memberships_of user room (db w) = m :: ms ->
  validateUserInRoom user room w
  = (Ok tt, with_faults (tail (faults w)) w,
     [Sql (SelectMembership user room) true]).
Proof.
  intros Hc Hm. unfold validateUserInRoom.
  rewrite (bind_ok _ _ _ _ _ _ (sql_select_ok _ _ _ Hc)), Hm. reflexivity.
Qed.

(** A read that finds nothing cached is answered from the database and
    caches its page. *)
Lemma getMessageHistory_miss room user limit w m ms :
  calls_ok 4 (faults w) = true ->
  memberships_of user room (db w) = m :: ms ->
  rlookup w (cache_key room None) = None ->
  let rows := select_history room (S limit) (db w) in
  let page := rev (map message_with_user_json (firstn limit rows)) in
  exists w1,
    getMessageHistory room user limit w
    = (Ok (JObj [("messages", JArr page);
                 ("hasMore", JBool (Nat.ltb limit (length rows)));
                 ("nextCursor",
                  match nth_error rows limit with
                  | Some r => if Nat.ltb limit (length rows)
                              then JDate (m_created_at (fst r))
                              else JUndef
                  | None => JUndef
                  end)]),
       w1,
       [Sql (SelectMembership user room) true;
        Redis (Get (cache_key room None)) true;
        Sql (SelectHistory room None (Z.of_nat limit)) true;
        Redis (SetEx (cache_key room None) 300) true])
    /\ db w1 = db w
    /\ faults w1 = tail (tail (tail (tail (faults w))))
    /\ redis w1
       = <[cache_key room None :=
             mkRedisEntry (RString (JArr page)) (Some (now w + 300 * 1000))]>
           (redis w).
Proof.
  intros H4 Hm Hcache rows page.
  pose proof (calls_ok_le 4 1 _ ltac:(lia) H4) as H1.
  set (w1 := with_faults (tail (faults w)) w).
  assert (F1 : calls_ok 3 (faults w1) = true) by apply (calls_ok_tail _ _ H4).
  set (w2 := with_faults (tail (faults w1)) w1).
  assert (F2 : calls_ok 2 (faults w2) = true) by apply (calls_ok_tail _ _ F1).
  set (w3 := with_faults (tail (faults w2)) w2).
  assert (F3 : calls_ok 1 (faults w3) = true) by apply (calls_ok_tail _ _ F2).
  unfold getMessageHistory.
  rewrite (bind_ok _ _ _ _ _ _ (validateUserInRoom_member _ _ _ _ _ H1 Hm)).
  fold w1.
  assert (Eget : getCachedMessageHistory room None w1
                 = (Ok None, w2, [Redis (Get (cache_key room None)) true])).
  { unfold getCachedMessageHistory.
    rewrite (redis_get_run _ _ (calls_ok_le 3 1 _ ltac:(lia) F1)).
    change (rlookup w1 (cache_key room None))
      with (rlookup w (cache_key room None)).
    now rewrite Hcache. }
  rewrite (bind_ok _ _ _ _ _ _ Eget). cbn [default from_option id js_falsy negb].
  rewrite (bind_ok _ _ _ _ _ _
             (sql_select_ok _ _ _ (calls_ok_le 2 1 _ ltac:(lia) F2))).
  fold w3. change (db w2) with (db w).
  unfold cacheMessageHistory.
  rewrite (bind_ok _ _ _ _ _ _ (redis_setEx_run _ _ _ _ F3)).
  cbn [ret result_of world_of log_of fst snd app].
  eexists. split; [reflexivity|]. repeat split.
Qed.

(** X23: the history cache.  A member's first read of a room's history
    (nothing being cached) is answered from the database with an object
    whose "messages" field is the page, and stores the page for five
    minutes.  While it is stored, a further read is answered from the
    cache, by the bare page (an array, not the object with "messages",
    "hasMore" and "nextCursor"); once the five minutes are over, a read
    goes to the database again and gets the object. *)
Theorem history_cache_hit_and_expiry room user limit w m ms t :
  calls_ok 8 (faults w) = true ->
  memberships_of user room (db w) = m :: ms ->
  rlookup w (cache_key room None) = None ->
  let page := JArr (rev (map message_with_user_json
                           (firstn limit
                              (select_history room (S limit) (db w))))) in
  exists first,
    result_of (getMessageHistory room user limit w) = Ok first
    /\ jget "messages" first = page
    /\ result_of (getMessageHistory room user limit
                    (with_now t (run (getMessageHistory room user limit) w)))
       = Ok (if t <? now w + 300 * 1000 then page else first).
Proof.
  intros H8 Hm Hcache page.
  destruct (getMessageHistory_miss room user limit w m ms
              (calls_ok_le 8 4 _ ltac:(lia) H8) Hm Hcache)
    as (w1 & E & Hdb & Hf & Hredis).
  unfold run. rewrite E. cbn [result_of world_of fst snd].
  eexists. split; [reflexivity|]. split; [reflexivity|].
  assert (F : calls_ok 4 (faults (with_now t w1)) = true).
  { cbn [faults with_now]. rewrite Hf.
    destruct (faults w) as [|[?|] [|[?|] [|[?|] [|[?|] fs]]]];
      try discriminate; try reflexivity. exact H8. }
  assert (Hm' : memberships_of user room (db (with_now t w1)) = m :: ms)
    by (cbn [db with_now]; now rewrite Hdb).
  destruct (Z.ltb_spec t (now w + 300 * 1000)) as [Hin|Hout].
  - unfold getMessageHistory.
    rewrite result_bind,
      (validateUserInRoom_member _ _ _ _ _ (calls_ok_le 4 1 _ ltac:(lia) F) Hm').
    cbn [result_of world_of fst snd].
    rewrite result_bind. unfold getCachedMessageHistory.
    rewrite redis_get_run
      by apply (calls_ok_le 3 1 _ ltac:(lia)), (calls_ok_tail _ _ F).
    unfold rlookup. cbn [redis now with_now with_faults]. rewrite Hredis.
    rewrite lookup_insert_eq. unfold live. cbn [re_expire re_val].
    apply Z.ltb_lt in Hin. rewrite Hin. reflexivity.
  - assert (Hc' : rlookup (with_now t w1) (cache_key room None) = None).
    { unfold rlookup. cbn [redis now with_now]. rewrite Hredis.
      rewrite lookup_insert_eq. unfold live. cbn [re_expire].
      apply Z.ltb_ge in Hout. now rewrite Hout. }
    destruct (getMessageHistory_miss room user limit (with_now t w1) m ms
                F Hm' Hc') as (w2 & E2 & _).
    rewrite E2. cbn [result_of fst db with_now]. now rewrite Hdb.
Qed.

Lemma history_cache_hit_and_expiry_witness :
  exists first,
    result_of (getMessageHistory "general" "alice" 50 Sample.world) = Ok first
    /\ jget "messages" first
       = JArr [message_with_user_json
                 (Sample.message1, mkUserRow "alice" "Alice")]
    /\ result_of
         (getMessageHistory "general" "alice" 50
            (with_now 2000
               (run (getMessageHistory "general" "alice" 50) Sample.world)))
       = Ok (JArr [message_with_user_json
                     (Sample.message1, mkUserRow "alice" "Alice")]).
Proof.
  exact (history_cache_hit_and_expiry "general" "alice" 50 Sample.world
           Sample.membership1 [] 2000 eq_refl eq_refl eq_refl).
Defined.

(** ** ORDER BY *)

Section SortFacts.
Context {A : Type} (le : A -> A -> bool) (Q : A -> Prop).
Hypothesis le_total : forall a b, Q a -> Q b -> le a b = true \/ le b a = true.
Hypothesis le_trans :
  forall a b c, Q a -> Q b -> Q c ->
    le a b = true -> le b c = true -> le a c = true.

Lemma insert_by_In x y l : In y (insert_by le x l) <-> y = x \/ In y l.
Proof.
  induction l as [|z l IH]; simpl; [intuition|].
  destruct (le x z); simpl; rewrite ?IH; intuition.
Qed.

Lemma sort_by_In y l : In y (sort_by le l) <-> In y l.
Proof.
  unfold sort_by. induction l as [|x l IH]; simpl; [reflexivity|].
  rewrite insert_by_In, IH. intuition.
Qed.

Lemma insert_by_sorted x l :
  Q x -> Forall Q l ->
  StronglySorted (fun a b => le a b = true) l ->
  StronglySorted (fun a b => le a b = true) (insert_by le x l).
Proof.
  intros Hx Hl Hs. induction Hs as [|z l Hs IH Hz]; simpl.
  - repeat constructor.
  - apply Forall_cons in Hl as [Qz Ql].
    destruct (le x z) eqn:E.
    + constructor; [now constructor|]. constructor; [exact E|].
      rewrite List.Forall_forall in *. intros y Hy.
      apply (le_trans x z y); auto.
    + constructor; [now apply IH|].
      apply List.Forall_forall. intros y Hy. apply insert_by_In in Hy as [->|Hy].
      * destruct (le_total x z Hx Qz); congruence.
      * rewrite List.Forall_forall in Hz. now apply Hz.
Qed.

Lemma sort_by_sorted l :
  Forall Q l -> StronglySorted (fun a b => le a b = true) (sort_by le l).
Proof.
  unfold sort_by. induction 1 as [|x l Hx Hl IH]; simpl; [constructor|].
  apply insert_by_sorted; [exact Hx | | exact IH].
  apply List.Forall_forall. intros y Hy.
  apply (proj1 (sort_by_In y l)) in Hy.
  rewrite List.Forall_forall in Hl. now apply Hl.
Qed.
End SortFacts.

Lemma In_firstn {A} (x : A) n l : In x (firstn n l) -> In x l.
Proof.
  revert l. induction n as [|n IH]; intros [|y l]; simpl; try tauto.
  intros [->|H]; auto.
Qed.

Lemma StronglySorted_weaken {A} (R R' : A -> A -> Prop) l :
  (forall a b, R a b -> R' a b) -> StronglySorted R l -> StronglySorted R' l.
Proof.
  intros H. induction 1 as [|x l Hs IH Hx]; constructor; [exact IH|].
  eapply Forall_impl; [exact Hx|]. auto.
Qed.

Lemma StronglySorted_firstn {A} (R : A -> A -> Prop) n l :
  StronglySorted R l -> StronglySorted R (firstn n l).
Proof.
  revert l. induction n as [|n IH]; intros l Hs; [constructor|].
  destruct Hs as [|x l Hs Hx]; [constructor|]. simpl.
  constructor; [now apply IH|].
  rewrite List.Forall_forall in *. intros y Hy. apply Hx.
  now apply (In_firstn y n l).
Qed.

Lemma join_users_In m u ms d :
  In (m, u) (join_users ms d) <->
  In m ms /\ In u (users d) /\ u_id u = m_user_id m.
Proof.
  unfold join_users. rewrite in_flat_map. split.
  - intros (m' & Hm & Hin). apply in_map_iff in Hin as (u' & E & Hu).
    injection E as -> ->. apply List.filter_In in Hu as [Hu Hid].
    apply String.eqb_eq in Hid. auto.
  - intros (Hm & Hu & Hid). exists m. split; [exact Hm|].
    apply in_map_iff. exists u. split; [reflexivity|].
    apply List.filter_In. split; [exact Hu|]. now apply String.eqb_eq.
Qed.

(** X24: a page of a room's history holds at most the requested number of
    rows; each row is a stored message of that very room, paired with the
    user row of its author; and the rows come newest first (the service
    reverses them, so that a page reads in chronological order). *)
Theorem history_page_is_sound room limit d :
  (length (select_history room limit d) <= limit)%nat
  /\ Forall (fun r =>
               m_room_id (fst r) = room
               /\ In (fst r) (messages d)
               /\ In (snd r) (users d)
               /\ u_id (snd r) = m_user_id (fst r))
            (select_history room limit d)
  /\ StronglySorted
       (fun a b => m_created_at (fst b) <= m_created_at (fst a))
       (select_history room limit d).
Proof.
  unfold select_history. split; [|split].
  - rewrite length_firstn. lia.
  - apply List.Forall_forall. intros [m u] Hin.
    apply In_firstn in Hin. apply (proj1 (sort_by_In _ _ _)) in Hin.
    apply (proj1 (join_users_In _ _ _ _)) in Hin as (Hm & Hu & Hid).
    apply List.filter_In in Hm as [Hm Hroom]. apply String.eqb_eq in Hroom.
    auto.
  - apply StronglySorted_firstn.
    eapply StronglySorted_weaken;
      [|apply (sort_by_sorted newest_first (fun _ => True))].
    + intros a b H. unfold newest_first in H. now apply Z.leb_le.
    + intros a b _ _. unfold newest_first.
      destruct (Z.leb_spec (m_created_at (fst b)) (m_created_at (fst a)));
        [now left|right]. apply Z.leb_le. lia.
    + intros a b c _ _ _. unfold newest_first. rewrite !Z.leb_le. lia.
    + apply List.Forall_forall. auto.
Qed.

(** ** AuthService *)

Lemma split_on_nonempty sep s : split_on sep s <> [].
Proof.
  destruct s as [|c s]; simpl; [discriminate|].
  destruct (Ascii.eqb c sep); [discriminate|].
  destruct (split_on sep s); discriminate.
Qed.

Lemma split_on_free sep s : free_of sep s = true -> split_on sep s = [s].
Proof.
  induction s as [|c s IH]; simpl; [reflexivity|].
  intros H. apply andb_true_iff in H as [Hc Hs].
  apply negb_true_iff in Hc. rewrite Hc, (IH Hs). reflexivity.
Qed.

Lemma split_on_app sep a r :
  free_of sep a = true ->
  split_on sep (a +:+ String sep r) = a :: split_on sep r.
Proof.
  induction a as [|c a IH]; intros H.
  - change (split_on sep (String sep r) = "" :: split_on sep r).
    simpl. now rewrite Ascii.eqb_refl.
  - simpl in H. apply andb_true_iff in H as [Hc Ha].
    apply negb_true_iff in Hc.
    change (split_on sep (String c (a +:+ String sep r))
            = String c a :: split_on sep r).
    simpl. now rewrite Hc, (IH Ha).
Qed.

Lemma split_on_one sep s b :
  split_on sep s = [b] -> s = b /\ free_of sep b = true.
Proof.
  revert b. induction s as [|c s IH]; simpl; intros b H.
  - injection H as <-. auto.
  - destruct (Ascii.eqb c sep) eqn:Ec.
    + injection H as _ H. now destruct (split_on_nonempty sep s).
    + destruct (split_on sep s) as [|p ps] eqn:Es;
        [now destruct (split_on_nonempty sep s)|].
      injection H as <- ->. destruct (IH p eq_refl) as [-> Hp].
      simpl. now rewrite Ec, Hp.
Qed.

Lemma split_on_two sep s a b :
  split_on sep s = [a; b] ->
  s = a +:+ String sep b /\ free_of sep a = true /\ free_of sep b = true.
Proof.
  revert a. induction s as [|c s IH]; simpl; intros a H; [discriminate|].
  destruct (Ascii.eqb c sep) eqn:Ec.
  - injection H as <- H. apply Ascii.eqb_eq in Ec as ->.
    apply split_on_one in H as [-> Hb]. auto.
  - destruct (split_on sep s) as [|p ps] eqn:Es; [discriminate|].
    injection H as <- ->. destruct (IH p eq_refl) as (-> & Hp & Hb).
    repeat split; [|exact Hb]. simpl. now rewrite Ec, Hp.
Qed.

(** X25: [extractTokenFromAuth] accepts exactly the headers made of the
    word "Bearer", one blank and a token without blanks, and returns that
    token; the token may be empty ("Bearer " yields the empty token).  A
    missing or empty header, another scheme, a missing blank or any
    further blank gives no token. *)
Theorem extractTokenFromAuth_spec authHeader token :
  extractTokenFromAuth authHeader = Some token
  <-> authHeader = Some ("Bearer " +:+ token) /\ free_of " " token = true.
Proof.
  unfold extractTokenFromAuth. split.
  - destruct authHeader as [s|]; [|discriminate].
    destruct (negb (truthy (Some s))); [discriminate|].
    cbn [default from_option id].
    destruct (split_on " " s) as [|scheme [|tok [|? ?]]] eqn:Es;
      try discriminate.
    destruct (String.eqb_spec scheme "Bearer") as [->|]; [|discriminate].
    intros [= <-]. apply split_on_two in Es as (-> & _ & Ht).
    split; [reflexivity | exact Ht].
  - intros [-> Ht].
    change (truthy (Some ("Bearer " +:+ token))) with true.
    cbn [negb default from_option id].
    change ("Bearer " +:+ token) with ("Bearer" +:+ String " " token).
    rewrite split_on_app by reflexivity.
    rewrite (split_on_free _ _ Ht). reflexivity.
Qed.

(** ** Sending a message, end to end *)









(** ** Succession of the owner *)

Lemma new_owner_first_total a b :
  (rm_role a = "admin" \/ rm_role a = "member") ->
  (rm_role b = "admin" \/ rm_role b = "member") ->
  new_owner_first a b = true \/ new_owner_first b a = true.
Proof.
  unfold new_owner_first. intros [Ha|Ha] [Hb|Hb]; rewrite Ha, Hb; cbn;
    auto; rewrite !Z.leb_le; lia.
Qed.

Lemma new_owner_first_trans a b c :
  (rm_role a = "admin" \/ rm_role a = "member") ->
  (rm_role b = "admin" \/ rm_role b = "member") ->
  (rm_role c = "admin" \/ rm_role c = "member") ->
  new_owner_first a b = true -> new_owner_first b c = true ->
  new_owner_first a c = true.
Proof.
  unfold new_owner_first.
  intros [Ha|Ha] [Hb|Hb] [Hc|Hc]; rewrite Ha, Hb, Hc; cbn;
    rewrite ?Z.leb_le; try discriminate; auto; lia.
Qed.

(** X27: when the owner of a room leaves and other admins or members
    remain, one of them becomes the owner: the room row names that user
    and that user's membership row gets the role "owner".  The successor
    is the first candidate in the order of the query, which puts plain
    members before admins ("member" sorts above "admin" in descending
    order) and, within a role, whoever joined first. *)
Theorem ownership_passes_on user room w row rest :
  calls_ok 8 (faults w) = true ->
  memberships_of user room (db w) = row :: rest ->
  rm_role row = "owner" ->
  set_or_absent w (participants_key room) ->
  let candidates :=
    List.filter
      (fun m =>
         negb (String.eqb (rm_user_id m) user)
         && (String.eqb (rm_role m) "admin" || String.eqb (rm_role m) "member"))
      (room_members room (db w)) in
  candidates <> [] ->
  exists o,
    In o candidates
    /\ (forall c, In c candidates -> new_owner_first o c = true)
    /\ ((exists c, In c candidates /\ rm_role c = "member") ->
        rm_role o = "member")
    /\ Forall (fun r => r_id r = room -> r_owner_id r = Some (rm_user_id o))
              (chat_rooms (db (run (leaveRoom user room) w)))
    /\ exists m,
         In m (room_memberships (db (run (leaveRoom user room) w)))
         /\ rm_user_id m = rm_user_id o /\ rm_room_id m = room
         /\ rm_role m = "owner".
Proof.
  intros H8 Hm Hrole Hset candidates Hsome.
  destruct (leaveRoom_run user room w row rest H8 Hm Hset)
    as (w' & l & E & Hrows & Hrooms & _).
  unfold run. rewrite E. cbn [world_of fst snd].
  rewrite Hrole in Hrows, Hrooms. cbn [String.eqb Ascii.eqb Bool.eqb] in *.
  fold candidates in Hrows, Hrooms.
  assert (HQ : Forall (fun m => rm_role m = "admin" \/ rm_role m = "member")
                      candidates).
  { apply List.Forall_forall. intros c Hc.
    apply List.filter_In in Hc as [_ Hc].
    apply andb_true_iff in Hc as [_ Hc]. apply orb_true_iff in Hc.
    destruct Hc as [Hc|Hc]; apply String.eqb_eq in Hc; auto. }
  pose proof (sort_by_sorted new_owner_first _ new_owner_first_total
                new_owner_first_trans candidates HQ) as Hsorted.
  pose proof (fun y => sort_by_In new_owner_first y candidates) as Hin.
  destruct (sort_by new_owner_first candidates) as [|o os] eqn:Es.
  { destruct candidates as [|c cs]; [now destruct Hsome|].
    destruct (proj2 (Hin c) (or_introl eq_refl)). }
  cbn [head] in Hrows, Hrooms.
  assert (Ho : In o candidates) by (apply Hin; now left).
  assert (Hfirst : forall c, In c candidates -> new_owner_first o c = true).
  { intros c Hc. apply Hin in Hc as [<-|Hc].
    - rewrite List.Forall_forall in HQ.
      now destruct (new_owner_first_total o o (HQ o Ho) (HQ o Ho)).
    - apply StronglySorted_inv in Hsorted as [_ Hos].
      rewrite List.Forall_forall in Hos. now apply Hos. }
  exists o. split; [exact Ho|]. split; [exact Hfirst|]. split; [|split].
  - intros (c & Hc & Hmember). specialize (Hfirst c Hc).
    unfold new_owner_first in Hfirst. rewrite Hmember in Hfirst.
    destruct (String.eqb_spec (rm_role o) "member") as [Heq|Hne];
      [exact Heq | discriminate].
  - rewrite Hrooms. apply List.Forall_forall. intros r' Hr'.
    apply in_map_iff in Hr' as (r & <- & _).
    destruct (String.eqb_spec (r_id r) room); [reflexivity|]. intros; easy.
  - apply List.filter_In in Ho as [Ho Hcand].
    apply List.filter_In in Ho as [Ho Hroom]. apply String.eqb_eq in Hroom.
    apply andb_true_iff in Hcand as [Hother _].
    exists (mkMembershipRow (rm_id o) (rm_user_id o) (rm_room_id o) "owner"
              (rm_joined_at o) (rm_last_read_at o) (rm_notifications o)).
    split; [|auto]. rewrite Hrows. apply List.filter_In. split.
    + apply in_map_iff. exists o. split; [|exact Ho].
      now rewrite Hroom, !String.eqb_refl.
    + unfold is_membership_of. cbn [rm_user_id rm_room_id].
      apply negb_true_iff in Hother. now rewrite Hother.
Qed.

Lemma ownership_passes_on_witness :
  let staff :=
    [mkMembershipRow 1 "alice" "general" "owner" 100 100 true;
     mkMembershipRow 2 "carol" "general" "admin" 200 200 true;
     mkMembershipRow 3 "bob" "general" "member" 300 300 true] in
  let w := with_db (with_memberships staff Sample.database) Sample.world in
  exists o,
    In o [mkMembershipRow 2 "carol" "general" "admin" 200 200 true;
          mkMembershipRow 3 "bob" "general" "member" 300 300 true]
    /\ rm_role o = "member"
    /\ Forall (fun r => r_id r = "general" -> r_owner_id r = Some (rm_user_id o))
              (chat_rooms (db (run (leaveRoom "alice" "general") w))).
Proof.
  intros staff w.
  assert (Hset : set_or_absent w (participants_key "general"))
    by (intros v; vm_compute; discriminate).
  assert (Hsome :
            List.filter
              (fun m =>
                 negb (String.eqb (rm_user_id m) "alice")
                 && (String.eqb (rm_role m) "admin"
                     || String.eqb (rm_role m) "member"))
              (room_members "general" (db w)) <> []) by discriminate.
  destruct (ownership_passes_on "alice" "general" w _ _ eq_refl eq_refl
              eq_refl Hset Hsome) as (o & Ho & _ & Hmember & Hroom & _).
  exists o. split; [exact Ho|]. split; [|exact Hroom].
  apply Hmember.
  exists (mkMembershipRow 3 "bob" "general" "member" 300 300 true).
  split; [right; now left | reflexivity].
Defined.

(** ** WebSocketService: what a request never does *)

(** X28: a request refused by the limiter has no effect.  For join_room,
    update_presence and start_typing, as for send_message, a refused
    request leaves the whole state as it is (tables, Redis, typing entries,
    timers, subscriptions, the limiter itself) and emits nothing but the
    "rate_limit_exceeded" notice to the requester, with retryAfter 60 and
    the name of the action. *)
Theorem refused_requests_have_no_effect socket action w :
  fst (createRateLimiter (sock_id socket) action (now w)
         (limits_of w (sock_id socket))) = false ->
  let notice :=
    [RateLimit (sock_id socket) action false;
     Emit (ToSocket (sock_id socket)) "rate_limit_exceeded"
       [("error", JStr "rate_limit_exceeded");
        ("retryAfter", JNum 60);
        ("endpoint", JStr action);
        ("timestamp", JDate (now w))]] in
  (action = "join_room" ->
   forall roomId, handleJoinRoom socket roomId w = (Ok tt, w, notice))
  /\ (action = "update_presence" ->
      forall data, handleUpdatePresence socket data w = (Ok tt, w, notice))
  /\ (action = "start_typing" ->
      forall roomId, handleStartTyping socket roomId w = (Ok tt, w, notice)).
Proof.
  intros Hrate notice.
  pose proof (checkRateLimit_rejected socket action w Hrate) as E.
  repeat apply conj; intros -> ?.
  - unfold handleJoinRoom. apply try_catch_ok.
    eapply (bind_step _ _ _ false _ [_; _] _ _ []); [exact E | reflexivity].
  - unfold handleUpdatePresence. apply try_catch_ok.
    eapply (bind_step _ _ _ false _ [_; _] _ _ []); [exact E | reflexivity].
  - unfold handleStartTyping. apply try_catch_ok.
    eapply (bind_step _ _ _ false _ [_; _] _ _ []); [exact E | reflexivity].
Qed.

Lemma refused_requests_have_no_effect_witness :
  let w :=
    with_limiters
      {["sock-b" := {["sock-b:join_room" := mkLimitEntry 10 5000]}]}
      Sample.world in
  run (handleJoinRoom Sample.bob (Some "general")) w = w.
Proof.
  intros w.
  destruct (refused_requests_have_no_effect Sample.bob "join_room" w eq_refl)
    as [H _].
  unfold run. now rewrite (H eq_refl (Some "general")).
Defined.

Lemma handleDisconnection_db D t socket :
  Inv (same_db D t) (handleDisconnection socket).
Proof. preserves. Qed.

Lemma handleUpdatePresence_db D t socket data :
  Inv (same_db D t) (handleUpdatePresence socket data).
Proof. preserves. Qed.

Lemma handleStartTyping_db D t socket roomId :
  Inv (same_db D t) (handleStartTyping socket roomId).
Proof. preserves. Qed.

Lemma handleStopTyping_db D t socket roomId :
  Inv (same_db D t) (handleStopTyping socket roomId).
Proof. preserves. Qed.

(** X29: presence, typing, ping and teardown never write to the database.
    Whatever happens in Redis, the tables and sequences are the same
    after [handleDisconnection], [handleUpdatePresence],
    [handleStartTyping], [handleStopTyping] and [handlePing] as before: a
    user who disconnects stays a member of every room. *)
Theorem presence_and_typing_leave_the_database_alone socket w :
  db (run (handleDisconnection socket) w) = db w
  /\ (forall data, db (run (handleUpdatePresence socket data) w) = db w)
  /\ (forall roomId, db (run (handleStartTyping socket roomId) w) = db w)
  /\ (forall roomId, db (run (handleStopTyping socket roomId) w) = db w)
  /\ db (run (handlePing socket) w) = db w.
Proof.
  repeat apply conj; intros.
  - now apply (handleDisconnection_db (db w) (now w) socket w).
  - now apply (handleUpdatePresence_db (db w) (now w) socket data w).
  - now apply (handleStartTyping_db (db w) (now w) socket roomId w).
  - now apply (handleStopTyping_db (db w) (now w) socket roomId w).
  - reflexivity.
Qed.

Lemma leaveRoom_silent user room :
  LogAll (fun e => is_emit e = false) (leaveRoom user room).
Proof. logall; reflexivity. Qed.

(** X30: leaving a room through the socket.  When a member asks to leave
    and every call goes through, the membership row is gone, the socket is
    no longer subscribed to the room, the requester gets one "room_left"
    and the remaining subscribers get one "user_left" naming the user. *)
Theorem leave_room_unsubscribes socket room w row rest :
  room <> "" ->
  calls_ok 8 (faults w) = true ->
  memberships_of (userId socket) room (db w) = row :: rest ->
  set_or_absent w (participants_key room) ->
  memberships_of (userId socket) room
    (db (run (handleLeaveRoom socket (Some room)) w)) = []
  /\ (sock_id socket
      ∉ recipients (run (handleLeaveRoom socket (Some room)) w) (ToRoom room))
  /\ emissions "room_left" (log_of (handleLeaveRoom socket (Some room) w))
     = [Emit (ToSocket (sock_id socket)) "room_left"
          [("roomId", JStr room); ("timestamp", JDate (now w))]]
  /\ emissions "user_left" (log_of (handleLeaveRoom socket (Some room) w))
     = [Emit (ToRoomExcept room (sock_id socket)) "user_left"
          [("user", user_json socket);
           ("roomId", JStr room);
           ("timestamp", JDate (now w))]]
  /\ emissions "leave_room_error"
       (log_of (handleLeaveRoom socket (Some room) w)) = [].
Proof.
  intros Hroom H8 Hm Hset.
  destruct (leaveRoom_run (userId socket) room w row rest H8 Hm Hset)
    as (w1 & l1 & E1 & Hrows & _ & _).
  assert (E : handleLeaveRoom socket (Some room) w
              = (Ok tt,
                 with_sio_rooms
                   (alter (fun s => s ∖ {[sock_id socket]}) room (sio_rooms w1))
                   w1,
                 l1 ++ [SocketLeave (sock_id socket) room;
                        Emit (ToSocket (sock_id socket)) "room_left"
                          [("roomId", JStr room);
                           ("timestamp", JDate (now w))];
                        Emit (ToRoomExcept room (sock_id socket)) "user_left"
                          [("user", user_json socket);
                           ("roomId", JStr room);
                           ("timestamp", JDate (now w))]])).
  { unfold handleLeaveRoom. apply try_catch_ok. rewrite bind_gets.
    rewrite (truthy_some _ Hroom). cbn [negb default from_option id].
    eapply bind_step; [exact E1|]. reflexivity. }
  unfold run. rewrite E. cbn [world_of log_of fst snd].
  pose proof (leaveRoom_silent (userId socket) room w) as Hsilent.
  rewrite E1 in Hsilent. cbn [log_of snd] in Hsilent.
  split; [|split].
  - unfold memberships_of. cbn [db with_sio_rooms]. rewrite Hrows.
    apply filter_twice_none.
  - unfold recipients. cbn [sio_rooms with_sio_rooms].
    rewrite lookup_alter_eq.
    destruct (sio_rooms w1 !! room); cbn; set_solver.
  - rewrite !emissions_app, !(silent_no_emissions _ _ Hsilent).
    repeat split.
Qed.

Lemma leave_room_unsubscribes_witness :
  (sock_id Sample.alice
   ∉ recipients (run (handleLeaveRoom Sample.alice (Some "general"))
                     Sample.world) (ToRoom "general"))
  /\ length (emissions "user_left"
               (log_of (handleLeaveRoom Sample.alice (Some "general")
                          Sample.world))) = 1%nat.
Proof.
  assert (Hroom : "general" <> "") by discriminate.
  assert (Hset : set_or_absent Sample.world (participants_key "general"))
    by (intros v; vm_compute; discriminate).
  destruct (leave_room_unsubscribes Sample.alice "general" Sample.world _ _
              Hroom eq_refl eq_refl Hset) as (_ & Hout & _ & Hleft & _).
  split; [exact Hout | now rewrite Hleft].
Defined.
